(** * ultrabalancer: the advanced load-balancer core (src/core/lb_core_advanced.c)

    A shallow embedding of the backend registry, the two selection
    strategies (round-robin and least-connections), the strategy factory and
    the core life cycle, followed by the properties of the specification.

    Conventions of the embedding.
    - A [uint32_t] / [atomic_uint] is a [Z] in [0, 2^32); every operation of
      the source that can leave that range has its wrap-around written out.
    - A [backend_t*] is [option ptr]: [None] is the null pointer, [Some p]
      the address of an object of the backend heap.  [calloc] hands out the
      next unused address, so two allocations never alias.
    - The calls are modelled one at a time (no interleaving of threads): an
      [atomic_load] reads the field, an [atomic_fetch_add] returns the old
      value and stores the incremented one.
    - What the operating system answers ([calloc], [epoll_create1], [mmap],
      [sysconf]) is an explicit argument of the function that asks. *)

From Stdlib Require Import ZArith Lia Strings.Byte.
From stdpp Require Import base list strings.

Local Open Scope Z_scope.

(** ** Status codes and logging levels *)

Inductive lb_log_level_t := LB_LOG_DEBUG | LB_LOG_INFO | LB_LOG_WARN | LB_LOG_ERROR.

Definition lb_log_level_str (lvl : lb_log_level_t) : string :=
  match lvl with
  | LB_LOG_DEBUG => "DEBUG"
  | LB_LOG_INFO => "INFO"
  | LB_LOG_WARN => "WARN"
  | LB_LOG_ERROR => "ERROR"
  end.

Inductive lb_status_t :=
  | LB_OK | LB_ERR_NOMEM | LB_ERR_SYS | LB_ERR_INVAL
  | LB_ERR_STATE | LB_ERR_LIMIT | LB_ERR_EMPTY.

Definition lb_status_code (s : lb_status_t) : Z :=
  match s with
  | LB_OK => 0
  | LB_ERR_NOMEM => -1
  | LB_ERR_SYS => -2
  | LB_ERR_INVAL => -3
  | LB_ERR_STATE => -4
  | LB_ERR_LIMIT => -5
  | LB_ERR_EMPTY => -6
  end.

Definition lb_status_str (s : lb_status_t) : string :=
  match s with
  | LB_OK => "OK"
  | LB_ERR_NOMEM => "NOMEM"
  | LB_ERR_SYS => "SYS"
  | LB_ERR_INVAL => "INVAL"
  | LB_ERR_STATE => "STATE"
  | LB_ERR_LIMIT => "LIMIT"
  | LB_ERR_EMPTY => "EMPTY"
  end.

Global Instance lb_status_eq_dec : EqDecision lb_status_t.
Proof. solve_decision. Defined.

(** ** Machine integers *)

Definition UINT32_MOD : Z := 2 ^ 32.
Definition UINT32_MAX : Z := 2 ^ 32 - 1.
Definition MAX_CONNECTIONS : Z := 65535.

(** Truncation of a value to [uint32_t]. *)
Definition u32 (z : Z) : Z := z mod UINT32_MOD.

Definition is_u32 (z : Z) : Prop := 0 <= z < UINT32_MOD.

(** ** Types taken from core/loadbalancer.h *)

(** Modelled from the spec: [lb_algorithm_t] is declared in
    core/loadbalancer.h, which is not part of the sources at hand.  The
    specification gives it as a tag with at least ROUNDROBIN and LEASTCONN;
    every further tag of the enumeration is [LB_ALGO_OTHER]. *)
Inductive lb_algorithm_t :=
  | LB_ALGO_ROUNDROBIN
  | LB_ALGO_LEASTCONN
  | LB_ALGO_OTHER (tag : Z).

(** Modelled from the spec: the health states of [backend_t] (declared in
    core/loadbalancer.h); DOWN, UP and the reserved DRAINING. *)
Inductive backend_state := BACKEND_DOWN | BACKEND_UP | BACKEND_DRAINING.

Global Instance backend_state_eq_dec : EqDecision backend_state.
Proof. solve_decision. Defined.

(** Modelled from the spec: [sizeof(b->host)], the size of the [host] array
    of [backend_t] (declared in core/loadbalancer.h): 256 bytes. *)
Definition HOST_SIZE : nat := 256.

(** Modelled from the spec: the fields of [backend_t] that the core reads
    and writes (the structure is declared in core/loadbalancer.h). *)
Record backend_t := mk_backend {
  b_host : list byte;           (* char host[HOST_SIZE] *)
  b_port : Z;                   (* uint16_t *)
  b_weight : Z;                 (* atomic uint32_t *)
  b_state : backend_state;      (* atomic *)
  b_active_conns : Z;           (* atomic uint32_t *)
  b_sockfd : Z;                 (* int *)
  b_lock : bool                 (* true once pthread_spin_init ran *)
}.

(** Addresses of backend objects, and the heap that holds them. *)
Abbreviation ptr := nat (only parsing).
Abbreviation heap := (list backend_t) (only parsing).

Record sockaddr_in := mk_sockaddr {
  sin_family : Z;
  sin_port : Z;
  sin_addr : Z
}.

(** ** The strategy record and the core object *)

(** The function pointers of [lb_strategy_t] range over the functions of
    the translation unit that have the matching type; a null pointer is
    [None]. *)
Inductive init_fn := strat_leastconn_init_fn.
Inductive select_fn := strat_leastconn_select_fn | strat_rr_select_fn.
Inductive teardown_fn := strat_leastconn_teardown_fn.

Record lb_strategy_t := mk_strategy {
  s_name : string;
  s_init : option init_fn;
  s_select : option select_fn;
  s_teardown : option teardown_fn
}.

Record lb_thread_pool_t := mk_tpool {
  tp_threads : option Z;        (* calloc'ed array of that many pthread_t *)
  tp_nthreads : Z;
  tp_running : bool
}.

Record lb_cfg_t := mk_cfg {
  connect_timeout_ms : Z;
  read_timeout_ms : Z;
  write_timeout_ms : Z;
  keepalive_timeout_ms : Z;
  health_check_interval_ms : Z;
  max_connections : Z;
  tcp_nodelay : bool;
  so_reuseport : bool;
  defer_accept : bool
}.

Record lb_core_t := mk_core {
  lb_port : Z;
  lb_running : bool;
  epfd : Z;
  backend_count : Z;
  backends : list (option ptr);  (* backend_t* backends[MAX_BACKENDS] *)
  rr_idx : Z;
  algorithm : option lb_algorithm_t; (* None: the zero bytes of calloc *)
  cfg : lb_cfg_t;
  mem : bool;                    (* true: the pool is mapped *)
  mem_size : Z;
  backends_lock : bool;          (* true once pthread_spin_init ran *)
  strategy : lb_strategy_t;
  tpool : lb_thread_pool_t
}.

Definition set_rr_idx (c : Z) (lb : lb_core_t) : lb_core_t :=
  mk_core (lb_port lb) (lb_running lb) (epfd lb) (backend_count lb)
          (backends lb) c (algorithm lb) (cfg lb) (mem lb) (mem_size lb)
          (backends_lock lb) (strategy lb) (tpool lb).

Definition set_registry (n : Z) (bs : list (option ptr)) (lb : lb_core_t) : lb_core_t :=
  mk_core (lb_port lb) (lb_running lb) (epfd lb) n bs (rr_idx lb)
          (algorithm lb) (cfg lb) (mem lb) (mem_size lb)
          (backends_lock lb) (strategy lb) (tpool lb).

(** [lb->backends[i]]; outside the array the model reads a null pointer. *)
Definition slot (lb : lb_core_t) (i : nat) : option ptr :=
  default None (backends lb !! i).

(** [atomic_load(&b->state) == BACKEND_UP]; an address outside the heap is
    never UP. *)
Definition backend_is_up (h : heap) (b : ptr) : bool :=
  match h !! b with
  | Some bk => bool_decide (b_state bk = BACKEND_UP)
  | None => false
  end.

(** ** Strategies *)

(** One iteration of the scan of [strat_leastconn_select]; the accumulator
    is the pair [(sel, minc)]. *)
Definition leastconn_step (h : heap) (lb : lb_core_t)
    (acc : option ptr * Z) (i : nat) : option ptr * Z :=
  match slot lb i with
  | None => acc
  | Some b =>
      match h !! b with
      | Some bk =>
          if bool_decide (b_state bk = BACKEND_UP) then
            let c := b_active_conns bk in
            if c <? snd acc then (Some b, c) else acc
          else acc
      | None => acc
      end
  end.

(** [strat_leastconn_select] (lines 227-240): the scan of
    [backends[0..count]] starts from [sel = NULL], [minc = UINT32_MAX]. *)
Definition leastconn_scan (h : heap) (lb : lb_core_t) (n : nat) : option ptr * Z :=
  foldl (leastconn_step h lb) (None, UINT32_MAX) (seq 0 n).

Definition strat_leastconn_select (h : heap) (lb : lb_core_t)
    (client : option sockaddr_in) : option ptr :=
  fst (leastconn_scan h lb (Z.to_nat (backend_count lb))).

Definition strat_leastconn_init (lb : lb_core_t) : lb_status_t := LB_OK.
Definition strat_leastconn_teardown (lb : lb_core_t) : lb_core_t := lb.

Definition STRAT_LEASTCONN : lb_strategy_t :=
  {| s_name := "leastconn";
     s_init := Some strat_leastconn_init_fn;
     s_select := Some strat_leastconn_select_fn;
     s_teardown := Some strat_leastconn_teardown_fn |}.

(** [atomic_fetch_add(&lb->rr_idx, 1)]: the old value, and the core with
    the cursor incremented modulo 2^32. *)
Definition fetch_add_rr_idx (lb : lb_core_t) : Z * lb_core_t :=
  (rr_idx lb, set_rr_idx (u32 (rr_idx lb + 1)) lb).

(** The loop of [strat_rr_select] (lines 256-260), with [tries] iterations
    left; [lb->backend_count] does not change during the call. *)
Fixpoint rr_loop (h : heap) (lb : lb_core_t) (tries : nat) : option ptr * lb_core_t :=
  match tries with
  | O => (None, lb)
  | S tries' =>
      let '(old, lb') := fetch_add_rr_idx lb in
      let idx := old mod backend_count lb in
      match slot lb (Z.to_nat idx) with
      | Some b => if backend_is_up h b then (Some b, lb') else rr_loop h lb' tries'
      | None => rr_loop h lb' tries'
      end
  end.

(** [strat_rr_select] (lines 253-262). *)
Definition strat_rr_select (h : heap) (lb : lb_core_t)
    (client : option sockaddr_in) : option ptr * lb_core_t :=
  if backend_count lb =? 0 then (None, lb)
  else rr_loop h lb (Z.to_nat (backend_count lb)).

Definition STRAT_RR : lb_strategy_t :=
  {| s_name := "roundrobin";
     s_init := Some strat_leastconn_init_fn;
     s_select := Some strat_rr_select_fn;
     s_teardown := Some strat_leastconn_teardown_fn |}.

(** [lb_strategy_from_algo] (lines 272-278). *)
Definition lb_strategy_from_algo (a : lb_algorithm_t) : lb_strategy_t :=
  match a with
  | LB_ALGO_LEASTCONN => STRAT_LEASTCONN
  | LB_ALGO_ROUNDROBIN => STRAT_RR
  | _ => STRAT_LEASTCONN
  end.

(** Calls through the function pointers of a strategy. *)
Definition call_init (f : init_fn) (lb : lb_core_t) : lb_status_t :=
  match f with
  | strat_leastconn_init_fn => strat_leastconn_init lb
  end.

Definition call_select (f : select_fn) (h : heap) (lb : lb_core_t)
    (client : option sockaddr_in) : option ptr * lb_core_t :=
  match f with
  | strat_leastconn_select_fn => (strat_leastconn_select h lb client, lb)
  | strat_rr_select_fn => strat_rr_select h lb client
  end.

Definition call_teardown (f : teardown_fn) (lb : lb_core_t) : lb_core_t :=
  match f with
  | strat_leastconn_teardown_fn => strat_leastconn_teardown lb
  end.

(** ** Traces: what a call logs and which resources it releases *)

Inductive log_msg :=
  | MsgMemPoolDisabled                    (* "Memory pool disabled: mmap failed" *)
  | MsgStrategyInitFailed (name : string) (* "Strategy init failed: %s" *)
  | MsgThreadPoolNotStarted (st : string) (* "Thread-pool not started: %s" *)
  | MsgCoreCreated (port : Z) (name : string)
  | MsgAddedBackend (host : list byte) (port weight : Z).

Inductive event :=
  | EvLog (lvl : lb_log_level_t) (cat : string) (msg : log_msg)
  | EvClose (fd : Z)
  | EvSpinDestroyRegistryLock
  | EvFreeCore.

(** ** Thread pool stub *)

(** [lb_thread_pool_start] (lines 144-153); [calloc_ok] tells whether its
    [calloc] succeeds. *)
Definition lb_thread_pool_start (calloc_ok : bool) (tp : option lb_thread_pool_t)
    (nthreads : Z) : lb_status_t * option lb_thread_pool_t :=
  match tp with
  | None => (LB_ERR_INVAL, None)
  | Some t =>
      if nthreads =? 0 then (LB_ERR_INVAL, Some t)
      else if negb calloc_ok then
        (LB_ERR_NOMEM, Some (mk_tpool None (tp_nthreads t) (tp_running t)))
      else (LB_OK, Some (mk_tpool (Some nthreads) nthreads true))
  end.

(** ** C strings *)

(** The [n] bytes that [strncpy(dst, src, n)] writes: the characters of
    [src] up to its terminator, then NUL padding.  [src] is the memory at
    the source pointer; its end stands for the terminator. *)
Fixpoint strncpy_bytes (src : list byte) (n : nat) {struct n} : list byte :=
  match n with
  | O => []
  | S n' =>
      match src with
      | [] => replicate n x00
      | c :: src' =>
          if Byte.eqb c x00 then replicate n x00
          else c :: strncpy_bytes src' n'
      end
  end.

Definition strncpy (dst src : list byte) (n : nat) : list byte :=
  strncpy_bytes src n ++ drop n dst.

(** The characters of a C string: the bytes before the first NUL. *)
Fixpoint c_str (m : list byte) : list byte :=
  match m with
  | [] => []
  | c :: m' => if Byte.eqb c x00 then [] else c :: c_str m'
  end.

(** ** The core: creation, registration, selection *)

(** What the operating system answers during [lb_core_create]. *)
Record create_env := mk_env {
  env_calloc_core : bool;       (* calloc(1, sizeof *lb) succeeds *)
  env_epoll_create1 : Z;        (* the descriptor, negative on failure *)
  env_mmap : bool;              (* false: MAP_FAILED *)
  env_sysconf_nproc : Z;        (* sysconf(_SC_NPROCESSORS_ONLN), a long *)
  env_calloc_threads : bool     (* the calloc of lb_thread_pool_start *)
}.

Definition default_cfg : lb_cfg_t :=
  {| connect_timeout_ms := 5000;
     read_timeout_ms := 30000;
     write_timeout_ms := 30000;
     keepalive_timeout_ms := 60000;
     health_check_interval_ms := 5000;
     max_connections := MAX_CONNECTIONS;
     tcp_nodelay := true;
     so_reuseport := true;
     defer_accept := true |}.

(** The object [calloc(1, sizeof *b)] returns: all fields zero.  The zero
    of [state] is overwritten before the backend is published. *)
Definition calloc_backend : backend_t :=
  {| b_host := replicate HOST_SIZE x00;
     b_port := 0;
     b_weight := 0;
     b_state := BACKEND_DOWN;
     b_active_conns := 0;
     b_sockfd := 0;
     b_lock := false |}.

(** The backend object as [lb_core_add_backend] leaves it before it is
    published in the registry (the statements between the [calloc] and the
    registry lock). *)
Definition new_backend (hs : list byte) (port weight : Z) : backend_t :=
  let b := calloc_backend in
  {| b_host := strncpy (b_host b) hs (length (b_host b) - 1);
     b_port := port;
     b_weight := if weight =? 0 then 1 else weight;
     b_state := BACKEND_DOWN;
     b_active_conns := b_active_conns b;
     b_sockfd := -1;
     b_lock := true |}.

Record add_result := mk_add {
  add_status : lb_status_t;
  add_heap : heap;
  add_core : option lb_core_t;
  add_log : list event
}.

Record create_result := mk_create {
  create_status : lb_status_t;
  create_out : option (option lb_core_t);  (* the cell [*out] after the call *)
  create_trace : list event
}.

Section Core.

(** The capacity of the registry; 256 unless the build defines it. *)
Variable MAX_BACKENDS : Z.

Definition zero_cfg : lb_cfg_t := mk_cfg 0 0 0 0 0 0 false false false.
Definition zero_strategy : lb_strategy_t := mk_strategy "" None None None.
Definition zero_tpool : lb_thread_pool_t := mk_tpool None 0 false.

(** The object [calloc(1, sizeof *lb)] returns. *)
Definition calloc_core : lb_core_t :=
  {| lb_port := 0; lb_running := false; epfd := 0; backend_count := 0;
     backends := replicate (Z.to_nat MAX_BACKENDS) None;
     rr_idx := 0; algorithm := None; cfg := zero_cfg;
     mem := false; mem_size := 0; backends_lock := false;
     strategy := zero_strategy; tpool := zero_tpool |}.

(** [lb_core_create] (lines 283-334).  [out] is [None] for a null pointer
    and otherwise the content of the cell it points to; the trace lists the
    log calls and the releases in the order of the source. *)
Definition lb_core_create (e : create_env) (port : Z) (algo : lb_algorithm_t)
    (out : option (option lb_core_t)) : create_result :=
  match out with
  | None => mk_create LB_ERR_INVAL None []
  | Some _ =>
      if negb (env_calloc_core e) then mk_create LB_ERR_NOMEM (Some None) []
      else if env_epoll_create1 e <? 0 then
        mk_create LB_ERR_SYS (Some None) [EvFreeCore]
      else
        let t_mmap :=
          if env_mmap e then []
          else [EvLog LB_LOG_WARN "core" MsgMemPoolDisabled] in
        let strat := lb_strategy_from_algo algo in
        let lb :=
          {| lb_port := port; lb_running := false;
             epfd := env_epoll_create1 e;
             backend_count := 0;
             backends := replicate (Z.to_nat MAX_BACKENDS) None;
             rr_idx := 0;
             algorithm := Some algo;
             cfg := default_cfg;
             mem := env_mmap e;
             mem_size := if env_mmap e then 64 * 1024 * 1024 else 0;
             backends_lock := true;
             strategy := strat;
             tpool := zero_tpool |} in
        let s :=
          match s_init strat with
          | Some f => call_init f lb
          | None => LB_OK
          end in
        if negb (bool_decide (s = LB_OK)) then
          mk_create s (Some None)
            (t_mmap ++ [EvLog LB_LOG_ERROR "core" (MsgStrategyInitFailed (s_name strat));
                        EvClose (epfd lb); EvSpinDestroyRegistryLock; EvFreeCore])
        else
          let cpu := env_sysconf_nproc e in
          let nthreads := u32 (if 0 <? cpu then cpu else 1) in
          let '(s_tp, tp) :=
            lb_thread_pool_start (env_calloc_threads e) (Some (tpool lb)) nthreads in
          let t_tp :=
            if negb (bool_decide (s_tp = LB_OK)) then
              [EvLog LB_LOG_WARN "core" (MsgThreadPoolNotStarted (lb_status_str s_tp))]
            else [] in
          let lb' :=
            mk_core (lb_port lb) (lb_running lb) (epfd lb) (backend_count lb)
                    (backends lb) (rr_idx lb) (algorithm lb) (cfg lb) (mem lb)
                    (mem_size lb) (backends_lock lb) (strategy lb)
                    (default (tpool lb) tp) in
          mk_create LB_OK (Some (Some lb'))
            (t_mmap ++ t_tp ++
             [EvLog LB_LOG_INFO "core" (MsgCoreCreated port (s_name (strategy lb')))])
  end.

(** [lb_core_add_backend] (lines 352-370).  [lb] and [host] are [None] for
    null pointers; [host] is otherwise the memory at the pointer;
    [calloc_ok] tells whether the [calloc] of the backend succeeds. *)
Definition lb_core_add_backend (calloc_ok : bool) (h : heap)
    (lb : option lb_core_t) (host : option (list byte)) (port weight : Z)
    : add_result :=
  match lb, host with
  | Some c, Some hs =>
      if port =? 0 then mk_add LB_ERR_INVAL h lb []
      else if MAX_BACKENDS <=? backend_count c then mk_add LB_ERR_LIMIT h lb []
      else if negb calloc_ok then mk_add LB_ERR_NOMEM h lb []
      else
        let p : ptr := length h in
        let b := new_backend hs port weight in
        let c' :=
          set_registry (u32 (backend_count c + 1))
                       (<[Z.to_nat (backend_count c) := Some p]> (backends c)) c in
        mk_add LB_OK (h ++ [b]) (Some c')
               [EvLog LB_LOG_INFO "backend"
                      (MsgAddedBackend (c_str (b_host b)) (b_port b) (b_weight b))]
  | _, _ => mk_add LB_ERR_INVAL h lb []
  end.

(** The call [lb->strategy.select(lb, client)]; a null [select] pointer
    yields no candidate in the model. *)
Definition strategy_select (h : heap) (lb : lb_core_t)
    (client : option sockaddr_in) : option ptr * lb_core_t :=
  match s_select (strategy lb) with
  | Some f => call_select f h lb client
  | None => (None, lb)
  end.

(** Modelled from the spec: the body of [lb_core_select_backend] breaks off
    in the source after [return lb->strategy.select]; the specification
    takes it to delegate to [strategy.select].  A core whose [select]
    pointer is null yields no candidate here. *)
Definition lb_core_select_backend (h : heap) (lb : option lb_core_t)
    (client : option sockaddr_in) : option ptr * option lb_core_t :=
  match lb with
  | None => (None, None)
  | Some c =>
      if backend_count c =? 0 then (None, lb)
      else let '(r, c') := strategy_select h c client in (r, Some c')
  end.

End Core.

(** ** Stores of the collaborators, and runs of calls *)

(** [atomic_store(&b->state, s)] on the backend at address [p]. *)
Definition store_state (p : ptr) (s : backend_state) (h : heap) : heap :=
  alter (fun b => mk_backend (b_host b) (b_port b) (b_weight b) s
                             (b_active_conns b) (b_sockfd b) (b_lock b)) p h.

(** [atomic_store(&b->active_conns, n)] on the backend at address [p]. *)
Definition store_active_conns (p : ptr) (n : Z) (h : heap) : heap :=
  alter (fun b => mk_backend (b_host b) (b_port b) (b_weight b) (b_state b)
                             n (b_sockfd b) (b_lock b)) p h.

(** The arguments of one call of [lb_core_add_backend], with the answer of
    its [calloc]. *)
Record add_call := mk_call {
  ac_calloc_ok : bool;
  ac_host : option (list byte);
  ac_port : Z;
  ac_weight : Z
}.

Definition run_add (MAX_BACKENDS : Z) (h : heap) (lb : option lb_core_t)
    (a : add_call) : add_result :=
  lb_core_add_backend MAX_BACKENDS (ac_calloc_ok a) h lb
                      (ac_host a) (ac_port a) (ac_weight a).

(** A sequence of calls on one core: the status of each call, and the heap
    and the core after the last one. *)
Fixpoint add_many (MAX_BACKENDS : Z) (h : heap) (lb : option lb_core_t)
    (calls : list add_call) : list lb_status_t * heap * option lb_core_t :=
  match calls with
  | [] => ([], h, lb)
  | a :: calls' =>
      let r := run_add MAX_BACKENDS h lb a in
      let '(sts, h', lb') := add_many MAX_BACKENDS (add_heap r) (add_core r) calls' in
      (add_status r :: sts, h', lb')
  end.

(** The calls of a run that returned OK, in call order. *)
Fixpoint ok_calls (calls : list add_call) (sts : list lb_status_t) : list add_call :=
  match calls, sts with
  | a :: calls', s :: sts' =>
      if bool_decide (s = LB_OK) then a :: ok_calls calls' sts'
      else ok_calls calls' sts'
  | _, _ => []
  end.

(** The backend a successful call creates. *)
Definition backend_of_call (a : add_call) : backend_t :=
  new_backend (default [] (ac_host a)) (ac_port a) (ac_weight a).

(** The objects behind [backends[0..count]]; a null or dangling slot reads
    [None]. *)
Definition registry_contents (h : heap) (lb : lb_core_t) : list (option backend_t) :=
  (fun i => p ← slot lb i; h !! p) <$> seq 0 (Z.to_nat (backend_count lb)).

(** The addresses in [backends[0..count]]. *)
Definition registry_slots (lb : lb_core_t) : list (option ptr) :=
  slot lb <$> seq 0 (Z.to_nat (backend_count lb)).

(** [n] successive selections of the round-robin strategy on a heap that
    does not change in between. *)
Fixpoint rr_select_many (h : heap) (lb : lb_core_t) (n : nat)
    : list (option ptr) * lb_core_t :=
  match n with
  | O => ([], lb)
  | S n' =>
      let '(r, lb1) := strat_rr_select h lb None in
      let '(rs, lb2) := rr_select_many h lb1 n' in
      (r :: rs, lb2)
  end.

(** The outcome of the attempt number [j] (from 0) of a round-robin
    selection that starts on [lb]: the backend at the probed slot when it
    exists and is UP. *)
Definition rr_probe (h : heap) (lb : lb_core_t) (j : nat) : option ptr :=
  match slot lb (Z.to_nat (u32 (rr_idx lb + Z.of_nat j) mod backend_count lb)) with
  | Some b => if backend_is_up h b then Some b else None
  | None => None
  end.

(** Every slot of [backends[0..count]] holds a backend that is UP, and no
    two slots hold the same backend. *)
Definition all_up (h : heap) (lb : lb_core_t) : Prop :=
  (forall i : nat, (i < Z.to_nat (backend_count lb))%nat ->
     exists p, slot lb i = Some p /\ backend_is_up h p = true) /\
  NoDup (registry_slots lb).

(** Slot [i] of the registry holds the UP backend [p], which has [c]
    active connections. *)
Definition up_at (h : heap) (lb : lb_core_t) (i : nat) (p : ptr) (c : Z) : Prop :=
  slot lb i = Some p /\
  exists bk, h !! p = Some bk /\ b_state bk = BACKEND_UP /\ b_active_conns bk = c.

(** How often a run of selections returned the backend [p]. *)
Definition times_returned (p : ptr) (rs : list (option ptr)) : nat :=
  length (filter (fun r => r = Some p) rs).

(** Over [k * count] selections every backend of the registry is returned
    exactly [k] times. *)
Definition rr_counts (h : heap) (lb : lb_core_t) (k : Z) : Prop :=
  let rs := fst (rr_select_many h lb (Z.to_nat (k * backend_count lb))) in
  forall (i : nat) (p : ptr),
    (i < Z.to_nat (backend_count lb))%nat -> slot lb i = Some p ->
    Z.of_nat (times_returned p rs) = k.

(** The selection number [j] (from 0) of a run of [n] returns the backend
    at index [j mod count]. *)
Definition rr_order (h : heap) (lb : lb_core_t) (n : Z) : Prop :=
  let rs := fst (rr_select_many h lb (Z.to_nat n)) in
  forall j : Z, 0 <= j < n ->
    rs !! Z.to_nat j = Some (slot lb (Z.to_nat (j mod backend_count lb))).

(** ** Concrete scenarios *)

Definition env_ok : create_env := mk_env true 3 true 4 true.

(** The memory of a string literal: its characters and the terminator. *)
Definition c_lit (s : string) : list byte := String.list_byte_of_string s ++ [x00].

Definition three_calls : list add_call :=
  [mk_call true (Some (c_lit "10.0.0.1")) 80 1;
   mk_call true (Some (c_lit "10.0.0.2")) 80 1;
   mk_call true (Some (c_lit "10.0.0.3")) 80 1].

(** Create a core, add the three backends of the end-to-end scenarios. *)
Definition scenario (algo : lb_algorithm_t) : heap * option lb_core_t :=
  match create_out (lb_core_create 256 env_ok 8080 algo (Some None)) with
  | Some lb => let '(_, h, lb') := add_many 256 [] lb three_calls in (h, lb')
  | None => ([], None)
  end.

Definition mark_all_up (h : heap) : heap :=
  foldr (fun p h' => store_state p BACKEND_UP h') h (seq 0 (length h)).

Definition rr3_heap : heap := mark_all_up (fst (scenario LB_ALGO_ROUNDROBIN)).
Definition rr3_core : lb_core_t :=
  default (calloc_core 256) (snd (scenario LB_ALGO_ROUNDROBIN)).

(** Scenario 6: a core created with a tag outside the two known ones, the
    three backends UP with 5, 2 and 7 active connections. *)
Definition other_core : lb_core_t :=
  default (calloc_core 256) (snd (scenario (LB_ALGO_OTHER 7))).
Definition other_heap : heap :=
  store_active_conns 0%nat 5 (store_active_conns 1%nat 2 (store_active_conns 2%nat 7
    (mark_all_up (fst (scenario (LB_ALGO_OTHER 7)))))).

(** A core as [lb_core_create] returns it, with the default capacity. *)
Definition fresh_core : option lb_core_t :=
  default None (create_out (lb_core_create 256 env_ok 8080 LB_ALGO_ROUNDROBIN (Some None))).

(** The memory of a host name of 300 characters. *)
Definition long_host : list byte := replicate 300 "a"%byte ++ [x00].

(** A registry filled to the default capacity. *)
Definition full_registry : list lb_status_t * heap * option lb_core_t :=
  add_many 256 [] fresh_core
           (replicate 256 (mk_call true (Some (c_lit "10.0.0.1")) 80 1)).

(** How many calls of a run returned OK. *)
Definition count_ok (sts : list lb_status_t) : nat :=
  length (filter (fun s => s = LB_OK) sts).

(** The registry invariant: the count is within the capacity, and the
    array has [MAX_BACKENDS] slots. *)
Definition registry_wf (MAX_BACKENDS : Z) (c : lb_core_t) : Prop :=
  0 <= backend_count c <= MAX_BACKENDS /\
  length (backends c) = Z.to_nat MAX_BACKENDS.

(** A least-connections core with a single backend, which is UP and whose
    connection counter holds the largest 32-bit value. *)
Definition lc1_added : add_result :=
  match create_out (lb_core_create 256 env_ok 8080 LB_ALGO_LEASTCONN (Some None)) with
  | Some lb => lb_core_add_backend 256 true [] lb (Some (c_lit "10.0.0.1")) 80 1
  | None => mk_add LB_ERR_INVAL [] None []
  end.

Definition lc1_core : lb_core_t := default (calloc_core 256) (add_core lc1_added).

Definition lc1_heap : heap :=
  store_active_conns 0%nat UINT32_MAX (store_state 0%nat BACKEND_UP (add_heap lc1_added)).

(** The invariant of the scan of [strat_leastconn_select] after the slots
    [0 .. n-1]: the accumulator [(sel, minc)] holds the first UP backend
    with the least counter below the initial [UINT32_MAX], if there is one. *)
Definition scan_inv (h : heap) (lb : lb_core_t) (n : nat) (acc : option ptr * Z) : Prop :=
  match fst acc with
  | None =>
      snd acc = UINT32_MAX /\
      forall (i : nat) p c, (i < n)%nat -> up_at h lb i p c -> UINT32_MAX <= c
  | Some p =>
      exists i : nat, (i < n)%nat /\ up_at h lb i p (snd acc) /\
        snd acc < UINT32_MAX /\
        (forall (j : nat) q c, (j < n)%nat -> up_at h lb j q c -> snd acc <= c) /\
        (forall (j : nat) q c, (j < i)%nat -> up_at h lb j q c -> snd acc < c)
  end.

(** ** The rest of the core: pool stop, destruction, sockets, logging *)

(** [lb_thread_pool_stop] (lines 155-160): [None] is a null pool. *)
Definition lb_thread_pool_stop (tp : option lb_thread_pool_t) : option lb_thread_pool_t :=
  match tp with
  | None => None
  | Some t => Some (mk_tpool None 0 false)
  end.

(** What [lb_core_destroy] releases, in the order of the calls. *)
Inductive release :=
  | RelThreads (threads : option Z)   (* free(tp->threads) *)
  | RelTeardown (f : teardown_fn)
  | RelMunmap (size : Z)
  | RelClose (fd : Z)
  | RelRegistryLock
  | RelBackendLock (p : ptr)
  | RelBackend (p : ptr)
  | RelCore.

(** The loop of [lb_core_destroy] (lines 343-348). *)
Definition destroy_backends (lb : lb_core_t) : list release :=
  concat ((fun i => match slot lb i with
                    | Some p => [RelBackendLock p; RelBackend p]
                    | None => []
                    end) <$> seq 0 (Z.to_nat (backend_count lb))).

(** [lb_core_destroy] (lines 336-350). *)
Definition lb_core_destroy (lb : option lb_core_t) : list release :=
  match lb with
  | None => []
  | Some c =>
      let t_pool := [RelThreads (tp_threads (tpool c))] in
      let c1 :=
        mk_core (lb_port c) (lb_running c) (epfd c) (backend_count c) (backends c)
                (rr_idx c) (algorithm c) (cfg c) (mem c) (mem_size c)
                (backends_lock c) (strategy c)
                (default (tpool c) (lb_thread_pool_stop (Some (tpool c)))) in
      let '(c2, t_teardown) :=
        match s_teardown (strategy c1) with
        | Some f => (call_teardown f c1, [RelTeardown f])
        | None => (c1, [])
        end in
      t_pool ++ t_teardown
      ++ (if mem c2 then [RelMunmap (mem_size c2)] else [])
      ++ (if 0 <=? epfd c2 then [RelClose (epfd c2)] else [])
      ++ [RelRegistryLock] ++ destroy_backends c2 ++ [RelCore]
  end.

(** The backends a trace of releases frees, in order. *)
Definition freed_backends (tr : list release) : list ptr :=
  omap (fun r => match r with RelBackend p => Some p | _ => None end) tr.

(** The socket options the endpoint sets. *)
Inductive sockopt := SO_REUSEADDR | SO_REUSEPORT | TCP_NODELAY.

Inductive syscall :=
  | SysSocket
  | SysSetsockopt (fd : Z) (o : sockopt)
  | SysBind (fd port : Z)
  | SysListen (fd : Z)
  | SysClose (fd : Z).

(** The platform and the answers of its system calls. *)
Record net_env := mk_net {
  def_SO_REUSEPORT : bool;      (* #ifdef SO_REUSEPORT *)
  def_TCP_NODELAY : bool;       (* #ifdef TCP_NODELAY *)
  rv_socket : Z;
  rv_setsockopt : sockopt -> Z;
  rv_bind : Z;
  rv_listen : Z
}.

(** [lb_set_nb_tcp_opts] (lines 202-212): the value returned and the calls
    made; [rv |= ...] is the bitwise or of the C integers. *)
Definition lb_set_nb_tcp_opts (e : net_env) (fd : Z) (reuseport nodelay : bool)
    : Z * list syscall :=
  let rv := Z.lor 0 (rv_setsockopt e SO_REUSEADDR) in
  let t := [SysSetsockopt fd SO_REUSEADDR] in
  let '(rv, t) :=
    if def_SO_REUSEPORT e && reuseport
    then (Z.lor rv (rv_setsockopt e SO_REUSEPORT), t ++ [SysSetsockopt fd SO_REUSEPORT])
    else (rv, t) in
  let '(rv, t) :=
    if def_TCP_NODELAY e && nodelay
    then (Z.lor rv (rv_setsockopt e TCP_NODELAY), t ++ [SysSetsockopt fd TCP_NODELAY])
    else (rv, t) in
  (rv, t).

(** [lb_bind_listen] (lines 214-222). *)
Definition lb_bind_listen (e : net_env) (port : Z) (reuseport nodelay : bool)
    : Z * list syscall :=
  let fd := rv_socket e in
  if fd <? 0 then (-1, [SysSocket])
  else
    let '(rv, t_opts) := lb_set_nb_tcp_opts e fd reuseport nodelay in
    if negb (rv =? 0) then (-1, [SysSocket] ++ t_opts ++ [SysClose fd])
    else if negb (rv_bind e =? 0) then
      (-1, [SysSocket] ++ t_opts ++ [SysBind fd port; SysClose fd])
    else if negb (rv_listen e =? 0) then
      (-1, [SysSocket] ++ t_opts ++ [SysBind fd port; SysListen fd; SysClose fd])
    else (fd, [SysSocket] ++ t_opts ++ [SysBind fd port; SysListen fd]).

(** The [setsockopt] calls of a trace. *)
Definition options_set (t : list syscall) : list sockopt :=
  omap (fun c => match c with SysSetsockopt _ o => Some o | _ => None end) t.

(** The descriptors a trace closes. *)
Definition closed_fds (t : list syscall) : list Z :=
  omap (fun c => match c with SysClose fd => Some fd | _ => None end) t.

(** The numeric values of [lb_log_level_t]. *)
Definition lb_log_level_code (lvl : lb_log_level_t) : Z :=
  match lvl with
  | LB_LOG_DEBUG => 0
  | LB_LOG_INFO => 1
  | LB_LOG_WARN => 2
  | LB_LOG_ERROR => 3
  end.

Definition LB_LOG_DEFAULT_LEVEL : lb_log_level_t := LB_LOG_INFO.

Record timespec := mk_timespec { tv_sec : Z; tv_nsec : Z }.

(** The line [lb_logv] prints: the second of the timestamp (which
    [strftime] renders), the milliseconds, the level tag, the place, the
    formatted message and the errno suffix. *)
Record log_line := mk_line {
  ll_sec : Z;
  ll_msec : Z;
  ll_level : string;
  ll_cat : string;
  ll_file : string;
  ll_line : Z;
  ll_fn : string;
  ll_msg : string;
  ll_errno : option Z
}.

(** [lb_logv] (lines 62-75): [g_log_level] is the value of the global
    [atomic_int], [now] what [clock_gettime] reads, [msg] the text
    [vfprintf] renders; [None] when nothing is printed.
    The test [lvl < atomic_load(&g_log_level)] compares a value of the
    enumeration, whose type is unsigned since it has no negative enumerator
    (the choice of gcc and clang), with an [int]: the global level is
    converted to [unsigned], so a negative level is a very large one.
    [errno0] is [errno] at the entry of the call; [lib_errno] is [Some n]
    when the library calls that come before the test of [errno]
    ([clock_gettime], [localtime_r], [strftime], [fprintf], [vfprintf]) left
    [n] in it, and [None] when none of them set it. *)
Definition lb_logv (g_log_level : Z) (now : timespec) (errno0 : Z)
    (lib_errno : option Z)
    (lvl : lb_log_level_t) (cat file : string) (line : Z) (fn msg : string)
    : option log_line :=
  if lb_log_level_code lvl <? u32 g_log_level then None
  else
    let errno := default errno0 lib_errno in
    Some {| ll_sec := tv_sec now;
            ll_msec := Z.quot (tv_nsec now) 1000000;
            ll_level := lb_log_level_str lvl;
            ll_cat := cat; ll_file := file; ll_line := line; ll_fn := fn;
            ll_msg := msg;
            ll_errno := if errno =? 0 then None else Some errno |}.

(** ** The entry point (src/main_advanced.c)

    The collaborators of the entry point (config.h, logging.h,
    thread_pool.h, plugin_manager.h) and the system calls are not part of
    the sources; a run of the entry point is the sequence of the calls it
    makes to them, and what they answer is an argument of the model. *)

Inductive mlevel := MDebug | MInfo | MWarn | MError.

(** An argument of a log call: an integer, a string of the program, or a
    value obtained from a collaborator ([strerror(errno)], [getpid()], ...). *)
Inductive marg := AInt (z : Z) | AStr (s : string) | AExt (what : string).

(** Modelled from the spec: the fields of [config_t] (declared in config.h,
    which is absent) that the entry point reads. *)
Record config_t := mk_config {
  log_level : Z;
  log_destination : Z;
  log_file_path : string;
  log_max_file_size : Z;
  log_rotation_count : Z;
  plugin_count : Z;
  plugins : list string;        (* plugins[i].path *)
  default_algorithm : Z;
  min_worker_threads : Z;
  max_worker_threads : Z;
  work_queue_size : Z;
  thread_timeout_seconds : Z;
  listen_port : Z;
  cfg_backend_count : Z
}.

(** The zero-initialised [static config_t g_config]. *)
Definition config_zero : config_t :=
  mk_config 0 0 "" 0 0 0 [] 0 0 0 0 0 0 0.

Inductive mcall :=
  | CLog (lvl : mlevel) (fmt : string) (args : list marg)
  | CStderr (msg : string)
  | CLoggingInit (level destination : Z) (file_path : string) (max_file_size rotation_count : Z)
  | CLoggingCleanup
  | CConfigInit
  | CConfigLoad (file : string)
  | CConfigValidate
  | CConfigCleanup
  | CSigmask
  | CSignalfd
  | CThreadPoolCreate (min_threads max_threads queue_size thread_timeout : Z)
  | CThreadPoolShutdown (timeout : Z)
  | CThreadPoolDestroy
  | CPluginManagerCreate
  | CPluginLoad (path : string)
  | CPluginManagerDestroy
  | CSetDefaultAlgorithm (algo : Z)
  | CSelect (max_fd : Z)
  | CRead (fd : Z)
  | CClose (fd : Z)
  | CTime.

(** One iteration of the event loop as the system answers it. *)
Record iter_in := mk_iter {
  it_select : Z;                (* the value of select() *)
  it_errno : Z;
  it_isset : bool;              (* FD_ISSET(signal_fd, &read_fds) *)
  it_read : Z;                  (* the value of read() *)
  it_signo : Z;                 (* si.ssi_signo *)
  it_time : Z                   (* time(NULL) *)
}.

(** What the collaborators answer during a run. *)
Record main_env := mk_main_env {
  rv_logging_init : Z;
  rv_config_load : Z;
  rv_config_validate : Z;
  cfg_loaded : config_t;        (* g_config after config_load_from_file *)
  rv_pthread_sigmask : Z;
  rv_signalfd : Z;
  rv_thread_pool_create : bool; (* true: a pool, false: NULL *)
  rv_plugin_manager_create : bool;
  rv_plugin_load : nat -> Z;    (* plugin_manager_load for plugins[i] *)
  rv_set_default_algorithm : Z;
  loop_inputs : list iter_in
}.

(** Constants of the Linux headers. *)
Definition SIGHUP : Z := 1.
Definition SIGINT : Z := 2.
Definition SIGPIPE : Z := 13.
Definition SIGTERM : Z := 15.
Definition EINTR : Z := 4.
Definition SIGINFO_SIZE : Z := 128.   (* sizeof(struct signalfd_siginfo) *)
Definition EXIT_SUCCESS : Z := 0.
Definition EXIT_FAILURE : Z := 1.

(** [setup_signal_handling] (lines 46-71). *)
Definition setup_signal_handling (e : main_env) : Z * list mcall :=
  if rv_pthread_sigmask e =? -1 then
    (-1, [CSigmask; CLog MError "Failed to block signals: %s" [AExt "strerror(errno)"]])
  else if rv_signalfd e =? -1 then
    (-1, [CSigmask; CSignalfd;
          CLog MError "Failed to create signalfd: %s" [AExt "strerror(errno)"]])
  else
    (rv_signalfd e,
     [CSigmask; CSignalfd; CLog MInfo "Signal handling initialized with signalfd" []]).

(** [handle_signal] (lines 73-91): the new value of [g_running] and the
    line logged. *)
Definition handle_signal (signum : Z) (g_running : Z) : Z * list mcall :=
  if (signum =? SIGINT) || (signum =? SIGTERM) then
    (0, [CLog MInfo "Received shutdown signal %d, initiating graceful shutdown" [AInt signum]])
  else if signum =? SIGHUP then
    (g_running, [CLog MInfo "Received SIGHUP, reloading configuration" []])
  else if signum =? SIGPIPE then
    (g_running, [CLog MDebug "Received SIGPIPE, ignoring" []])
  else
    (g_running, [CLog MWarn "Received unexpected signal %d" [AInt signum]]).

(** The loop of [load_backend_plugins] (lines 108-118) from index [i], with
    [n] iterations left: [None] when every load succeeded. *)
Fixpoint load_plugins_loop (e : main_env) (cfg : config_t) (i n : nat)
    : option Z * list mcall :=
  match n with
  | O => (None, [])
  | S n' =>
      let path := default "" (plugins cfg !! i) in
      if negb (rv_plugin_load e i =? 0) then
        (Some (-1), [CPluginLoad path;
                     CLog MError "Failed to load plugin: %s" [AStr path];
                     CPluginManagerDestroy])
      else
        let '(r, t) := load_plugins_loop e cfg (S i) n' in
        (r, [CPluginLoad path; CLog MInfo "Successfully loaded plugin: %s" [AStr path]] ++ t)
  end.

(** [load_backend_plugins] (lines 100-129). *)
Definition load_backend_plugins (e : main_env) (cfg : config_t) : Z * list mcall :=
  if negb (rv_plugin_manager_create e) then
    (-1, [CPluginManagerCreate; CLog MError "Failed to create plugin manager" []])
  else
    match load_plugins_loop e cfg 0 (Z.to_nat (plugin_count cfg)) with
    | (Some r, t) => (r, [CPluginManagerCreate] ++ t)
    | (None, t) =>
        if negb (rv_set_default_algorithm e =? 0) then
          (-1, [CPluginManagerCreate] ++ t
               ++ [CSetDefaultAlgorithm (default_algorithm cfg);
                   CLog MError "Failed to set default backend selection algorithm" [];
                   CPluginManagerDestroy])
        else
          (0, [CPluginManagerCreate] ++ t
              ++ [CSetDefaultAlgorithm (default_algorithm cfg);
                  CLog MInfo "Backend plugin system initialized with %d plugins"
                       [AInt (plugin_count cfg)]])
    end.

(** The paths a trace tried to load, and how often it destroyed the plugin
    manager. *)
Definition plugins_loaded (t : list mcall) : list string :=
  omap (fun c => match c with CPluginLoad p => Some p | _ => None end) t.

Definition manager_destroys (t : list mcall) : nat :=
  length (omap (fun c => match c with CPluginManagerDestroy => Some c | _ => None end) t).

(** [initialize_logging] (lines 139-159). *)
Definition initialize_logging (e : main_env) (cfg : config_t) : Z * list mcall :=
  let init := CLoggingInit (log_level cfg) (log_destination cfg) (log_file_path cfg)
                           (log_max_file_size cfg) (log_rotation_count cfg) in
  if negb (rv_logging_init e =? 0) then
    (-1, [init; CStderr "Failed to initialize logging system"])
  else
    (0, [init;
         CLog MInfo "UltraBalancer Advanced starting up - PID: %d" [AExt "getpid()"];
         CLog MInfo "Logging initialized - Level: %s, Destination: %s"
              [AExt "log_level_to_string"; AExt "log_destination_to_string"]]).

(** [log_performance_metrics] (lines 161-172): [last] is the static
    [last_metric_time], [now] what [time(NULL)] returns. *)
Definition log_performance_metrics (now last : Z) : Z * list mcall :=
  if 60 <=? now - last then
    (now, [CTime;
           CLog MInfo "Performance Metrics - Active Connections: %d, Requests/sec: %.2f"
                [AInt 0; AInt 0]])
  else (last, [CTime]).

(** [initialize_thread_pool] (lines 182-200): the value returned, whether
    [g_thread_pool] is set, and the calls. *)
Definition initialize_thread_pool (e : main_env) (cfg : config_t) : Z * bool * list mcall :=
  let create := CThreadPoolCreate (min_worker_threads cfg) (max_worker_threads cfg)
                                  (work_queue_size cfg) (thread_timeout_seconds cfg) in
  if negb (rv_thread_pool_create e) then
    (-1, false, [create; CLog MError "Failed to create thread pool" []])
  else
    (0, true, [create;
               CLog MInfo "Thread pool initialized - Min: %d, Max: %d threads"
                    [AInt (min_worker_threads cfg); AInt (max_worker_threads cfg)]]).

(** [cleanup_thread_pool] (lines 202-210). *)
Definition cleanup_thread_pool (g_thread_pool : bool) : bool * list mcall :=
  if g_thread_pool then
    (false, [CLog MInfo "Shutting down thread pool..." [];
             CThreadPoolShutdown 30; CThreadPoolDestroy;
             CLog MInfo "Thread pool shutdown complete" []])
  else (false, []).

(** [load_configuration] (lines 220-239): the value returned, [g_config]
    afterwards, and the calls. *)
Definition load_configuration (e : main_env) (config_file : string)
    : Z * config_t * list mcall :=
  let cfg := cfg_loaded e in
  if negb (rv_config_load e =? 0) then
    (-1, cfg, [CConfigInit; CConfigLoad config_file;
               CLog MError "Failed to load configuration from %s" [AStr config_file]])
  else if negb (rv_config_validate e =? 0) then
    (-1, cfg, [CConfigInit; CConfigLoad config_file; CConfigValidate;
               CLog MError "Configuration validation failed" []])
  else
    (0, cfg, [CConfigInit; CConfigLoad config_file; CConfigValidate;
              CLog MInfo "Configuration loaded successfully from %s" [AStr config_file];
              CLog MDebug "Config - Listen Port: %d, Backend Count: %d"
                   [AInt (listen_port cfg); AInt (cfg_backend_count cfg)]]).

(** [cleanup_configuration] (lines 241-244). *)
Definition cleanup_configuration : list mcall :=
  [CConfigCleanup; CLog MDebug "Configuration resources cleaned up" []].

(** The [while] loop of [run_main_loop] (lines 261-292) on the answers
    [inputs] of the system: [None] when the loop is still running after the
    last of them; otherwise [g_running], [last_metric_time] and the calls at
    the exit of the loop. *)
Fixpoint main_loop (signal_fd : Z) (inputs : list iter_in) (g_running last : Z)
    : option (Z * Z * list mcall) :=
  if g_running =? 0 then Some (g_running, last, [])
  else
    match inputs with
    | [] => None
    | i :: rest =>
        if it_select i <? 0 then
          if it_errno i =? EINTR then
            '(g, l, t) ← main_loop signal_fd rest g_running last;
            Some (g, l, CSelect signal_fd :: t)
          else
            Some (g_running, last,
                  [CSelect signal_fd;
                   CLog MError "Select error: %s" [AExt "strerror(errno)"]])
        else
          let '(g1, t_sig) :=
            if it_isset i then
              if it_read i =? SIGINFO_SIZE then
                let '(g, t) := handle_signal (it_signo i) g_running in
                (g, CRead signal_fd :: t)
              else (g_running, [CRead signal_fd])
            else (g_running, []) in
          let '(l1, t_met) := log_performance_metrics (it_time i) last in
          '(g, l, t) ← main_loop signal_fd rest g1 l1;
          Some (g, l, [CSelect signal_fd] ++ t_sig ++ t_met ++ t)
    end.

(** [run_main_loop] (lines 254-296). *)
Definition run_main_loop (signal_fd : Z) (inputs : list iter_in) (g_running last : Z)
    : option (Z * Z * Z * list mcall) :=
  '(g, l, t) ← main_loop signal_fd inputs g_running last;
  Some (0, g, l,
        [CLog MInfo "Entering main event loop" []] ++ t
        ++ [CLog MInfo "Main event loop exiting" []]).

(** The part of [main] after the label [cleanup] (lines 358-372). *)
Definition main_cleanup (signal_fd : Z) (g_thread_pool : bool) : list mcall :=
  [CLog MInfo "Beginning cleanup sequence..." []]
  ++ (if 0 <=? signal_fd then [CClose signal_fd] else [])
  ++ snd (cleanup_thread_pool g_thread_pool)
  ++ cleanup_configuration
  ++ [CLog MInfo "UltraBalancer Advanced shutdown complete" []; CLoggingCleanup].

(** [main] (lines 306-373): the exit status and the calls, [None] when the
    event loop is still running after the last of [loop_inputs]. *)
Definition main (e : main_env) (argv : list string) : option (Z * list mcall) :=
  let config_file :=
    if 1 <? Z.of_nat (length argv) then default "" (argv !! 1%nat)
    else "ultrabalancer.conf" in
  let '(r_log, t_log) := initialize_logging e config_zero in
  if negb (r_log =? 0) then Some (EXIT_FAILURE, t_log ++ main_cleanup (-1) false)
  else
    let '(r_cfg, cfg, t_cfg) := load_configuration e config_file in
    if negb (r_cfg =? 0) then
      Some (EXIT_FAILURE, t_log ++ t_cfg ++ main_cleanup (-1) false)
    else
      let '(signal_fd, t_sig) := setup_signal_handling e in
      if signal_fd <? 0 then
        Some (EXIT_FAILURE, t_log ++ t_cfg ++ t_sig ++ main_cleanup signal_fd false)
      else
        let '(r_tp, pool, t_tp) := initialize_thread_pool e cfg in
        if negb (r_tp =? 0) then
          Some (EXIT_FAILURE,
                t_log ++ t_cfg ++ t_sig ++ t_tp ++ main_cleanup signal_fd pool)
        else
          let '(r_pl, t_pl) := load_backend_plugins e cfg in
          if negb (r_pl =? 0) then
            Some (EXIT_FAILURE,
                  t_log ++ t_cfg ++ t_sig ++ t_tp ++ t_pl ++ main_cleanup signal_fd pool)
          else
            '(r_loop, g, l, t_loop) ← run_main_loop signal_fd (loop_inputs e) 1 0;
            let exit_status := if negb (r_loop =? 0) then EXIT_FAILURE else EXIT_SUCCESS in
            Some (exit_status,
                  t_log ++ t_cfg ++ t_sig ++ t_tp ++ t_pl
                  ++ [CLog MInfo "UltraBalancer Advanced initialization complete" []]
                  ++ t_loop ++ main_cleanup signal_fd pool).

(** The times at which a run of [log_performance_metrics] over the clock
    readings [times] logged. *)
Fixpoint metrics_logged (times : list Z) (last : Z) : list Z :=
  match times with
  | [] => []
  | now :: rest =>
      let '(last', t) := log_performance_metrics now last in
      (match t with [_] => [] | _ => [now] end) ++ metrics_logged rest last'
  end.

(** Consecutive elements of a list are at least [d] apart. *)
Fixpoint spaced (d : Z) (prev : Z) (l : list Z) : Prop :=
  match l with
  | [] => True
  | x :: l' => d <= x - prev /\ spaced d x l'
  end.

(** The descriptors a run closes, and how often it destroys the thread
    pool, cleans the configuration up, shuts logging down and calls
    [select]. *)
Definition closed_by (t : list mcall) : list Z :=
  omap (fun c => match c with CClose fd => Some fd | _ => None end) t.

Definition pool_destroys (t : list mcall) : nat :=
  length (omap (fun c => match c with CThreadPoolDestroy => Some c | _ => None end) t).

Definition config_cleanups (t : list mcall) : nat :=
  length (omap (fun c => match c with CConfigCleanup => Some c | _ => None end) t).

Definition logging_cleanups (t : list mcall) : nat :=
  length (omap (fun c => match c with CLoggingCleanup => Some c | _ => None end) t).

Definition selects (t : list mcall) : nat :=
  length (omap (fun c => match c with CSelect _ => Some c | _ => None end) t).

(** The steps of the initialisation of [main] all succeed. *)
Definition init_ok (e : main_env) : Prop :=
  rv_logging_init e = 0 /\ rv_config_load e = 0 /\ rv_config_validate e = 0 /\
  rv_pthread_sigmask e <> -1 /\ 0 <= rv_signalfd e /\
  rv_thread_pool_create e = true /\
  fst (load_backend_plugins e (cfg_loaded e)) = 0.

(** The initialisation of [main] up to the signal descriptor succeeds. *)
Definition signal_ok (e : main_env) : Prop :=
  rv_logging_init e = 0 /\ rv_config_load e = 0 /\ rv_config_validate e = 0 /\
  rv_pthread_sigmask e <> -1 /\ 0 <= rv_signalfd e.

(** The calls of the initialisation steps, and those of the event loop. *)
Definition is_init_call (c : mcall) : bool :=
  match c with
  | CSelect _ | CRead _ | CTime | CClose _ | CThreadPoolShutdown _
  | CThreadPoolDestroy | CConfigCleanup | CLoggingCleanup => false
  | _ => true
  end.

Definition is_loop_call (c : mcall) : bool :=
  match c with
  | CSelect _ | CRead _ | CTime | CLog _ _ _ => true
  | _ => false
  end.

(** An answer of the system that delivers the signal [signo] in full. *)
Definition delivers (signo : Z) (i : iter_in) : Prop :=
  0 <= it_select i /\ it_isset i = true /\ it_read i = SIGINFO_SIZE /\ it_signo i = signo.

(** An answer of the system that neither ends the loop nor delivers a
    shutdown signal. *)
Definition keeps_running (i : iter_in) : Prop :=
  (it_select i < 0 /\ it_errno i = EINTR) \/
  (0 <= it_select i /\
   (it_isset i = true -> it_read i = SIGINFO_SIZE ->
    it_signo i <> SIGINT /\ it_signo i <> SIGTERM)).

(** A run of the entry point in which every step succeeds and the second
    answer of the system delivers SIGTERM. *)
Definition main_env_ok : main_env :=
  mk_main_env 0 0 0
    (mk_config 1 0 "" 0 0 2 ["a.so"; "b.so"] 0 2 8 64 30 8080 3)
    0 5 true true (fun _ => 0) 0
    [mk_iter 0 0 false 0 0 100; mk_iter 1 0 true 128 15 101].

(** * Properties *)

(** ** Machine arithmetic *)

Lemma u32_range z : is_u32 (u32 z).
Proof. unfold is_u32, u32, UINT32_MOD. apply Z.mod_pos_bound. lia. Qed.

Lemma u32_id z : is_u32 z -> u32 z = z.
Proof. unfold is_u32, u32. intros Hz. by apply Z.mod_small. Qed.

Lemma u32_add_l a b : u32 (u32 a + b) = u32 (a + b).
Proof. unfold u32. apply Zplus_mod_idemp_l. Qed.

(** Reduce the projections of a core that is given by its constructor. *)
Ltac core_simpl :=
  cbn [lb_port lb_running epfd backend_count backends rr_idx algorithm cfg
       mem mem_size backends_lock strategy tpool] in *.

Lemma set_rr_idx_id lb : set_rr_idx (rr_idx lb) lb = lb.
Proof. by destruct lb. Qed.

(** ** Round-robin: one selection *)

Section RoundRobin.

Variable h : heap.

Lemma rr_probe_Some lb j b :
  rr_probe h lb j = Some b <->
  slot lb (Z.to_nat (u32 (rr_idx lb + Z.of_nat j) mod backend_count lb)) = Some b
  /\ backend_is_up h b = true.
Proof.
  unfold rr_probe. destruct (slot lb _) as [b'|].
  - destruct (backend_is_up h b') eqn:Hup; split.
    + by intros [= ->].
    + by intros [[= ->] _].
    + done.
    + intros [[= ->] Hb]. congruence.
  - split; [done | by intros [? _]].
Qed.

Lemma rr_probe_shift lb j :
  rr_probe h (set_rr_idx (u32 (rr_idx lb + 1)) lb) j = rr_probe h lb (S j).
Proof.
  unfold rr_probe, slot, set_rr_idx. core_simpl.
  rewrite u32_add_l.
  by replace (rr_idx lb + 1 + Z.of_nat j) with (rr_idx lb + Z.of_nat (S j)) by lia.
Qed.

(** One iteration of the loop, read through [rr_probe]. *)
Lemma rr_loop_S lb t :
  is_u32 (rr_idx lb) ->
  rr_loop h lb (S t) =
    match rr_probe h lb 0 with
    | Some b => (Some b, set_rr_idx (u32 (rr_idx lb + 1)) lb)
    | None => rr_loop h (set_rr_idx (u32 (rr_idx lb + 1)) lb) t
    end.
Proof.
  intros Hc. simpl. unfold rr_probe.
  rewrite Z.add_0_r, (u32_id _ Hc).
  destruct (slot lb _) as [b|]; [|done].
  by destruct (backend_is_up h b).
Qed.

Lemma rr_loop_hit t : forall lb (j : nat) b,
  is_u32 (rr_idx lb) -> (j < t)%nat ->
  (forall i, (i < j)%nat -> rr_probe h lb i = None) ->
  rr_probe h lb j = Some b ->
  rr_loop h lb t = (Some b, set_rr_idx (u32 (rr_idx lb + Z.of_nat j + 1)) lb).
Proof.
  induction t as [|t IH]; intros lb j b Hc Hj Hmiss Hhit; [lia|].
  rewrite rr_loop_S by done.
  destruct j as [|j].
  - rewrite Hhit. by rewrite Z.add_0_r.
  - rewrite (Hmiss 0%nat) by lia.
    rewrite (IH _ j b).
    + unfold set_rr_idx; core_simpl.
      rewrite <- Z.add_assoc, u32_add_l.
      by replace (rr_idx lb + 1 + (Z.of_nat j + 1)) with (rr_idx lb + Z.of_nat (S j) + 1) by lia.
    + apply u32_range.
    + lia.
    + intros i Hi. rewrite rr_probe_shift. apply Hmiss. lia.
    + by rewrite rr_probe_shift.
Qed.

Lemma rr_loop_miss t : forall lb,
  is_u32 (rr_idx lb) ->
  (forall j, (j < t)%nat -> rr_probe h lb j = None) ->
  rr_loop h lb t = (None, set_rr_idx (u32 (rr_idx lb + Z.of_nat t)) lb).
Proof.
  induction t as [|t IH]; intros lb Hc Hmiss.
  - simpl. by rewrite Z.add_0_r, (u32_id _ Hc), set_rr_idx_id.
  - rewrite rr_loop_S by done. rewrite (Hmiss 0%nat) by lia.
    rewrite IH.
    + unfold set_rr_idx; core_simpl. rewrite u32_add_l.
      by replace (rr_idx lb + 1 + Z.of_nat t) with (rr_idx lb + Z.of_nat (S t)) by lia.
    + apply u32_range.
    + intros j Hj. rewrite rr_probe_shift. apply Hmiss. lia.
Qed.

(** C1. Round-robin selection: with [N = count], no candidate when [N = 0];
    otherwise the attempts [0, 1, ...] fetch-and-increment the cursor and
    probe [backends[cursor mod N]]; the call returns the backend of the first
    attempt, among at most [N], that finds a backend that exists and is UP
    (the cursor has then advanced once per attempt made), and no candidate
    after [N] failed attempts (the cursor has advanced [N] times). *)
Theorem strat_rr_select_attempts lb client :
  is_u32 (rr_idx lb) ->
  (backend_count lb = 0 -> strat_rr_select h lb client = (None, lb)) /\
  (0 < backend_count lb ->
     (forall (j : nat) b,
        (j < Z.to_nat (backend_count lb))%nat ->
        (forall i, (i < j)%nat -> rr_probe h lb i = None) ->
        rr_probe h lb j = Some b ->
        strat_rr_select h lb client
        = (Some b, set_rr_idx (u32 (rr_idx lb + Z.of_nat j + 1)) lb)
        /\ slot lb (Z.to_nat (u32 (rr_idx lb + Z.of_nat j) mod backend_count lb)) = Some b
        /\ backend_is_up h b = true) /\
     ((forall j, (j < Z.to_nat (backend_count lb))%nat -> rr_probe h lb j = None) ->
        strat_rr_select h lb client
        = (None, set_rr_idx (u32 (rr_idx lb + backend_count lb)) lb))).
Proof.
  intros Hc. unfold strat_rr_select. split.
  - intros ->. done.
  - intros HN. destruct (Z.eqb_spec (backend_count lb) 0) as [?|_]; [lia|].
    split.
    + intros j b Hj Hmiss Hhit. split; [by apply rr_loop_hit|].
      by apply rr_probe_Some.
    + intros Hmiss. rewrite rr_loop_miss by done.
      by rewrite Z2Nat.id by lia.
Qed.

End RoundRobin.

Lemma strat_rr_select_attempts_witness :
  strat_rr_select (store_state 1%nat BACKEND_DOWN rr3_heap) (set_rr_idx 1 rr3_core) None
  = (Some 2%nat, set_rr_idx 3 rr3_core).
Proof.
  destruct (strat_rr_select_attempts (store_state 1%nat BACKEND_DOWN rr3_heap)
              (set_rr_idx 1 rr3_core) None) as [_ H].
  { unfold is_u32, UINT32_MOD. simpl. lia. }
  destruct H as [Hhit _]; [vm_compute; reflexivity|].
  destruct (Hhit 1%nat 2%nat) as [-> _].
  - vm_compute. lia.
  - intros i Hi. assert (i = 0%nat) as -> by lia. vm_compute. reflexivity.
  - vm_compute. reflexivity.
  - vm_compute. reflexivity.
Defined.

(** ** Round-robin: runs of selections on a registry that is all UP *)

Lemma times_returned_app p (l1 l2 : list (option ptr)) :
  times_returned p (l1 ++ l2) = (times_returned p l1 + times_returned p l2)%nat.
Proof. unfold times_returned. by rewrite filter_app, length_app. Qed.

Lemma times_returned_absent p (l : list (option ptr)) :
  Some p ∉ l -> times_returned p l = 0%nat.
Proof.
  unfold times_returned. induction l as [|x l IH]; intros Hp; [done|].
  rewrite filter_cons. apply not_elem_of_cons in Hp as [Hx Hl].
  destruct (decide (x = Some p)) as [->|_]; [done|]. by apply IH.
Qed.

Lemma times_returned_NoDup p (l : list (option ptr)) :
  NoDup l -> Some p ∈ l -> times_returned p l = 1%nat.
Proof.
  induction 1 as [|x l Hx Hl IH]; intros Hp; [by apply elem_of_nil in Hp|].
  unfold times_returned in *. rewrite filter_cons.
  destruct (decide (x = Some p)) as [->|Hne].
  - simpl. f_equal. by apply times_returned_absent.
  - apply IH. apply elem_of_cons in Hp as [Hp|Hp]; [congruence | done].
Qed.

(** [k] full rounds over [m] slots return what one round returns, [k]
    times over. *)
Lemma times_returned_rounds (f : nat -> option ptr) p (m k : nat) :
  times_returned p ((fun j => f (j mod m)%nat) <$> seq 0 (k * m))
  = (k * times_returned p (f <$> seq 0 m))%nat.
Proof.
  induction k as [|k IH]; [done|].
  assert ((fun j => f (j mod m)%nat) <$> seq (k * m) m = f <$> seq 0 m) as Hround.
  { rewrite <- (Nat.add_0_r (k * m)) at 1.
    rewrite <- fmap_add_seq, <- list_fmap_compose.
    apply list_fmap_ext. intros i j Hj. apply lookup_seq in Hj as [-> Hj].
    simpl. f_equal. rewrite Nat.add_comm, Nat.Div0.mod_add. by apply Nat.mod_small. }
  rewrite Nat.mul_succ_l, seq_app, fmap_app, times_returned_app, IH.
  rewrite Nat.add_0_l, Hround. lia.
Qed.

Section RoundRobinRuns.

Variable h : heap.

Lemma all_up_set_rr_idx lb c : all_up h lb -> all_up h (set_rr_idx c lb).
Proof. done. Qed.

Lemma strat_rr_select_all_up lb :
  all_up h lb -> is_u32 (rr_idx lb) -> 0 < backend_count lb ->
  strat_rr_select h lb None
  = (slot lb (Z.to_nat (rr_idx lb mod backend_count lb)),
     set_rr_idx (u32 (rr_idx lb + 1)) lb).
Proof.
  intros [Hup _] Hc HN.
  destruct (Hup (Z.to_nat (rr_idx lb mod backend_count lb))) as (p & Hp & Hpup).
  { pose proof (Z.mod_pos_bound (rr_idx lb) (backend_count lb) HN). lia. }
  unfold strat_rr_select.
  destruct (Z.eqb_spec (backend_count lb) 0) as [?|_]; [lia|].
  destruct (Z.to_nat (backend_count lb)) as [|t] eqn:Ht; [lia|].
  rewrite rr_loop_S by done. unfold rr_probe.
  by rewrite Z.add_0_r, (u32_id _ Hc), Hp, Hpup.
Qed.

Lemma rr_select_many_all_up n : forall lb,
  all_up h lb -> is_u32 (rr_idx lb) -> 0 < backend_count lb ->
  rr_select_many h lb n
  = ((fun j : nat => slot lb (Z.to_nat (u32 (rr_idx lb + Z.of_nat j) mod backend_count lb)))
       <$> seq 0 n,
     set_rr_idx (u32 (rr_idx lb + Z.of_nat n)) lb).
Proof.
  induction n as [|n IH]; intros lb Hup Hc HN.
  - simpl. by rewrite Z.add_0_r, (u32_id _ Hc), set_rr_idx_id.
  - cbn [rr_select_many]. rewrite strat_rr_select_all_up by done.
    rewrite IH; [|by apply all_up_set_rr_idx|apply u32_range|done].
    unfold set_rr_idx at 3; core_simpl. f_equal.
    + cbn [seq fmap list_fmap]. f_equal.
      * by rewrite Z.add_0_r, (u32_id _ Hc).
      * rewrite <- fmap_S_seq, <- list_fmap_compose.
        apply list_fmap_ext. intros i j _.
        unfold compose, slot, set_rr_idx; core_simpl. rewrite u32_add_l.
        by replace (rr_idx lb + 1 + Z.of_nat j) with (rr_idx lb + Z.of_nat (S j)) by lia.
    + unfold set_rr_idx; core_simpl. rewrite u32_add_l.
      by replace (rr_idx lb + 1 + Z.of_nat n) with (rr_idx lb + Z.of_nat (S n)) by lia.
Qed.

(** The result of the selection number [j] of a run, whatever its length:
    the cursor value it consumes is [j] modulo 2^32. *)
Lemma rr_select_many_lookup lb (n j : nat) :
  all_up h lb -> rr_idx lb = 0 -> 0 < backend_count lb -> (j < n)%nat ->
  fst (rr_select_many h lb n) !! j
  = Some (slot lb (Z.to_nat (u32 (Z.of_nat j) mod backend_count lb))).
Proof.
  intros Hup Hc HN Hj.
  rewrite rr_select_many_all_up; [|done| |done].
  - simpl. rewrite list_lookup_fmap, lookup_seq_lt by done. simpl. by rewrite Hc.
  - rewrite Hc. unfold is_u32, UINT32_MOD. lia.
Qed.

End RoundRobinRuns.

(** The registry of the round-robin scenario: three backends, all UP. *)
Lemma rr3_all_up : all_up rr3_heap rr3_core.
Proof.
  split.
  - intros i Hi. vm_compute in Hi.
    destruct i as [|[|[|i]]]; [by exists 0%nat | by exists 1%nat | by exists 2%nat | lia].
  - assert (registry_slots rr3_core = [Some 0%nat; Some 1%nat; Some 2%nat]) as ->
      by (vm_compute; reflexivity).
    by apply (bool_decide_unpack _).
Qed.

(** C4 (as amended). On a core whose cursor is still 0, with [N >= 1]
    backends that are all UP and a heap held constant: as long as the 32-bit
    cursor does not wrap, that is for [k * N <= 2^32] selections, every
    backend is returned exactly [k] times, and in any run of [n <= 2^32]
    selections the selection number [j] returns the backend at index
    [j mod N]. *)
Theorem rr_fair_below_wrap h lb k n :
  all_up h lb -> rr_idx lb = 0 -> 0 < backend_count lb ->
  0 <= k -> k * backend_count lb <= UINT32_MOD -> n <= UINT32_MOD ->
  rr_counts h lb k /\ rr_order h lb n.
Proof.
  intros Hup Hc HN Hk Hkn Hn. split.
  - unfold rr_counts. intros i p Hi Hp.
    rewrite rr_select_many_all_up; [|done| |done].
    2:{ rewrite Hc. unfold is_u32, UINT32_MOD. lia. }
    cbn [fst]. set (m := Z.to_nat (backend_count lb)) in *.
    rewrite (list_fmap_ext _ (fun j => slot lb (j mod m)%nat)).
    2:{ intros a j Hj. apply lookup_seq in Hj as [-> Hj]. simpl. f_equal.
        rewrite Hc, Z.add_0_l, u32_id by (unfold is_u32; lia).
        replace (backend_count lb) with (Z.of_nat m) by lia.
        by rewrite <- Nat2Z.inj_mod, Nat2Z.id. }
    replace (Z.to_nat (k * backend_count lb)) with (Z.to_nat k * m)%nat by lia.
    rewrite times_returned_rounds, times_returned_NoDup; [lia|apply Hup|].
    apply list_elem_of_fmap. exists i. split; [done|]. apply elem_of_seq. lia.
  - unfold rr_order. intros j Hj.
    rewrite (rr_select_many_lookup h lb) by (done || lia).
    by rewrite Z2Nat.id, u32_id by (unfold is_u32; lia).
Qed.

Lemma rr_fair_below_wrap_witness :
  rr_counts rr3_heap rr3_core 2 /\ rr_order rr3_heap rr3_core 5.
Proof.
  apply rr_fair_below_wrap.
  - exact rr3_all_up.
  - reflexivity.
  - vm_compute. reflexivity.
  - lia.
  - vm_compute. discriminate.
  - vm_compute. discriminate.
Defined.

(** Scenario 1 of the specification: three UP backends, five successive
    selections on a new core. *)
Example rr3_five_selections :
  fst (rr_select_many rr3_heap rr3_core 5)
  = [Some 0%nat; Some 1%nat; Some 2%nat; Some 0%nat; Some 1%nat]
  /\ registry_slots rr3_core = [Some 0%nat; Some 1%nat; Some 2%nat].
Proof. split; vm_compute; reflexivity. Qed.

(** C4 fails as stated, for every [k]: with three UP backends and
    [k = 1431655766], the [3 * k = 2^32 + 2] selections let the cursor wrap,
    and the selection number 2^32 returns index 0 again, not index
    [2^32 mod 3 = 1]. *)
Lemma rr_fair_fails_after_wrap :
  ~ (rr_counts rr3_heap rr3_core 1431655766
     /\ rr_order rr3_heap rr3_core (1431655766 * backend_count rr3_core)).
Proof.
  intros [_ Ho]. unfold rr_order in Ho.
  assert (backend_count rr3_core = 3) as HN by (vm_compute; reflexivity).
  specialize (Ho 4294967296). rewrite HN in Ho.
  rewrite (rr_select_many_lookup rr3_heap rr3_core) in Ho.
  - rewrite Z2Nat.id, HN in Ho by lia.
    assert (u32 4294967296 mod 3 = 0) as H0 by (vm_compute; reflexivity).
    assert (4294967296 mod 3 = 1) as H1 by (vm_compute; reflexivity).
    rewrite H0, H1 in Ho.
    assert (slot rr3_core (Z.to_nat 0) <> slot rr3_core (Z.to_nat 1)) as Hne
      by (vm_compute; discriminate).
    apply Hne. assert (0 <= 4294967296 < 1431655766 * 3) as Hb by lia.
    specialize (Ho Hb). congruence.
  - exact rr3_all_up.
  - reflexivity.
  - rewrite HN. lia.
  - apply Z2Nat.inj_lt; lia.
Qed.

(** ** Least connections *)

Section LeastConn.

Variables (h : heap) (lb : lb_core_t).

Lemma up_at_functional i p c q d :
  up_at h lb i p c -> up_at h lb i q d -> p = q /\ c = d.
Proof.
  intros [Hp (bk & Hbk & _ & Hc)] [Hq (bk' & Hbk' & _ & Hd)].
  assert (p = q) as <- by congruence. split; [done|]. congruence.
Qed.

Lemma leastconn_scan_S n :
  leastconn_scan h lb (S n) = leastconn_step h lb (leastconn_scan h lb n) n.
Proof. unfold leastconn_scan. by rewrite seq_S, foldl_app. Qed.

(** What one step of the scan does, by the state of slot [n]. *)
Lemma leastconn_step_up acc n p c :
  up_at h lb n p c ->
  leastconn_step h lb acc n = if c <? snd acc then (Some p, c) else acc.
Proof.
  intros [Hp (bk & Hbk & Hst & Hc)]. unfold leastconn_step.
  rewrite Hp, Hbk, Hc. by rewrite bool_decide_eq_true_2.
Qed.

Lemma leastconn_step_not_up acc n :
  (forall p c, ~ up_at h lb n p c) -> leastconn_step h lb acc n = acc.
Proof.
  intros Hn. unfold leastconn_step.
  destruct (slot lb n) as [p|] eqn:Hp; [|done].
  destruct (h !! p) as [bk|] eqn:Hbk; [|done].
  case_bool_decide as Hst; [|done].
  destruct (Hn p (b_active_conns bk)). split; [done|]. by exists bk.
Qed.

Lemma up_at_dec n : (exists p c, up_at h lb n p c) \/ (forall p c, ~ up_at h lb n p c).
Proof.
  unfold up_at. destruct (slot lb n) as [p|]; [|right; by intros p c [? _]].
  destruct (h !! p) as [bk|] eqn:Hbk.
  - destruct (decide (b_state bk = BACKEND_UP)) as [Hst|Hst].
    + left. exists p, (b_active_conns bk). split; [done|]. by exists bk.
    + right. intros q c [[= <-] (bk' & Hbk' & Hst' & _)]. congruence.
  - right. intros q c [[= <-] (bk' & Hbk' & _)]. congruence.
Qed.

Lemma leastconn_scan_inv n : scan_inv h lb n (leastconn_scan h lb n).
Proof.
  induction n as [|n IH].
  - unfold scan_inv, leastconn_scan; simpl. split; [done|]. intros; lia.
  - rewrite leastconn_scan_S. destruct (leastconn_scan h lb n) as [sel minc].
    destruct (up_at_dec n) as [(p & c & Hup)|Hno].
    + rewrite (leastconn_step_up _ _ _ _ Hup). cbn [snd].
      assert (forall j : nat, (j < S n)%nat -> (j < n)%nat \/ j = n) as Hcase
        by (intros; lia).
      destruct (Z.ltb_spec c minc) as [Hlt|Hge]; unfold scan_inv in *; cbn [fst snd] in *.
      * exists n. split; [lia|]. split; [done|].
        destruct sel as [p0|].
        -- destruct IH as (i & Hi & Hi_up & Hmax & Hmin & Hfirst).
           split; [lia|]. split.
           ++ intros j q d Hj Hq. destruct (Hcase j Hj) as [Hjn| ->].
              ** specialize (Hmin j q d Hjn Hq). lia.
              ** destruct (up_at_functional _ _ _ _ _ Hup Hq) as [_ <-]. lia.
           ++ intros j q d Hj Hq. specialize (Hmin j q d Hj Hq). lia.
        -- destruct IH as [-> Hall]. split; [lia|]. split.
           ++ intros j q d Hj Hq. destruct (Hcase j Hj) as [Hjn| ->].
              ** specialize (Hall j q d Hjn Hq). lia.
              ** destruct (up_at_functional _ _ _ _ _ Hup Hq) as [_ <-]. lia.
           ++ intros j q d Hj Hq. specialize (Hall j q d Hj Hq). lia.
      * destruct sel as [p0|].
        -- destruct IH as (i & Hi & Hi_up & Hmax & Hmin & Hfirst).
           exists i. split; [lia|]. split; [done|]. split; [done|]. split; [|done].
           intros j q d Hj Hq. destruct (Hcase j Hj) as [Hjn| ->].
           ++ by apply (Hmin j q d).
           ++ destruct (up_at_functional _ _ _ _ _ Hup Hq) as [_ <-]. lia.
        -- destruct IH as [-> Hall]. split; [done|].
           intros j q d Hj Hq. destruct (Hcase j Hj) as [Hjn| ->].
           ++ by apply (Hall j q d).
           ++ destruct (up_at_functional _ _ _ _ _ Hup Hq) as [_ <-]. lia.
    + rewrite (leastconn_step_not_up _ _ Hno).
      unfold scan_inv in *; cbn [fst snd] in *. destruct sel as [p0|].
      * destruct IH as (i & Hi & Hi_up & Hmax & Hmin & Hfirst).
        exists i. split; [lia|]. split; [done|]. split; [done|]. split; [|done].
        intros j q d Hj Hq. destruct (decide (j = n)) as [->|Hne].
        -- by destruct (Hno q d).
        -- apply (Hmin j q d); [lia|done].
      * destruct IH as [-> Hall]. split; [done|].
        intros j q d Hj Hq. destruct (decide (j = n)) as [->|Hne].
        -- by destruct (Hno q d).
        -- apply (Hall j q d); [lia|done].
Qed.

End LeastConn.

(** What [strat_leastconn_select] returns: the first UP backend of
    [backends[0..count]] with the least counter, when that counter is below
    the initial value [UINT32_MAX] of the running minimum; no candidate when
    no UP backend has a counter below [UINT32_MAX]. *)
Lemma strat_leastconn_select_min h lb client :
  match strat_leastconn_select h lb client with
  | Some p =>
      exists (i : nat) c,
        (i < Z.to_nat (backend_count lb))%nat /\ up_at h lb i p c /\
        c < UINT32_MAX /\
        (forall (j : nat) q d,
           (j < Z.to_nat (backend_count lb))%nat -> up_at h lb j q d -> c <= d) /\
        (forall (j : nat) q d, (j < i)%nat -> up_at h lb j q d -> c < d)
  | None =>
      forall (i : nat) p c,
        (i < Z.to_nat (backend_count lb))%nat -> up_at h lb i p c -> UINT32_MAX <= c
  end.
Proof.
  unfold strat_leastconn_select.
  pose proof (leastconn_scan_inv h lb (Z.to_nat (backend_count lb))) as Hinv.
  unfold scan_inv in Hinv.
  destruct (leastconn_scan h lb _) as [[p|] minc]; cbn [fst snd] in *.
  - destruct Hinv as (i & Hi & Hup & Hmax & Hmin & Hfirst). by exists i, minc.
  - by destruct Hinv as [_ Hall].
Qed.

Lemma strat_leastconn_select_client h lb client client' :
  strat_leastconn_select h lb client = strat_leastconn_select h lb client'.
Proof. reflexivity. Qed.

Lemma strat_leastconn_select_no_up h lb client :
  (forall (i : nat) p c,
     (i < Z.to_nat (backend_count lb))%nat -> ~ up_at h lb i p c) ->
  strat_leastconn_select h lb client = None.
Proof.
  intros Hno. pose proof (strat_leastconn_select_min h lb client) as Hsel.
  destruct (strat_leastconn_select h lb client) as [p|]; [|done].
  destruct Hsel as (i & c & Hi & Hup & _). by destruct (Hno i p c).
Qed.


(** C2 on the code, at a registry whose only backend is UP with
    [active_conns = UINT32_MAX]: the backend is the minimum among the UP
    backends, yet the scan, which starts its running minimum at [UINT32_MAX]
    and compares strictly, returns no candidate. *)
Theorem strat_leastconn_select_sentinel :
  backend_count lc1_core = 1
  /\ up_at lc1_heap lc1_core 0 0%nat UINT32_MAX
  /\ strat_leastconn_select lc1_heap lc1_core None = None.
Proof.
  split; [vm_compute; reflexivity|]. split; [|vm_compute; reflexivity].
  split; [vm_compute; reflexivity|].
  eexists. split; [vm_compute; reflexivity|]. split; reflexivity.
Qed.

(** ** C strings and the host field *)

Lemma c_str_no_nul m : Forall (fun c => c <> x00) (c_str m).
Proof.
  induction m as [|c m IH]; simpl; [constructor|].
  destruct (Byte.eqb c x00) eqn:Hc; constructor; [|done].
  by apply Byte.eqb_false.
Qed.

Lemma c_str_app_nul l l' :
  Forall (fun c => c <> x00) l -> c_str (l ++ x00 :: l') = l.
Proof.
  induction 1 as [|c l Hc Hl IH]; simpl; [done|].
  destruct (Byte.eqb c x00) eqn:Hcb.
  - by apply Byte.byte_dec_bl in Hcb.
  - by rewrite IH.
Qed.

Lemma strncpy_bytes_spec n : forall src,
  strncpy_bytes src n
  = take n (c_str src) ++ replicate (n - length (take n (c_str src))) x00.
Proof.
  induction n as [|n IH]; intros src; [done|].
  destruct src as [|c src]; [done|]. simpl.
  destruct (Byte.eqb c x00); [done|]. simpl. by rewrite IH.
Qed.

Lemma new_backend_host hs port weight :
  b_host (new_backend hs port weight)
  = take 255 (c_str hs) ++ replicate (256 - length (take 255 (c_str hs))) x00.
Proof.
  unfold new_backend, strncpy. cbn [b_host calloc_backend].
  change (length (replicate HOST_SIZE x00) - 1)%nat with 255%nat.
  change (drop 255 (replicate HOST_SIZE x00)) with [x00].
  rewrite strncpy_bytes_spec, <- (assoc_L (++)). f_equal.
  pose proof (length_take_le (c_str hs) 255) as Hle.
  assert (length (take 255 (c_str hs)) <= 255)%nat as Hlen
    by (rewrite length_take; lia).
  replace (256 - length (take 255 (c_str hs)))%nat
    with (S (255 - length (take 255 (c_str hs)))) by lia.
  by rewrite replicate_S_end.
Qed.

(** C9. For a non-null host, a port other than 0, a registry that is not
    full and a successful allocation, [lb_core_add_backend] returns OK and
    the new backend's host field holds the first 255 characters of the host
    string at most, padded with NUL bytes to its 256 bytes: a longer host is
    cut, not rejected, and the field is NUL-terminated. *)
Theorem lb_core_add_backend_host_truncated MAX_BACKENDS h c hs port weight :
  port <> 0 -> backend_count c < MAX_BACKENDS ->
  let r := lb_core_add_backend MAX_BACKENDS true h (Some c) (Some hs) port weight in
  add_status r = LB_OK /\
  exists b,
    add_heap r !! length h = Some b /\
    b_host b = take 255 (c_str hs) ++ replicate (256 - length (take 255 (c_str hs))) x00 /\
    c_str (b_host b) = take 255 (c_str hs) /\
    (length (c_str (b_host b)) <= 255)%nat /\
    length (b_host b) = 256%nat /\
    last (b_host b) = Some x00.
Proof.
  intros Hport Hroom r. subst r. unfold lb_core_add_backend.
  destruct (Z.eqb_spec port 0) as [?|_]; [done|].
  destruct (Z.leb_spec MAX_BACKENDS (backend_count c)) as [?|_]; [lia|].
  cbn [negb add_status add_heap]. split; [done|].
  exists (new_backend hs port weight).
  split; [by rewrite lookup_app_r, Nat.sub_diag by lia|].
  rewrite new_backend_host.
  assert (length (take 255 (c_str hs)) <= 255)%nat as Hlen
    by (rewrite length_take; lia).
  assert (c_str (take 255 (c_str hs)
                 ++ replicate (256 - length (take 255 (c_str hs))) x00)
          = take 255 (c_str hs)) as Hstr.
  { replace (256 - length (take 255 (c_str hs)))%nat
      with (S (255 - length (take 255 (c_str hs)))) by lia.
    cbn [replicate]. apply c_str_app_nul, Forall_take, c_str_no_nul. }
  split; [done|]. split; [done|]. split; [by rewrite Hstr|].
  split; [rewrite length_app, length_replicate; lia|].
  replace (256 - length (take 255 (c_str hs)))%nat
    with (S (255 - length (take 255 (c_str hs)))) by lia.
  by rewrite replicate_S_end, (assoc_L (++)), last_snoc.
Qed.

Lemma lb_core_add_backend_host_truncated_witness :
  let r := lb_core_add_backend 256 true [] fresh_core (Some long_host) 80 1 in
  length (c_str long_host) = 300%nat /\
  add_status r = LB_OK /\
  exists b, add_heap r !! 0%nat = Some b /\ c_str (b_host b) = replicate 255 "a"%byte.
Proof.
  split; [vm_compute; reflexivity|].
  destruct (lb_core_add_backend_host_truncated 256 [] (default (calloc_core 256) fresh_core)
              long_host 80 1) as [Hst (b & Hb & _ & Hstr & _)].
  - discriminate.
  - vm_compute. reflexivity.
  - split; [exact Hst|]. exists b. split; [exact Hb|].
    rewrite Hstr. vm_compute. reflexivity.
Defined.

(** ** Rejected calls *)

(** C3 (as amended). [lb_core_add_backend] returns INVALID_ARGUMENT exactly
    when the core handle or the host pointer is null or the port is 0; the
    heap and the registry are then unchanged and nothing is logged. *)
Theorem lb_core_add_backend_invalid MAX_BACKENDS calloc_ok h lb host port weight :
  (lb = None \/ host = None \/ port = 0 ->
   lb_core_add_backend MAX_BACKENDS calloc_ok h lb host port weight
   = mk_add LB_ERR_INVAL h lb []) /\
  (add_status (lb_core_add_backend MAX_BACKENDS calloc_ok h lb host port weight)
   = LB_ERR_INVAL ->
   lb = None \/ host = None \/ port = 0).
Proof.
  unfold lb_core_add_backend. split.
  - intros [-> | [-> | ->]]; [done | by destruct lb | by destruct lb, host].
  - destruct lb as [c|]; [|by left]. destruct host as [hs|]; [|by right; left].
    destruct (Z.eqb_spec port 0) as [?|_]; [by right; right|].
    destruct (MAX_BACKENDS <=? backend_count c); [done|].
    by destruct calloc_ok.
Qed.

Lemma lb_core_add_backend_invalid_witness :
  lb_core_add_backend 256 true [] fresh_core None 80 1
  = mk_add LB_ERR_INVAL [] fresh_core []
  /\ lb_core_add_backend 256 true [] fresh_core (Some (c_lit "10.0.0.1")) 0 1
     = mk_add LB_ERR_INVAL [] fresh_core [].
Proof.
  split.
  - apply (lb_core_add_backend_invalid 256 true [] fresh_core None 80 1).
    right. left. reflexivity.
  - apply (lb_core_add_backend_invalid 256 true [] fresh_core (Some (c_lit "10.0.0.1")) 0 1).
    right. right. reflexivity.
Defined.

(** C3 fails as stated: the empty host string is not rejected; the call
    returns OK and registers a backend. *)
Lemma lb_core_add_backend_empty_host :
  let r := lb_core_add_backend 256 true [] fresh_core (Some (c_lit "")) 80 1 in
  c_str (c_lit "") = []
  /\ ~ (add_status r = LB_ERR_INVAL /\ add_heap r = [] /\ add_core r = fresh_core).
Proof.
  split; [reflexivity|]. intros (Hst & _). vm_compute in Hst. discriminate.
Qed.

(** C5. When the registry count equals [MAX_BACKENDS], a call whose
    arguments pass validation returns LIMIT_EXCEEDED; whatever the arguments,
    the count, the slots and the heap keep their values and nothing is
    allocated. *)
Theorem lb_core_add_backend_full MAX_BACKENDS calloc_ok h c host port weight :
  backend_count c = MAX_BACKENDS ->
  let r := lb_core_add_backend MAX_BACKENDS calloc_ok h (Some c) host port weight in
  add_heap r = h /\ add_core r = Some c /\
  (host <> None -> port <> 0 -> r = mk_add LB_ERR_LIMIT h (Some c) []).
Proof.
  intros Hfull r. subst r. unfold lb_core_add_backend.
  destruct host as [hs|]; [|done].
  destruct (Z.eqb_spec port 0) as [?|Hport]; [done|].
  destruct (Z.leb_spec MAX_BACKENDS (backend_count c)) as [_|?]; [done|lia].
Qed.

Lemma lb_core_add_backend_full_witness :
  let h := snd (fst full_registry) in
  let c := default (calloc_core 256) (snd full_registry) in
  backend_count c = 256 /\ length h = 256%nat /\
  lb_core_add_backend 256 true h (Some c) (Some (c_lit "10.0.0.9")) 80 1
  = mk_add LB_ERR_LIMIT h (Some c) [].
Proof.
  intros h c. split; [vm_compute; reflexivity|]. split; [vm_compute; reflexivity|].
  apply (lb_core_add_backend_full 256 true h c (Some (c_lit "10.0.0.9")) 80 1).
  - vm_compute. reflexivity.
  - discriminate.
  - discriminate.
Defined.

(** ** Creation *)

Lemma call_init_ok f lb : call_init f lb = LB_OK.
Proof. by destruct f. Qed.

Lemma strategy_init_ok a lb :
  match s_init (lb_strategy_from_algo a) with
  | Some f => call_init f lb
  | None => LB_OK
  end = LB_OK.
Proof. by destruct a. Qed.

(** The core that a successful [lb_core_create] stores in [*out]. *)
Lemma lb_core_create_out MAX_BACKENDS e port algo out lb0 :
  create_out (lb_core_create MAX_BACKENDS e port algo out) = Some (Some lb0) ->
  create_status (lb_core_create MAX_BACKENDS e port algo out) = LB_OK /\
  backend_count lb0 = 0 /\
  backends lb0 = replicate (Z.to_nat MAX_BACKENDS) None /\
  rr_idx lb0 = 0 /\
  algorithm lb0 = Some algo /\
  strategy lb0 = lb_strategy_from_algo algo /\
  cfg lb0 = default_cfg.
Proof.
  unfold lb_core_create. destruct out as [cell|]; [|done].
  destruct (env_calloc_core e); [|done]. cbn [negb].
  destruct (env_epoll_create1 e <? 0); [done|].
  rewrite strategy_init_ok. rewrite bool_decide_eq_true_2 by done. cbn [negb].
  destruct (lb_thread_pool_start _ _ _) as [s_tp tp].
  cbn [create_out create_status]. intros [= <-]. by core_simpl.
Qed.

Lemma lb_core_create_wf MAX_BACKENDS e port algo out lb0 :
  0 <= MAX_BACKENDS ->
  create_out (lb_core_create MAX_BACKENDS e port algo out) = Some (Some lb0) ->
  registry_wf MAX_BACKENDS lb0.
Proof.
  intros HM Hout.
  destruct (lb_core_create_out _ _ _ _ _ _ Hout) as (_ & Hn & Hbs & _).
  unfold registry_wf. rewrite Hn, Hbs, length_replicate. lia.
Qed.

(** ** The registry under sequences of [lb_core_add_backend] *)

Lemma count_ok_ok_calls calls : forall sts,
  length sts = length calls -> length (ok_calls calls sts) = count_ok sts.
Proof.
  unfold count_ok.
  induction calls as [|a calls IH]; intros [|s sts] Hlen; try done.
  simpl in Hlen. cbn [ok_calls]. rewrite filter_cons.
  case_bool_decide as Hs.
  - rewrite decide_True by done. simpl. f_equal. apply IH. lia.
  - rewrite decide_False by done. apply IH. lia.
Qed.

Lemma add_many_app MAX_BACKENDS cs1 : forall h lb cs2,
  add_many MAX_BACKENDS h lb (cs1 ++ cs2)
  = let '(sts1, h1, lb1) := add_many MAX_BACKENDS h lb cs1 in
    let '(sts2, h2, lb2) := add_many MAX_BACKENDS h1 lb1 cs2 in
    (sts1 ++ sts2, h2, lb2).
Proof.
  induction cs1 as [|a cs1 IH]; intros h lb cs2; simpl.
  - by destruct (add_many MAX_BACKENDS h lb cs2) as [[sts2 h2] lb2].
  - rewrite IH.
    destruct (add_many MAX_BACKENDS _ _ cs1) as [[sts1 h1] lb1].
    by destruct (add_many MAX_BACKENDS h1 lb1 cs2) as [[sts2 h2] lb2].
Qed.

Lemma add_many_cons MAX_BACKENDS h lb a calls :
  add_many MAX_BACKENDS h lb (a :: calls)
  = let r := run_add MAX_BACKENDS h lb a in
    let '(sts, h', lb') := add_many MAX_BACKENDS (add_heap r) (add_core r) calls in
    (add_status r :: sts, h', lb').
Proof. reflexivity. Qed.

Section Registry.

Variable MAX_BACKENDS : Z.
Hypothesis MAX_BACKENDS_u32 : MAX_BACKENDS <= UINT32_MAX.

(** One call: either it returns OK, appends the new backend to the heap and
    publishes its address in slot [count], or it leaves everything as it is. *)
Lemma run_add_cases h c a :
  registry_wf MAX_BACKENDS c ->
  let r := run_add MAX_BACKENDS h (Some c) a in
  (add_status r = LB_OK /\ backend_count c < MAX_BACKENDS /\
   add_heap r = h ++ [backend_of_call a] /\
   add_core r = Some (set_registry (backend_count c + 1)
                        (<[Z.to_nat (backend_count c) := Some (length h)]> (backends c)) c))
  \/ (add_status r <> LB_OK /\ add_heap r = h /\ add_core r = Some c).
Proof.
  intros [Hn Hlen] r. subst r. unfold run_add, lb_core_add_backend.
  destruct (ac_host a) as [hs|] eqn:Hhost; [|by right].
  destruct (ac_port a =? 0); [by right|].
  destruct (Z.leb_spec MAX_BACKENDS (backend_count c)) as [?|Hroom]; [by right|].
  destruct (ac_calloc_ok a); [|by right]. left. cbn [negb add_status add_heap add_core].
  unfold backend_of_call. rewrite Hhost. cbn [default].
  rewrite u32_id; [done|]. unfold is_u32, UINT32_MOD, UINT32_MAX in *. lia.
Qed.

Lemma add_many_spec calls : forall h c sts h' lb',
  registry_wf MAX_BACKENDS c ->
  add_many MAX_BACKENDS h (Some c) calls = (sts, h', lb') ->
  exists c', lb' = Some c' /\ registry_wf MAX_BACKENDS c' /\
    length sts = length calls /\
    h' = h ++ (backend_of_call <$> ok_calls calls sts) /\
    backend_count c' = backend_count c + Z.of_nat (length (ok_calls calls sts)) /\
    (forall i : nat, (i < Z.to_nat (backend_count c))%nat -> slot c' i = slot c i) /\
    (forall k : nat, (k < length (ok_calls calls sts))%nat ->
       slot c' (Z.to_nat (backend_count c) + k) = Some (length h + k)%nat).
Proof.
  induction calls as [|a calls IH]; intros h c sts h' lb' Hwf Hrun.
  - simpl in Hrun. injection Hrun as <- <- <-. exists c.
    cbn [ok_calls length fmap list_fmap]. rewrite app_nil_r, Z.add_0_r.
    repeat split; try done; try apply Hwf. intros k Hk. lia.
  - rewrite add_many_cons in Hrun. cbv zeta in Hrun.
    pose proof (run_add_cases h c a Hwf) as Hcases. cbv zeta in Hcases.
    remember (run_add MAX_BACKENDS h (Some c) a) as r eqn:Hr. clear Hr.
    destruct Hcases as [(Hst & Hroom & Hheap & Hcore)|(Hst & Hheap & Hcore)];
      rewrite Hheap, Hcore in Hrun;
      destruct (add_many MAX_BACKENDS _ _ calls) as [[sts1 h1] lb1] eqn:Hrest;
      injection Hrun as <- <- <-.
    + destruct Hwf as [Hn Hlen].
      apply IH in Hrest as (c' & -> & Hwf' & Hlen' & Hh & Hcount & Hold & Hnew).
      2:{ split; unfold set_registry; core_simpl; [lia|]. by rewrite length_insert. }
      unfold set_registry in Hcount, Hold, Hnew; core_simpl.
      exists c'. cbn [ok_calls]. rewrite Hst, bool_decide_eq_true_2 by done.
      split; [done|]. split; [done|]. split; [simpl; lia|].
      split; [by rewrite Hh, <- (assoc_L (++))|].
      split; [rewrite Hcount; simpl length; lia|].
      assert (Z.to_nat (backend_count c + 1) = S (Z.to_nat (backend_count c))) as HS by lia.
      split.
      * intros i Hi. rewrite Hold by lia. unfold slot; core_simpl.
        by rewrite list_lookup_insert_ne by lia.
      * intros k Hk. destruct k as [|k].
        -- rewrite Nat.add_0_r, Hold by lia. unfold slot; core_simpl.
           rewrite list_lookup_insert_eq by lia. simpl. f_equal. lia.
        -- simpl in Hk. specialize (Hnew k ltac:(lia)).
           rewrite HS, length_app in Hnew. simpl in Hnew.
           replace (Z.to_nat (backend_count c) + S k)%nat
             with (S (Z.to_nat (backend_count c) + k)) by lia.
           rewrite Hnew. f_equal. lia.
    + apply IH in Hrest as (c' & -> & Hwf' & Hlen' & Hh & Hcount & Hold & Hnew); [|done].
      exists c'. cbn [ok_calls]. rewrite bool_decide_eq_false_2 by done.
      repeat split; try done; try apply Hwf'. simpl; lia.
Qed.

(** The registry of a core that had no backend before the calls. *)
Lemma add_many_from_empty calls h c sts h' c' :
  registry_wf MAX_BACKENDS c -> backend_count c = 0 ->
  add_many MAX_BACKENDS h (Some c) calls = (sts, h', Some c') ->
  backend_count c' = Z.of_nat (count_ok sts) /\
  registry_slots c' = (fun k => Some (length h + k)%nat) <$> seq 0 (count_ok sts) /\
  registry_contents h' c' = Some <$> (backend_of_call <$> ok_calls calls sts).
Proof.
  intros Hwf H0 Hrun.
  destruct (add_many_spec _ _ _ _ _ _ Hwf Hrun)
    as (c'' & [= <-] & Hwf' & Hlen & Hh & Hcount & _ & Hnew).
  rewrite H0 in *. rewrite (count_ok_ok_calls _ _ Hlen) in *.
  rewrite Z.add_0_l in Hcount.
  assert (Z.to_nat (backend_count c') = count_ok sts) as Hn by lia.
  assert (forall k : nat, (k < count_ok sts)%nat -> slot c' k = Some (length h + k)%nat)
    as Hslot by (intros k Hk; apply (Hnew k Hk)).
  split; [done|]. unfold registry_slots, registry_contents. rewrite Hn. split.
  - apply list_fmap_ext. intros i k Hk. apply lookup_seq in Hk as [-> Hk].
    by apply Hslot.
  - apply list_eq. intros i. rewrite !list_lookup_fmap.
    destruct (decide (i < count_ok sts)%nat) as [Hi|Hi].
    + rewrite lookup_seq_lt by done. cbn [fmap option_fmap option_map].
      change (0 + i)%nat with i.
      rewrite (Hslot i Hi). cbn [mbind option_bind]. rewrite Hh.
      rewrite lookup_app_r by lia.
      replace (length h + i - length h)%nat with i by lia.
      rewrite list_lookup_fmap.
      destruct (ok_calls calls sts !! i) as [a|] eqn:Ha; [done|].
      apply lookup_ge_None in Ha. rewrite (count_ok_ok_calls _ _ Hlen) in Ha. lia.
    + rewrite lookup_seq_ge by lia.
      rewrite (proj2 (lookup_ge_None (ok_calls calls sts) i)); [done|].
      rewrite (count_ok_ok_calls _ _ Hlen). lia.
Qed.

End Registry.

Lemma ok_calls_app cs1 : forall sts1 cs2 sts2,
  length sts1 = length cs1 ->
  ok_calls (cs1 ++ cs2) (sts1 ++ sts2) = ok_calls cs1 sts1 ++ ok_calls cs2 sts2.
Proof.
  induction cs1 as [|a cs1 IH]; intros [|s sts1] cs2 sts2 Hlen; try done.
  simpl in Hlen. simpl. rewrite IH by lia. by case_bool_decide.
Qed.

Lemma ok_calls_elem_of calls : forall sts a, a ∈ ok_calls calls sts -> a ∈ calls.
Proof.
  induction calls as [|a' calls IH]; intros [|s sts] a Ha; simpl in Ha;
    try by apply elem_of_nil in Ha.
  case_bool_decide.
  - apply elem_of_cons in Ha as [->|Ha]; [by left | right; by eapply IH].
  - right. by eapply IH.
Qed.

Lemma add_many_strategy MAX_BACKENDS calls : forall h c sts h' c',
  add_many MAX_BACKENDS h (Some c) calls = (sts, h', Some c') ->
  strategy c' = strategy c.
Proof.
  induction calls as [|a calls IH]; intros h c sts h' c' Hrun.
  - simpl in Hrun. by injection Hrun as <- <- <-.
  - rewrite add_many_cons in Hrun. cbv zeta in Hrun.
    assert (exists c1, add_core (run_add MAX_BACKENDS h (Some c) a) = Some c1
                       /\ strategy c1 = strategy c) as (c1 & Hc1 & Hs).
    { unfold run_add, lb_core_add_backend.
      destruct (ac_host a); [|by exists c].
      destruct (ac_port a =? 0); [by exists c|].
      destruct (MAX_BACKENDS <=? backend_count c); [by exists c|].
      destruct (ac_calloc_ok a); [|by exists c]. by eexists. }
    rewrite Hc1 in Hrun.
    destruct (add_many MAX_BACKENDS _ _ calls) as [[sts1 h1] lb1] eqn:Hrest.
    injection Hrun as <- <- ->. rewrite <- Hs. by eapply IH.
Qed.

(** C7. On a core as [lb_core_create] returns it, after any sequence of
    calls of [lb_core_add_backend]: the count is the number of calls that
    returned OK; [backends[0..count]] are the backends those calls created,
    in call order, each slot a different object; and the registry after any
    initial part of the sequence is an initial part of the final registry
    (no entry is moved or changed by a later call). *)
Theorem add_many_registry MAX_BACKENDS e port algo out lb0 h0 calls sts h' lb' :
  0 <= MAX_BACKENDS <= UINT32_MAX ->
  create_out (lb_core_create MAX_BACKENDS e port algo out) = Some (Some lb0) ->
  add_many MAX_BACKENDS h0 (Some lb0) calls = (sts, h', lb') ->
  exists c', lb' = Some c' /\
    backend_count c' = Z.of_nat (count_ok sts) /\
    registry_contents h' c' = Some <$> (backend_of_call <$> ok_calls calls sts) /\
    NoDup (registry_slots c') /\
    (forall cs1 cs2 sts1 h1 c1,
       calls = cs1 ++ cs2 ->
       add_many MAX_BACKENDS h0 (Some lb0) cs1 = (sts1, h1, Some c1) ->
       registry_slots c1 `prefix_of` registry_slots c' /\
       registry_contents h1 c1 `prefix_of` registry_contents h' c').
Proof.
  intros [HM0 HM] Hout Hrun.
  pose proof (lb_core_create_wf _ _ _ _ _ _ HM0 Hout) as Hwf.
  destruct (lb_core_create_out _ _ _ _ _ _ Hout) as (_ & H0 & _).
  destruct (add_many_spec _ HM _ _ _ _ _ _ Hwf Hrun) as (c' & -> & _).
  destruct (add_many_from_empty _ HM _ _ _ _ _ _ Hwf H0 Hrun) as (Hn & Hslots & Hcont).
  exists c'. split; [done|]. split; [done|]. split; [done|]. split.
  - rewrite Hslots. apply NoDup_fmap_2; [|apply NoDup_seq].
    intros i j [=]. lia.
  - intros cs1 cs2 sts1 h1 c1 -> Hrun1.
    destruct (add_many_spec _ HM _ _ _ _ _ _ Hwf Hrun1) as (? & _ & _ & Hlen1 & _).
    destruct (add_many_from_empty _ HM _ _ _ _ _ _ Hwf H0 Hrun1) as (_ & Hslots1 & Hcont1).
    rewrite add_many_app, Hrun1 in Hrun.
    destruct (add_many MAX_BACKENDS h1 (Some c1) cs2) as [[sts2 h2] lb2].
    injection Hrun as <- <- _.
    rewrite Hslots, Hslots1, Hcont, Hcont1.
    rewrite ok_calls_app by done. unfold count_ok.
    rewrite filter_app, length_app, seq_app, !fmap_app.
    split; by eexists.
Qed.

Lemma add_many_registry_witness :
  exists c', snd (scenario LB_ALGO_ROUNDROBIN) = Some c' /\
    backend_count c' = 3 /\
    registry_contents (fst (scenario LB_ALGO_ROUNDROBIN)) c'
    = Some <$> (backend_of_call <$> three_calls).
Proof.
  destruct (add_many_registry 256 env_ok 8080 LB_ALGO_ROUNDROBIN (Some None)
              (default (calloc_core 256) fresh_core) [] three_calls
              [LB_OK; LB_OK; LB_OK] (fst (scenario LB_ALGO_ROUNDROBIN))
              (snd (scenario LB_ALGO_ROUNDROBIN)))
    as (c' & Hc' & Hn & Hcont & _).
  - unfold UINT32_MAX. lia.
  - vm_compute. reflexivity.
  - vm_compute. reflexivity.
  - exists c'. split; [exact Hc'|]. split; [exact Hn|exact Hcont].
Defined.

(** C8. The weight a backend is created with is the input weight, except
    that 0 becomes 1; so every backend of the registry, after any sequence
    of calls on a new core with 32-bit unsigned weights, has a weight of at
    least 1. *)
Theorem backend_weight_at_least_one MAX_BACKENDS e port algo out lb0 h0 calls sts h' c' :
  0 <= MAX_BACKENDS <= UINT32_MAX ->
  create_out (lb_core_create MAX_BACKENDS e port algo out) = Some (Some lb0) ->
  add_many MAX_BACKENDS h0 (Some lb0) calls = (sts, h', Some c') ->
  (forall a, a ∈ calls -> is_u32 (ac_weight a)) ->
  forall (i : nat) b,
    registry_contents h' c' !! i = Some (Some b) ->
    1 <= b_weight b /\
    exists a, ok_calls calls sts !! i = Some a /\
      b_weight b = (if ac_weight a =? 0 then 1 else ac_weight a).
Proof.
  intros [HM0 HM] Hout Hrun Hw i b Hb.
  pose proof (lb_core_create_wf _ _ _ _ _ _ HM0 Hout) as Hwf.
  destruct (lb_core_create_out _ _ _ _ _ _ Hout) as (_ & H0 & _).
  destruct (add_many_from_empty _ HM _ _ _ _ _ _ Hwf H0 Hrun) as (_ & _ & Hcont).
  rewrite Hcont, !list_lookup_fmap in Hb.
  destruct (ok_calls calls sts !! i) as [a|] eqn:Ha; [|done].
  injection Hb as <-. cbn [backend_of_call new_backend b_weight].
  assert (is_u32 (ac_weight a)) as [Hlo _].
  { apply Hw. eapply ok_calls_elem_of, list_elem_of_lookup_2, Ha. }
  split; [|by exists a].
  destruct (Z.eqb_spec (ac_weight a) 0); lia.
Qed.

Lemma backend_weight_at_least_one_witness :
  let calls := [mk_call true (Some (c_lit "10.0.0.1")) 80 0;
                mk_call true (Some (c_lit "10.0.0.2")) 80 7] in
  let '(sts, h', lb') := add_many 256 [] fresh_core calls in
  sts = [LB_OK; LB_OK] /\ b_weight <$> h' = [1; 7] /\
  forall (i : nat) b,
    registry_contents h' (default (calloc_core 256) lb') !! i = Some (Some b) ->
    1 <= b_weight b.
Proof.
  intros calls.
  destruct (add_many 256 [] fresh_core calls) as [[sts h'] lb'] eqn:Hrun.
  assert (sts = [LB_OK; LB_OK] /\ b_weight <$> h' = [1; 7] /\ exists c', lb' = Some c')
    as (Hsts & Hw & c' & ->).
  { vm_compute in Hrun. injection Hrun as <- <- <-. split; [reflexivity|].
    split; [reflexivity|]. eexists. reflexivity. }
  split; [exact Hsts|]. split; [exact Hw|]. intros i b Hb.
  eapply (backend_weight_at_least_one 256 env_ok 8080 LB_ALGO_ROUNDROBIN (Some None)
            (default (calloc_core 256) fresh_core) [] calls sts h' c').
  - unfold UINT32_MAX. lia.
  - vm_compute. reflexivity.
  - exact Hrun.
  - intros a Ha. unfold calls in Ha. unfold is_u32, UINT32_MOD.
    apply elem_of_cons in Ha as [->|Ha]; [simpl; lia|].
    apply elem_of_cons in Ha as [->|Ha]; [simpl; lia|].
    by apply elem_of_nil in Ha.
  - exact Hb.
Defined.

(** ** The strategy factory and creation *)

Lemma lb_core_create_status MAX_BACKENDS e port algo out :
  create_status (lb_core_create MAX_BACKENDS e port algo out)
  = match out with
    | None => LB_ERR_INVAL
    | Some _ =>
        if negb (env_calloc_core e) then LB_ERR_NOMEM
        else if env_epoll_create1 e <? 0 then LB_ERR_SYS
        else LB_OK
    end.
Proof.
  unfold lb_core_create. destruct out as [cell|]; [|done].
  destruct (env_calloc_core e); [|done]. cbn [negb].
  destruct (env_epoll_create1 e <? 0); [done|].
  rewrite strategy_init_ok. rewrite bool_decide_eq_true_2 by done. cbn [negb].
  by destruct (lb_thread_pool_start _ _ _) as [s_tp tp].
Qed.

(** The four ways [lb_core_create] ends. *)
Lemma lb_core_create_cases MAX_BACKENDS e port algo out :
  let r := lb_core_create MAX_BACKENDS e port algo out in
  (out = None /\ r = mk_create LB_ERR_INVAL None [])
  \/ (out <> None /\ env_calloc_core e = false /\
      r = mk_create LB_ERR_NOMEM (Some None) [])
  \/ (out <> None /\ env_calloc_core e = true /\ env_epoll_create1 e < 0 /\
      r = mk_create LB_ERR_SYS (Some None) [EvFreeCore])
  \/ (out <> None /\ env_calloc_core e = true /\ 0 <= env_epoll_create1 e /\
      exists lb warnings,
        r = mk_create LB_OK (Some (Some lb))
              (warnings ++ [EvLog LB_LOG_INFO "core"
                              (MsgCoreCreated port (s_name (lb_strategy_from_algo algo)))])
        /\ Forall (fun ev => exists msg, ev = EvLog LB_LOG_WARN "core" msg) warnings).
Proof.
  intros r. subst r. unfold lb_core_create. destruct out as [cell|]; [|by left].
  destruct (env_calloc_core e); [|by right; left]. cbn [negb].
  destruct (Z.ltb_spec (env_epoll_create1 e) 0) as [Hfd|Hfd]; [by right; right; left|].
  rewrite strategy_init_ok. rewrite bool_decide_eq_true_2 by done. cbn [negb].
  destruct (lb_thread_pool_start _ _ _) as [s_tp tp].
  right; right; right. split; [done|]. split; [done|]. split; [done|].
  core_simpl. eexists _, _. rewrite (assoc_L (++)). split; [done|].
  apply Forall_app. split.
  - destruct (env_mmap e); repeat constructor. by eexists.
  - case_bool_decide; repeat constructor. by eexists.
Qed.

(** C6. The factory maps ROUNDROBIN to round-robin, LEASTCONN to
    least-connections and every other tag to the least-connections strategy,
    whose name is "leastconn".  Creation with another tag returns the status
    that creation with LEASTCONN returns, OK whenever the core is allocated
    and the notification descriptor opens; the core it returns carries the
    least-connections strategy, logs that name, and after any sequence of
    registrations selects through [strat_leastconn_select].  The strategy
    for ROUNDROBIN is named "roundrobin" and selects through
    [strat_rr_select], the one for LEASTCONN is named "leastconn" and
    selects through [strat_leastconn_select]; and a core created with any
    tag carries, after any sequence of registrations, the strategy the
    factory gives for that tag. *)
Theorem lb_strategy_from_algo_fallback :
  lb_strategy_from_algo LB_ALGO_ROUNDROBIN = STRAT_RR /\
  lb_strategy_from_algo LB_ALGO_LEASTCONN = STRAT_LEASTCONN /\
  (forall a, a <> LB_ALGO_ROUNDROBIN ->
     lb_strategy_from_algo a = STRAT_LEASTCONN /\
     s_name (lb_strategy_from_algo a) = "leastconn") /\
  (forall MAX_BACKENDS e port tag out,
     create_status (lb_core_create MAX_BACKENDS e port (LB_ALGO_OTHER tag) out)
     = create_status (lb_core_create MAX_BACKENDS e port LB_ALGO_LEASTCONN out)) /\
  (forall MAX_BACKENDS e port tag cell,
     env_calloc_core e = true -> 0 <= env_epoll_create1 e ->
     let r := lb_core_create MAX_BACKENDS e port (LB_ALGO_OTHER tag) (Some cell) in
     create_status r = LB_OK /\
     In (EvLog LB_LOG_INFO "core" (MsgCoreCreated port "leastconn")) (create_trace r) /\
     exists lb, create_out r = Some (Some lb) /\
       strategy lb = STRAT_LEASTCONN /\
       forall h calls sts h' c' hsel client,
         add_many MAX_BACKENDS h (Some lb) calls = (sts, h', Some c') ->
         strategy_select hsel c' client = (strat_leastconn_select hsel c' client, c')) /\
  (s_name (lb_strategy_from_algo LB_ALGO_ROUNDROBIN) = "roundrobin" /\
   s_select (lb_strategy_from_algo LB_ALGO_ROUNDROBIN) = Some strat_rr_select_fn /\
   s_name (lb_strategy_from_algo LB_ALGO_LEASTCONN) = "leastconn" /\
   s_select (lb_strategy_from_algo LB_ALGO_LEASTCONN) = Some strat_leastconn_select_fn) /\
  (forall h lb client,
     (strategy lb = lb_strategy_from_algo LB_ALGO_ROUNDROBIN ->
      strategy_select h lb client = strat_rr_select h lb client) /\
     (strategy lb = lb_strategy_from_algo LB_ALGO_LEASTCONN ->
      strategy_select h lb client = (strat_leastconn_select h lb client, lb))) /\
  (forall MAX_BACKENDS e port algo out lb0 h calls sts h' c',
     create_out (lb_core_create MAX_BACKENDS e port algo out) = Some (Some lb0) ->
     add_many MAX_BACKENDS h (Some lb0) calls = (sts, h', Some c') ->
     strategy c' = lb_strategy_from_algo algo).
Proof.
  split; [done|]. split; [done|]. split; [by intros [| |tag] Ha|].
  split; [intros; by rewrite !lb_core_create_status|].
  split; [|split; [done|split]].
  2:{ intros h lb client. unfold strategy_select. split; by intros ->. }
  2:{ intros MAX_BACKENDS e port algo out lb0 h calls sts h' c' Hout Hrun.
      rewrite (add_many_strategy _ _ _ _ _ _ _ Hrun).
      by destruct (lb_core_create_out _ _ _ _ _ _ Hout) as (_ & _ & _ & _ & _ & Hstrat & _). }
  intros MAX_BACKENDS e port tag cell Hcalloc Hfd r.
  destruct (lb_core_create_cases MAX_BACKENDS e port (LB_ALGO_OTHER tag) (Some cell))
    as [[? _]|[(_ & ? & _)|[(_ & _ & ? & _)|(_ & _ & _ & lb & ws & Hr & _)]]];
    [done|congruence|lia|].
  fold r in Hr. rewrite Hr. cbn [create_status create_trace create_out].
  split; [done|]. split; [apply in_or_app; right; by left|].
  exists lb. split; [done|].
  assert (create_out r = Some (Some lb)) as Hout by by rewrite Hr.
  destruct (lb_core_create_out _ _ _ _ _ _ Hout) as (_ & _ & _ & _ & _ & Hstrat & _).
  split; [done|]. intros h calls sts h' c' hsel client Hrun.
  unfold strategy_select.
  by rewrite (add_many_strategy _ _ _ _ _ _ _ Hrun), Hstrat.
Qed.

Lemma lb_strategy_from_algo_fallback_witness :
  create_status (lb_core_create 256 env_ok 8080 (LB_ALGO_OTHER 7) (Some None)) = LB_OK /\
  strategy_select other_heap other_core None = (Some 1%nat, other_core) /\
  strategy_select rr3_heap rr3_core None = (Some 0%nat, set_rr_idx 1 rr3_core).
Proof.
  destruct lb_strategy_from_algo_fallback as (_ & _ & _ & _ & H & _ & Hsel_tag & Hkeep).
  destruct (H 256 env_ok 8080 7 None) as (Hst & _ & lb & Hout & _ & Hsel).
  - reflexivity.
  - vm_compute. discriminate.
  - split; [exact Hst|]. split.
    + rewrite (Hsel [] three_calls [LB_OK; LB_OK; LB_OK]
                 (fst (scenario (LB_ALGO_OTHER 7))) other_core other_heap None).
      * vm_compute. reflexivity.
      * vm_compute in Hout. injection Hout as <-. vm_compute. reflexivity.
    + destruct (Hsel_tag rr3_heap rr3_core None) as [Hrr _].
      rewrite Hrr.
      * vm_compute. reflexivity.
      * apply (Hkeep 256 env_ok 8080 LB_ALGO_ROUNDROBIN (Some None)
                 (default (calloc_core 256) fresh_core) [] three_calls
                 [LB_OK; LB_OK; LB_OK] (fst (scenario LB_ALGO_ROUNDROBIN)) rr3_core).
        -- vm_compute. reflexivity.
        -- vm_compute. reflexivity.
Defined.

(** C10. Both strategies carry the same init callback, which returns OK on
    every core; so [lb_core_create] never takes its init-failure branch: it
    never logs "Strategy init failed", never closes the notification
    descriptor and never destroys the registry lock, and it ends with OK or
    with INVALID_ARGUMENT (null output pointer), OUT_OF_MEMORY (the core is
    not allocated) or SYSTEM (the descriptor does not open). *)
Theorem lb_core_create_init_never_fails :
  s_init STRAT_RR = Some strat_leastconn_init_fn /\
  s_init STRAT_LEASTCONN = Some strat_leastconn_init_fn /\
  (forall f lb, call_init f lb = LB_OK) /\
  (forall MAX_BACKENDS e port algo out,
     let r := lb_core_create MAX_BACKENDS e port algo out in
     (forall name,
        ~ EvLog LB_LOG_ERROR "core" (MsgStrategyInitFailed name) ∈ create_trace r) /\
     (forall fd, ~ EvClose fd ∈ create_trace r) /\
     ~ EvSpinDestroyRegistryLock ∈ create_trace r /\
     (create_status r = LB_OK
      \/ (create_status r = LB_ERR_INVAL /\ out = None)
      \/ (create_status r = LB_ERR_NOMEM /\ out <> None /\ env_calloc_core e = false)
      \/ (create_status r = LB_ERR_SYS /\ out <> None /\ env_epoll_create1 e < 0))).
Proof.
  split; [done|]. split; [done|]. split; [apply call_init_ok|].
  intros MAX_BACKENDS e port algo out r.
  destruct (lb_core_create_cases MAX_BACKENDS e port algo out)
    as [(Hout & Hr)|[(Hout & Hc & Hr)|[(Hout & Hc & Hfd & Hr)|(Hout & Hc & Hfd & lb & ws & Hr & Hws)]]];
    fold r in Hr; rewrite Hr; cbn [create_status create_trace].
  - repeat split; try (intros; apply not_elem_of_nil). right. by left.
  - repeat split; try (intros; apply not_elem_of_nil). right. right. by left.
  - repeat split; try (intros ? [=]%list_elem_of_singleton);
      try (intros [=]%list_elem_of_singleton). right. right. by right.
  - rewrite Forall_forall in Hws.
    assert (forall ev, ev ∈ ws ++ [EvLog LB_LOG_INFO "core"
                (MsgCoreCreated port (s_name (lb_strategy_from_algo algo)))] ->
              exists lvl msg, ev = EvLog lvl "core" msg /\ lvl <> LB_LOG_ERROR) as Hev.
    { intros ev [Hin|Hin%list_elem_of_singleton]%elem_of_app.
      - destruct (Hws ev Hin) as [msg ->]. by eexists _, _.
      - subst ev. by eexists _, _. }
    repeat split; try by left.
    + intros name Hin. destruct (Hev _ Hin) as (lvl & msg & [= <- _] & Hlvl). done.
    + intros fd Hin. by destruct (Hev _ Hin) as (lvl & msg & [=] & _).
    + intros Hin. by destruct (Hev _ Hin) as (lvl & msg & [=] & _).
Qed.

(** ** The selection entry point *)

(** On an empty registry, and on a null core, [lb_core_select_backend]
    yields no candidate; otherwise it is the call of the strategy. *)
Lemma lb_core_select_backend_delegates h lb client :
  lb_core_select_backend h None client = (None, None) /\
  (backend_count lb = 0 -> lb_core_select_backend h (Some lb) client = (None, Some lb)) /\
  (backend_count lb <> 0 ->
   lb_core_select_backend h (Some lb) client
   = (fst (strategy_select h lb client), Some (snd (strategy_select h lb client)))).
Proof.
  split; [done|]. unfold lb_core_select_backend. split.
  - by intros ->.
  - intros Hn. destruct (Z.eqb_spec (backend_count lb) 0); [done|].
    by destruct (strategy_select h lb client).
Qed.

(** Scenario 3 of the specification: the middle backend DOWN. *)
Example rr3_skip_down :
  fst (rr_select_many (store_state 1%nat BACKEND_DOWN rr3_heap) rr3_core 4)
  = [Some 0%nat; Some 2%nat; Some 0%nat; Some 2%nat].
Proof. vm_compute. reflexivity. Qed.

(** Scenario 2 of the specification: counters 5, 2 and 7. *)
Example leastconn_prefers_minimum :
  strat_leastconn_select other_heap other_core None = Some 1%nat
  /\ strat_leastconn_select (store_active_conns 1%nat 6 other_heap) other_core None
     = Some 0%nat.
Proof. split; vm_compute; reflexivity. Qed.

(** * Further properties of the core *)

(** ** Round-robin: what a call can return *)

Section RoundRobinSound.

Variable h : heap.

(** The loop only moves the cursor, and a backend it returns is an UP
    backend of [backends[0..count]]. *)
Lemma rr_loop_sound t : forall lb r lb',
  0 < backend_count lb ->
  rr_loop h lb t = (r, lb') ->
  lb' = set_rr_idx (rr_idx lb') lb /\
  (exists n, 0 <= n <= Z.of_nat t /\ (r = None -> n = Z.of_nat t) /\
             (r <> None -> 1 <= n) /\
             rr_idx lb' = (if n =? 0 then rr_idx lb else u32 (rr_idx lb + n))) /\
  (forall b, r = Some b ->
     backend_is_up h b = true /\
     exists i : nat, (i < Z.to_nat (backend_count lb))%nat /\ slot lb i = Some b).
Proof.
  induction t as [|t IH]; intros lb r lb' HN Hrun.
  - simpl in Hrun. injection Hrun as <- <-.
    split; [by rewrite set_rr_idx_id|]. split; [|done]. exists 0. by repeat split.
  - cbn [rr_loop fetch_add_rr_idx] in Hrun.
    pose proof (Z.mod_pos_bound (rr_idx lb) (backend_count lb) HN) as Hidx.
    assert (forall r1 lb1,
              rr_loop h (set_rr_idx (u32 (rr_idx lb + 1)) lb) t = (r1, lb1) ->
              lb1 = set_rr_idx (rr_idx lb1) lb /\
              (exists n, 0 <= n <= Z.of_nat (S t) /\ (r1 = None -> n = Z.of_nat (S t)) /\
                 (r1 <> None -> 1 <= n) /\
                 rr_idx lb1 = (if n =? 0 then rr_idx lb else u32 (rr_idx lb + n))) /\
              (forall b, r1 = Some b ->
                 backend_is_up h b = true /\
                 exists i : nat, (i < Z.to_nat (backend_count lb))%nat /\ slot lb i = Some b))
      as Hrec.
    { intros r1 lb1 Hrest.
      apply IH in Hrest as (Hlb1 & (n & Hn & Hnone & Hr1 & Hc) & Hb); [|done].
      split; [by rewrite Hlb1|]. split; [|done].
      exists (n + 1). split; [lia|]. split; [intros Hr; specialize (Hnone Hr); lia|].
      split; [lia|].
      destruct (Z.eqb_spec (n + 1) 0) as [?|_]; [lia|]. rewrite Hc.
      unfold set_rr_idx; core_simpl.
      destruct (Z.eqb_spec n 0) as [->|_]; [done|].
      rewrite u32_add_l. f_equal. lia. }
    destruct (slot lb (Z.to_nat (rr_idx lb mod backend_count lb))) as [b|] eqn:Hslot;
      [|by apply Hrec].
    destruct (backend_is_up h b) eqn:Hup; [|by apply Hrec].
    injection Hrun as <- <-. split; [done|]. split.
    + exists 1. split; [lia|]. split; [done|]. split; done.
    + intros b' [= <-]. split; [done|].
      exists (Z.to_nat (rr_idx lb mod backend_count lb)). split; [lia|done].
Qed.

(** A call that returns no candidate found no UP backend at any probe. *)
Lemma rr_loop_none t : forall lb lb',
  is_u32 (rr_idx lb) ->
  rr_loop h lb t = (None, lb') ->
  forall j, (j < t)%nat -> rr_probe h lb j = None.
Proof.
  induction t as [|t IH]; intros lb lb' Hc Hrun j Hj; [lia|].
  rewrite rr_loop_S in Hrun by done.
  destruct (rr_probe h lb 0) as [b|] eqn:H0; [done|].
  destruct j as [|j]; [done|].
  rewrite <- rr_probe_shift. eapply IH; [apply u32_range|done|lia].
Qed.

(** Without a wrap of the cursor during the call, the probes reach every
    slot of the registry. *)
Lemma rr_probe_reaches lb (i : nat) p :
  is_u32 (rr_idx lb) -> rr_idx lb + backend_count lb <= UINT32_MOD ->
  (i < Z.to_nat (backend_count lb))%nat ->
  slot lb i = Some p -> backend_is_up h p = true ->
  exists j : nat, (j < Z.to_nat (backend_count lb))%nat /\ rr_probe h lb j = Some p.
Proof.
  intros Hc Hwrap Hi Hp Hup.
  assert (0 < backend_count lb) as HN by lia.
  pose proof (Z.mod_pos_bound (Z.of_nat i - rr_idx lb) (backend_count lb) HN) as Hj.
  exists (Z.to_nat ((Z.of_nat i - rr_idx lb) mod backend_count lb)). split; [lia|].
  unfold rr_probe. rewrite Z2Nat.id by lia.
  rewrite u32_id by (unfold is_u32 in *; lia).
  rewrite Zplus_mod_idemp_r.
  replace (rr_idx lb + (Z.of_nat i - rr_idx lb)) with (Z.of_nat i) by lia.
  rewrite Z.mod_small by lia. by rewrite Nat2Z.id, Hp, Hup.
Qed.

(** X1. [strat_rr_select] changes nothing in the core but the cursor; on a
    non-empty registry the cursor advances by at least 1 and at most [count]
    (modulo 2^32); and a backend it returns is UP and is one of
    [backends[0..count]]. *)
Theorem strat_rr_select_sound lb client r lb' :
  strat_rr_select h lb client = (r, lb') ->
  lb' = set_rr_idx (rr_idx lb') lb /\
  (backend_count lb = 0 -> r = None /\ lb' = lb) /\
  (0 < backend_count lb ->
     exists n, 1 <= n <= backend_count lb /\ rr_idx lb' = u32 (rr_idx lb + n)) /\
  (forall b, r = Some b ->
     backend_is_up h b = true /\
     exists i : nat, (i < Z.to_nat (backend_count lb))%nat /\ slot lb i = Some b).
Proof.
  unfold strat_rr_select. intros Hrun.
  destruct (Z.eqb_spec (backend_count lb) 0) as [H0|H0].
  - injection Hrun as <- <-. split; [by rewrite set_rr_idx_id|].
    split; [done|]. split; [lia|done].
  - destruct (Z_lt_le_dec 0 (backend_count lb)) as [HN|HN].
    + destruct (rr_loop_sound _ _ _ _ HN Hrun)
        as (Hlb' & (n & Hn & Hnone & Hsome & Hc) & Hb).
      split; [done|]. split; [done|]. split; [|done].
      intros _. exists n.
      assert (1 <= n) as Hn1.
      { destruct r as [b|]; [by apply Hsome|]. rewrite Hnone by done. lia. }
      split; [lia|]. by destruct (Z.eqb_spec n 0) as [?|_]; [lia|].
    + replace (Z.to_nat (backend_count lb)) with 0%nat in Hrun by lia.
      simpl in Hrun. injection Hrun as <- <-. split; [by rewrite set_rr_idx_id|].
      split; [done|]. split; [lia|done].
Qed.

(** Without a wrap of the cursor during the call, a registry with an UP
    backend yields an UP backend of the registry. *)
Lemma rr_select_reaches lb client (i : nat) p :
  is_u32 (rr_idx lb) -> rr_idx lb + backend_count lb <= UINT32_MOD ->
  (i < Z.to_nat (backend_count lb))%nat ->
  slot lb i = Some p -> backend_is_up h p = true ->
  exists b (i' : nat),
    fst (strat_rr_select h lb client) = Some b /\ backend_is_up h b = true /\
    (i' < Z.to_nat (backend_count lb))%nat /\ slot lb i' = Some b.
Proof.
  intros Hc Hwrap Hi Hp Hup.
  destruct (rr_probe_reaches lb i p Hc Hwrap Hi Hp Hup) as (j & Hj & Hprobe).
  assert (0 < backend_count lb) as HN by lia.
  unfold strat_rr_select.
  destruct (Z.eqb_spec (backend_count lb) 0) as [?|_]; [lia|].
  destruct (rr_loop h lb (Z.to_nat (backend_count lb))) as [[b|] lb'] eqn:Hrun.
  - destruct (rr_loop_sound _ _ _ _ HN Hrun) as (_ & _ & Hb).
    destruct (Hb b eq_refl) as (Hbup & i' & Hi' & Hslot). by exists b, i'.
  - pose proof (rr_loop_none _ _ _ Hc Hrun j Hj) as Hnone. congruence.
Qed.

(** X2. When the 32-bit cursor does not wrap during the call
    ([rr_idx + count <= 2^32]) and some backend of [backends[0..count]] is
    UP, [strat_rr_select] returns an UP backend; it is that backend when no
    other backend of the registry is UP. *)
Theorem strat_rr_select_finds_up lb client (i : nat) p :
  is_u32 (rr_idx lb) -> rr_idx lb + backend_count lb <= UINT32_MOD ->
  (i < Z.to_nat (backend_count lb))%nat ->
  slot lb i = Some p -> backend_is_up h p = true ->
  exists b,
    fst (strat_rr_select h lb client) = Some b /\ backend_is_up h b = true /\
    ((forall (i' : nat) q, (i' < Z.to_nat (backend_count lb))%nat ->
        slot lb i' = Some q -> backend_is_up h q = true -> q = p) ->
     b = p).
Proof.
  intros Hc Hwrap Hi Hp Hup.
  destruct (rr_select_reaches lb client i p Hc Hwrap Hi Hp Hup)
    as (b & i' & Hb & Hbup & Hi' & Hslot).
  exists b. split; [done|]. split; [done|]. intros Honly. by eapply Honly.
Qed.

End RoundRobinSound.

Lemma strat_rr_select_sound_witness :
  exists n, 1 <= n <= 3 /\ u32 (1 + n) = 3.
Proof.
  destruct (strat_rr_select_sound (store_state 1%nat BACKEND_DOWN rr3_heap)
              (set_rr_idx 1 rr3_core) None (Some 2%nat) (set_rr_idx 3 rr3_core))
    as (_ & _ & Hn & _).
  - vm_compute. reflexivity.
  - destruct Hn as (n & Hb & Hc); [vm_compute; reflexivity|].
    exists n. split; [exact Hb | exact (eq_sym Hc)].
Defined.

Lemma strat_rr_select_finds_up_witness :
  exists b,
    fst (strat_rr_select (store_state 1%nat BACKEND_DOWN
                            (store_state 0%nat BACKEND_DOWN rr3_heap))
                         rr3_core None) = Some b
    /\ backend_is_up (store_state 1%nat BACKEND_DOWN
                        (store_state 0%nat BACKEND_DOWN rr3_heap)) b = true.
Proof.
  destruct (strat_rr_select_finds_up
              (store_state 1%nat BACKEND_DOWN (store_state 0%nat BACKEND_DOWN rr3_heap))
              rr3_core None 2%nat 2%nat) as (b & Hb & Hup & _).
  - unfold is_u32, UINT32_MOD. vm_compute. split; [discriminate|reflexivity].
  - vm_compute. discriminate.
  - vm_compute. lia.
  - vm_compute. reflexivity.
  - vm_compute. reflexivity.
  - exists b. split; [exact Hb|exact Hup].
Defined.

(** ** Least connections: the backend returned *)

Lemma up_at_is_up h lb i p c : up_at h lb i p c -> backend_is_up h p = true.
Proof.
  intros [_ (bk & Hbk & Hst & _)]. unfold backend_is_up.
  by rewrite Hbk, bool_decide_eq_true_2.
Qed.

Lemma is_up_up_at h lb (i : nat) p :
  slot lb i = Some p -> backend_is_up h p = true -> exists c, up_at h lb i p c.
Proof.
  unfold backend_is_up, up_at. intros Hp Hup.
  destruct (h !! p) as [bk|] eqn:Hbk; [|done].
  apply bool_decide_eq_true_1 in Hup. exists (b_active_conns bk). by eauto.
Qed.

(** X3. [strat_leastconn_select] returns [p] exactly when [p] is the first
    backend of [backends[0..count]] that is UP with the least counter among
    the UP backends, and that counter is below [UINT32_MAX]; it returns no
    candidate exactly when no UP backend has a counter below [UINT32_MAX]. *)
Theorem strat_leastconn_select_iff h lb client :
  (forall p,
     strat_leastconn_select h lb client = Some p <->
     exists (i : nat) c,
       (i < Z.to_nat (backend_count lb))%nat /\ up_at h lb i p c /\
       c < UINT32_MAX /\
       (forall (j : nat) q d,
          (j < Z.to_nat (backend_count lb))%nat -> up_at h lb j q d -> c <= d) /\
       (forall (j : nat) q d, (j < i)%nat -> up_at h lb j q d -> c < d)) /\
  (strat_leastconn_select h lb client = None <->
   forall (i : nat) p c,
     (i < Z.to_nat (backend_count lb))%nat -> up_at h lb i p c -> UINT32_MAX <= c).
Proof.
  pose proof (strat_leastconn_select_min h lb client) as Hmin. split.
  - intros p. split.
    + intros Hsel. by rewrite Hsel in Hmin.
    + intros (i & c & Hi & Hup & Hc & Hleast & Hfirst).
      destruct (strat_leastconn_select h lb client) as [p'|].
      * destruct Hmin as (i' & c' & Hi' & Hup' & _ & Hleast' & Hfirst').
        pose proof (Hleast i' p' c' Hi' Hup'). pose proof (Hleast' i p c Hi Hup).
        destruct (Nat.lt_trichotomy i i') as [Hlt|[->|Hgt]].
        -- specialize (Hfirst' i p c Hlt Hup). lia.
        -- by destruct (up_at_functional _ _ _ _ _ _ _ Hup' Hup) as [-> _].
        -- specialize (Hfirst i' p' c' Hgt Hup'). lia.
      * specialize (Hmin i p c Hi Hup). lia.
  - split.
    + intros Hsel. by rewrite Hsel in Hmin.
    + intros Hall. destruct (strat_leastconn_select h lb client) as [p|]; [|done].
      destruct Hmin as (i & c & Hi & Hup & Hc & _). specialize (Hall i p c Hi Hup). lia.
Qed.

(** ** Selection through the strategy of a core *)

Lemma strat_rr_select_no_up h lb client :
  (forall (i : nat) p, (i < Z.to_nat (backend_count lb))%nat ->
     slot lb i = Some p -> backend_is_up h p = false) ->
  fst (strat_rr_select h lb client) = None.
Proof.
  intros Hno. destruct (strat_rr_select h lb client) as [[b|] lb'] eqn:Hrun; [|done].
  unfold strat_rr_select in Hrun.
  destruct (Z.eqb_spec (backend_count lb) 0) as [?|Hn]; [done|].
  destruct (Z_lt_le_dec 0 (backend_count lb)) as [HN|HN].
  - destruct (rr_loop_sound _ _ _ _ _ HN Hrun) as (_ & _ & Hb).
    destruct (Hb b eq_refl) as (Hup & i & Hi & Hslot).
    rewrite (Hno i b Hi Hslot) in Hup. done.
  - replace (Z.to_nat (backend_count lb)) with 0%nat in Hrun by lia. done.
Qed.

Lemma strategy_select_no_up h lb a client :
  strategy lb = lb_strategy_from_algo a ->
  (forall (i : nat) p, (i < Z.to_nat (backend_count lb))%nat ->
     slot lb i = Some p -> backend_is_up h p = false) ->
  fst (strategy_select h lb client) = None.
Proof.
  intros Hs Hno. unfold strategy_select. rewrite Hs.
  assert (strat_leastconn_select h lb client = None) as Hlc.
  { apply strat_leastconn_select_no_up. intros i p c Hi Hup.
    pose proof (up_at_is_up _ _ _ _ _ Hup) as Hp. destruct Hup as [Hslot _].
    rewrite (Hno i p Hi Hslot) in Hp. done. }
  destruct a; cbn [lb_strategy_from_algo s_select STRAT_RR STRAT_LEASTCONN call_select fst];
    [by apply strat_rr_select_no_up|done|done].
Qed.

(** X4. Whatever the algorithm a core was created for, when no backend of
    [backends[0..count]] is UP its strategy returns no candidate (and so does
    the selection entry point). *)
Theorem select_no_up_no_candidate h lb a client :
  strategy lb = lb_strategy_from_algo a ->
  (forall (i : nat) p, (i < Z.to_nat (backend_count lb))%nat ->
     slot lb i = Some p -> backend_is_up h p = false) ->
  fst (strategy_select h lb client) = None /\
  fst (lb_core_select_backend h (Some lb) client) = None.
Proof.
  intros Hs Hno. pose proof (strategy_select_no_up h lb a client Hs Hno) as Hsel.
  split; [done|]. unfold lb_core_select_backend.
  destruct (backend_count lb =? 0); [done|].
  by destruct (strategy_select h lb client).
Qed.

Lemma select_no_up_no_candidate_witness :
  fst (strategy_select (fst (scenario LB_ALGO_ROUNDROBIN)) rr3_core None) = None.
Proof.
  apply (select_no_up_no_candidate (fst (scenario LB_ALGO_ROUNDROBIN)) rr3_core
           LB_ALGO_ROUNDROBIN None).
  - vm_compute. reflexivity.
  - intros i p Hi Hp. vm_compute in Hi.
    destruct i as [|[|[|i]]]; [| | |lia];
      vm_compute in Hp; injection Hp as <-; vm_compute; reflexivity.
Defined.

(** ** Registration and selection together *)

Lemma run_add_frame MAX_BACKENDS h c a :
  exists c1, add_core (run_add MAX_BACKENDS h (Some c) a) = Some c1 /\
             c1 = set_registry (backend_count c1) (backends c1) c.
Proof.
  assert (c = set_registry (backend_count c) (backends c) c) as Hid by by destruct c.
  unfold run_add, lb_core_add_backend.
  destruct (ac_host a); [|by exists c].
  destruct (ac_port a =? 0); [by exists c|].
  destruct (MAX_BACKENDS <=? backend_count c); [by exists c|].
  destruct (ac_calloc_ok a); [|by exists c]. by eexists.
Qed.

(** A sequence of registrations changes the count and the slots of the core
    and nothing else. *)
Lemma add_many_frame MAX_BACKENDS calls : forall h c sts h' c',
  add_many MAX_BACKENDS h (Some c) calls = (sts, h', Some c') ->
  c' = set_registry (backend_count c') (backends c') c.
Proof.
  induction calls as [|a calls IH]; intros h c sts h' c' Hrun.
  - simpl in Hrun. injection Hrun as <- <- <-. by destruct c.
  - rewrite add_many_cons in Hrun. cbv zeta in Hrun.
    destruct (run_add_frame MAX_BACKENDS h c a) as (c1 & Hc1 & Hframe).
    rewrite Hc1 in Hrun.
    destruct (add_many MAX_BACKENDS _ _ calls) as [[sts1 h1] lb1] eqn:Hrest.
    injection Hrun as <- <- ->. apply IH in Hrest. rewrite Hrest, Hframe. done.
Qed.

(** The registry of a new core after a sequence of registrations. *)
Lemma created_registry_layout MAX_BACKENDS e port algo out lb0 h0 calls sts h' c' :
  0 <= MAX_BACKENDS <= UINT32_MAX ->
  create_out (lb_core_create MAX_BACKENDS e port algo out) = Some (Some lb0) ->
  add_many MAX_BACKENDS h0 (Some lb0) calls = (sts, h', Some c') ->
  backend_count c' = Z.of_nat (count_ok sts) /\
  Z.of_nat (count_ok sts) <= MAX_BACKENDS /\
  length (backends c') = Z.to_nat MAX_BACKENDS /\
  length (ok_calls calls sts) = count_ok sts /\
  h' = h0 ++ (backend_of_call <$> ok_calls calls sts) /\
  (forall k : nat, (k < count_ok sts)%nat -> slot c' k = Some (length h0 + k)%nat) /\
  rr_idx c' = 0 /\
  strategy c' = lb_strategy_from_algo algo.
Proof.
  intros [HM0 HM] Hout Hrun.
  pose proof (lb_core_create_wf _ _ _ _ _ _ HM0 Hout) as Hwf.
  destruct (lb_core_create_out _ _ _ _ _ _ Hout) as (_ & H0 & _ & Hrr & _ & Hstrat & _).
  destruct (add_many_spec _ HM _ _ _ _ _ _ Hwf Hrun)
    as (c'' & [= <-] & [Hn Hlen'] & Hlen & Hh & Hcount & _ & Hnew).
  pose proof (add_many_frame _ _ _ _ _ _ _ Hrun) as Hframe.
  rewrite H0 in *. rewrite (count_ok_ok_calls _ _ Hlen) in *.
  rewrite Z.add_0_l in Hcount.
  split; [done|]. split; [lia|]. split; [done|]. split; [done|]. split; [done|].
  split; [intros k Hk; apply (Hnew k Hk)|].
  rewrite Hframe. unfold set_registry. core_simpl. done.
Qed.

Lemma backend_of_call_down a :
  b_state (backend_of_call a) = BACKEND_DOWN /\ b_active_conns (backend_of_call a) = 0.
Proof. done. Qed.

(** X5. A backend is registered DOWN: on a new core, after any sequence of
    registrations and before any backend is marked UP, the strategy of the
    core returns no candidate, whatever the algorithm. *)
Theorem registered_backends_start_down MAX_BACKENDS e port algo out lb0 calls sts h' c' client :
  0 <= MAX_BACKENDS <= UINT32_MAX ->
  create_out (lb_core_create MAX_BACKENDS e port algo out) = Some (Some lb0) ->
  add_many MAX_BACKENDS [] (Some lb0) calls = (sts, h', Some c') ->
  Forall (fun b => b_state b = BACKEND_DOWN) h' /\
  fst (strategy_select h' c' client) = None.
Proof.
  intros HM Hout Hrun.
  destruct (created_registry_layout _ _ _ _ _ _ _ _ _ _ _ HM Hout Hrun)
    as (_ & _ & _ & _ & Hh & _ & _ & Hstrat).
  assert (Forall (fun b => b_state b = BACKEND_DOWN) h') as Hdown.
  { rewrite Hh, app_nil_l. apply Forall_fmap, Forall_true. intros a. apply backend_of_call_down. }
  split; [done|]. apply (strategy_select_no_up _ _ algo); [done|].
  intros i p _ _. unfold backend_is_up.
  destruct (h' !! p) as [bk|] eqn:Hbk; [|done].
  rewrite Forall_forall in Hdown.
  rewrite (Hdown bk) by by eapply list_elem_of_lookup_2. done.
Qed.

Lemma registered_backends_start_down_witness :
  fst (strategy_select (fst (scenario LB_ALGO_LEASTCONN))
         (default (calloc_core 256) (snd (scenario LB_ALGO_LEASTCONN))) None) = None.
Proof.
  eapply (registered_backends_start_down 256 env_ok 8080 LB_ALGO_LEASTCONN (Some None)
            _ three_calls [LB_OK; LB_OK; LB_OK]).
  - unfold UINT32_MAX. lia.
  - vm_compute. reflexivity.
  - vm_compute. reflexivity.
Defined.



(** ** One registration: failure and success *)

(** X7. A call of [lb_core_add_backend] that does not return OK leaves the
    heap and the core as they were and logs nothing.  It returns
    LIMIT_EXCEEDED exactly when the arguments pass validation and the count
    has reached [MAX_BACKENDS], OUT_OF_MEMORY exactly when moreover there is
    room and the allocation fails, and OK exactly when the arguments pass
    validation, there is room and the allocation succeeds. *)
Theorem lb_core_add_backend_failure MAX_BACKENDS calloc_ok h lb host port weight :
  let r := lb_core_add_backend MAX_BACKENDS calloc_ok h lb host port weight in
  let valid := exists c hs, lb = Some c /\ host = Some hs /\ port <> 0 in
  let count := default 0 (backend_count <$> lb) in
  (add_status r <> LB_OK -> add_heap r = h /\ add_core r = lb /\ add_log r = []) /\
  (add_status r = LB_ERR_LIMIT <-> valid /\ MAX_BACKENDS <= count) /\
  (add_status r = LB_ERR_NOMEM <-> valid /\ count < MAX_BACKENDS /\ calloc_ok = false) /\
  (add_status r = LB_OK <-> valid /\ count < MAX_BACKENDS /\ calloc_ok = true) /\
  add_status r <> LB_ERR_SYS /\ add_status r <> LB_ERR_STATE /\ add_status r <> LB_ERR_EMPTY.
Proof.
  intros r valid count. subst r valid count. unfold lb_core_add_backend.
  destruct lb as [c|]; cbn [fmap option_fmap option_map default id].
  2:{ repeat split; try done; try (intros [(c0 & hs0 & ? & _) _]; done);
        intros (c0 & hs0 & ? & _); done. }
  destruct host as [hs|].
  2:{ repeat split; try done; try (intros [(c0 & hs0 & _ & ? & _) _]; done);
        intros (c0 & hs0 & _ & ? & _); done. }
  assert (port <> 0 -> exists c0 hs0, Some c = Some c0 /\ Some hs = Some hs0 /\ port <> 0)
    as Hvalid by (intros ?; by exists c, hs).
  destruct (Z.eqb_spec port 0) as [->|Hport].
  { repeat split; try done; try (intros [(c0 & hs0 & _ & _ & ?) _]; done);
      intros (c0 & hs0 & _ & _ & ?); done. }
  destruct (Z.leb_spec MAX_BACKENDS (backend_count c)) as [Hfull|Hroom].
  { repeat split; try done; try (by apply Hvalid); try (intros [_ [? _]]; lia). }
  destruct calloc_ok; cbn [negb add_status add_heap add_core add_log].
  - repeat split; try done; try (by apply Hvalid); try (intros [_ ?]; lia);
      try (intros (_ & _ & ?); done).
  - repeat split; try done; try (by apply Hvalid); try (intros [_ ?]; lia);
      try (intros (_ & _ & ?); done).
Qed.

Lemma lb_core_add_backend_failure_witness :
  let r := lb_core_add_backend 256 false [] fresh_core (Some (c_lit "10.0.0.1")) 80 1 in
  add_status r = LB_ERR_NOMEM /\ add_heap r = [] /\ add_core r = fresh_core /\ add_log r = [].
Proof.
  intros r.
  destruct (lb_core_add_backend_failure 256 false [] fresh_core
              (Some (c_lit "10.0.0.1")) 80 1) as (Hfail & _ & Hnomem & _).
  assert (add_status r = LB_ERR_NOMEM) as Hst.
  { apply Hnomem. split; [|split; [vm_compute|]; reflexivity].
    eexists _, _. split; [vm_compute; reflexivity|]. split; [reflexivity|discriminate]. }
  split; [exact Hst|]. apply Hfail. fold r. rewrite Hst. discriminate.
Defined.

(** X8. A call of [lb_core_add_backend] that returns OK on a registry within
    its capacity appends one object to the heap and changes no older object;
    the new backend has the port given, state DOWN, no active connection, no
    socket ([sockfd = -1]) and an initialised lock; its address is published
    in slot [count], the count grows by one, every other slot keeps its
    content, and nothing else of the core (cursor, strategy, configuration)
    changes. *)
Theorem lb_core_add_backend_success MAX_BACKENDS calloc_ok h c host port weight :
  MAX_BACKENDS <= UINT32_MAX -> registry_wf MAX_BACKENDS c ->
  let r := lb_core_add_backend MAX_BACKENDS calloc_ok h (Some c) host port weight in
  add_status r = LB_OK ->
  exists b c',
    add_heap r = h ++ [b] /\ add_core r = Some c' /\
    b_port b = port /\ b_state b = BACKEND_DOWN /\ b_active_conns b = 0 /\
    b_sockfd b = -1 /\ b_lock b = true /\
    backend_count c' = backend_count c + 1 /\
    slot c' (Z.to_nat (backend_count c)) = Some (length h) /\
    (forall i : nat, i <> Z.to_nat (backend_count c) -> slot c' i = slot c i) /\
    c' = set_registry (backend_count c') (backends c') c /\
    registry_wf MAX_BACKENDS c'.
Proof.
  intros HM [Hn Hlen] r Hst. subst r. unfold lb_core_add_backend in *.
  destruct host as [hs|]; [|done].
  destruct (port =? 0); [done|].
  destruct (Z.leb_spec MAX_BACKENDS (backend_count c)) as [?|Hroom]; [done|].
  destruct calloc_ok; [|done]. cbn [negb add_heap add_core].
  assert (u32 (backend_count c + 1) = backend_count c + 1) as Hu.
  { apply u32_id. unfold is_u32, UINT32_MOD, UINT32_MAX in *. lia. }
  eexists _, _. split; [done|]. split; [done|].
  rewrite Hu. unfold set_registry, slot, registry_wf; core_simpl.
  repeat split; try done; try lia.
  - by rewrite list_lookup_insert_eq by lia.
  - intros i Hi. by rewrite list_lookup_insert_ne by done.
  - by rewrite length_insert.
Qed.

Lemma lb_core_add_backend_success_witness :
  let r := lb_core_add_backend 256 true [] fresh_core (Some (c_lit "10.0.0.1")) 80 1 in
  exists b c', add_heap r = [b] /\ add_core r = Some c' /\ b_state b = BACKEND_DOWN /\
               backend_count c' = 1 /\ slot c' 0 = Some 0%nat.
Proof.
  intros r.
  destruct (lb_core_add_backend_success 256 true [] (default (calloc_core 256) fresh_core)
              (Some (c_lit "10.0.0.1")) 80 1)
    as (b & c' & Hh & Hc & _ & Hst & _ & _ & _ & Hn & Hslot & _).
  - unfold UINT32_MAX. lia.
  - split; vm_compute; [split; discriminate | reflexivity].
  - vm_compute. reflexivity.
  - exists b, c'. split; [exact Hh|]. split; [exact Hc|]. split; [exact Hst|].
    split; [exact Hn | exact Hslot].
Defined.

(** Registrations leave the slots from [count] on null. *)
Lemma add_many_null_tail MAX_BACKENDS calls : forall h c sts h' c',
  MAX_BACKENDS <= UINT32_MAX -> registry_wf MAX_BACKENDS c ->
  (forall i : nat, (Z.to_nat (backend_count c) <= i)%nat -> slot c i = None) ->
  add_many MAX_BACKENDS h (Some c) calls = (sts, h', Some c') ->
  forall i : nat, (Z.to_nat (backend_count c') <= i)%nat -> slot c' i = None.
Proof.
  induction calls as [|a calls IH]; intros h c sts h' c' HM Hwf Hnull Hrun.
  - simpl in Hrun. by injection Hrun as <- <- <-.
  - rewrite add_many_cons in Hrun. cbv zeta in Hrun.
    pose proof (run_add_cases MAX_BACKENDS HM h c a Hwf) as Hcases. cbv zeta in Hcases.
    remember (run_add MAX_BACKENDS h (Some c) a) as r eqn:Hr. clear Hr.
    destruct Hcases as [(_ & Hroom & Hheap & Hcore)|(_ & Hheap & Hcore)];
      rewrite Hheap, Hcore in Hrun;
      destruct (add_many MAX_BACKENDS _ _ calls) as [[sts1 h1] lb1] eqn:Hrest;
      injection Hrun as <- <- ->.
    + destruct Hwf as [Hn Hl]. eapply IH; [done| | |done].
      * split; unfold set_registry; core_simpl; [lia|by rewrite length_insert].
      * intros i Hi. unfold set_registry, slot in *; core_simpl.
        rewrite list_lookup_insert_ne by lia. apply Hnull. lia.
    + by eapply IH.
Qed.

(** X9. On a new core the registry never outgrows its array: after any
    sequence of registrations the count is at most [MAX_BACKENDS], the array
    still has [MAX_BACKENDS] slots, at most [MAX_BACKENDS] calls returned OK,
    and the slots from [count] on are still null. *)
Theorem registry_within_capacity MAX_BACKENDS e port algo out lb0 h0 calls sts h' c' :
  0 <= MAX_BACKENDS <= UINT32_MAX ->
  create_out (lb_core_create MAX_BACKENDS e port algo out) = Some (Some lb0) ->
  add_many MAX_BACKENDS h0 (Some lb0) calls = (sts, h', Some c') ->
  0 <= backend_count c' <= MAX_BACKENDS /\
  length (backends c') = Z.to_nat MAX_BACKENDS /\
  Z.of_nat (count_ok sts) <= MAX_BACKENDS /\
  (forall i : nat, (Z.to_nat (backend_count c') <= i)%nat -> slot c' i = None).
Proof.
  intros HM Hout Hrun.
  destruct (created_registry_layout _ _ _ _ _ _ _ _ _ _ _ HM Hout Hrun)
    as (Hcount & Hcap & Hlen & _).
  split; [lia|]. split; [done|]. split; [done|].
  destruct (lb_core_create_out _ _ _ _ _ _ Hout) as (_ & H0 & Hbs & _).
  destruct HM as [HM0 HM].
  eapply (add_many_null_tail _ _ _ _ _ _ _ HM); [|  |exact Hrun].
  - by eapply lb_core_create_wf.
  - intros i _. unfold slot. rewrite Hbs.
    destruct (replicate (Z.to_nat MAX_BACKENDS) None !! i) as [x|] eqn:Hx; [|done].
    by apply lookup_replicate in Hx as [-> _].
Qed.

Lemma registry_within_capacity_witness :
  let c := default (calloc_core 256) (snd full_registry) in
  0 <= backend_count c <= 256 /\ length (backends c) = 256%nat.
Proof.
  intros c.
  destruct (registry_within_capacity 256 env_ok 8080 LB_ALGO_ROUNDROBIN (Some None)
              (default (calloc_core 256) fresh_core) []
              (replicate 256 (mk_call true (Some (c_lit "10.0.0.1")) 80 1))
              (fst (fst full_registry)) (snd (fst full_registry)) c)
    as (Hn & Hlen & _).
  - unfold UINT32_MAX. lia.
  - vm_compute. reflexivity.
  - vm_compute. reflexivity.
  - split; [exact Hn | exact Hlen].
Defined.

(** ** Creation: the arena and the worker pool *)

(** The result of a creation that gets its memory and its descriptor. *)
Lemma lb_core_create_ok_eq MAX_BACKENDS e port algo cell :
  env_calloc_core e = true -> 0 <= env_epoll_create1 e ->
  exists lb tr,
    lb_core_create MAX_BACKENDS e port algo (Some cell) = mk_create LB_OK (Some (Some lb)) tr /\
    lb_port lb = port /\ lb_running lb = false /\ epfd lb = env_epoll_create1 e /\
    backends_lock lb = true /\
    mem lb = env_mmap e /\ mem_size lb = (if env_mmap e then 67108864 else 0) /\
    tpool lb
    = default zero_tpool
        (snd (lb_thread_pool_start (env_calloc_threads e) (Some zero_tpool)
                (u32 (if 0 <? env_sysconf_nproc e then env_sysconf_nproc e else 1)))) /\
    tr = (if env_mmap e then [] else [EvLog LB_LOG_WARN "core" MsgMemPoolDisabled])
         ++ (if negb (bool_decide
                        (fst (lb_thread_pool_start (env_calloc_threads e) (Some zero_tpool)
                                (u32 (if 0 <? env_sysconf_nproc e
                                      then env_sysconf_nproc e else 1))) = LB_OK))
             then [EvLog LB_LOG_WARN "core"
                     (MsgThreadPoolNotStarted
                        (lb_status_str
                           (fst (lb_thread_pool_start (env_calloc_threads e) (Some zero_tpool)
                                   (u32 (if 0 <? env_sysconf_nproc e
                                         then env_sysconf_nproc e else 1))))))]
             else [])
         ++ [EvLog LB_LOG_INFO "core"
               (MsgCoreCreated port (s_name (lb_strategy_from_algo algo)))].
Proof.
  intros Hcalloc Hfd. unfold lb_core_create. rewrite Hcalloc. cbn [negb].
  destruct (Z.ltb_spec (env_epoll_create1 e) 0); [lia|].
  rewrite strategy_init_ok, bool_decide_eq_true_2 by done. cbn [negb]. core_simpl.
  destruct (lb_thread_pool_start _ _ _) as [s_tp tp]. cbn [fst snd].
  eexists _, _. split; [reflexivity|]. core_simpl. by repeat split.
Qed.

(** X10. A failure to map the memory pool does not fail the creation: when
    the core is allocated and the notification descriptor opens,
    [lb_core_create] returns OK whatever [mmap] answers; the core records
    the pool as present with 64 MiB or as absent with size 0, and the
    warning "Memory pool disabled" is logged exactly when it is absent. *)
Theorem lb_core_create_arena MAX_BACKENDS e port algo cell :
  env_calloc_core e = true -> 0 <= env_epoll_create1 e ->
  let r := lb_core_create MAX_BACKENDS e port algo (Some cell) in
  create_status r = LB_OK /\
  exists lb, create_out r = Some (Some lb) /\
    mem lb = env_mmap e /\
    (mem lb = true -> mem_size lb = 64 * 1024 * 1024) /\
    (mem lb = false -> mem_size lb = 0) /\
    (EvLog LB_LOG_WARN "core" MsgMemPoolDisabled ∈ create_trace r <-> mem lb = false).
Proof.
  intros Hcalloc Hfd r.
  destruct (lb_core_create_ok_eq MAX_BACKENDS e port algo cell Hcalloc Hfd)
    as (lb & tr & Hr & _ & _ & _ & _ & Hmem & Hsize & _ & Htr).
  fold r in Hr. rewrite Hr. cbn [create_status create_out create_trace].
  split; [done|]. exists lb. split; [done|]. split; [done|].
  rewrite Hsize, Hmem. split; [by intros ->|]. split; [by intros ->|].
  rewrite Htr. destruct (env_mmap e).
  - split; [|done]. cbn [app]. intros [Hin|Hin]%elem_of_app.
    + destruct (negb _); [|by apply elem_of_nil in Hin].
      by apply list_elem_of_singleton in Hin.
    + by apply list_elem_of_singleton in Hin.
  - split; [done|]. intros _. apply elem_of_app. left. by apply list_elem_of_singleton.
Qed.

Lemma lb_core_create_arena_witness :
  let r := lb_core_create 256 (mk_env true 3 false 4 true) 8080 LB_ALGO_ROUNDROBIN (Some None) in
  create_status r = LB_OK /\
  exists lb, create_out r = Some (Some lb) /\ mem lb = false /\ mem_size lb = 0.
Proof.
  intros r.
  destruct (lb_core_create_arena 256 (mk_env true 3 false 4 true) 8080
              LB_ALGO_ROUNDROBIN None) as (Hst & lb & Hout & Hmem & _ & Hsize & _).
  - reflexivity.
  - simpl. lia.
  - split; [exact Hst|]. exists lb. split; [exact Hout|]. split; [exact Hmem|].
    apply Hsize. exact Hmem.
Defined.

(** X11. The worker pool of a created core: it is started with as many
    workers as there are online processors when that number is positive
    (and fits 32 bits), and with one worker when [sysconf] reports none or
    fails; when its array cannot be allocated the creation still returns OK,
    logs "Thread-pool not started: NOMEM" and leaves the pool stopped. *)
Theorem lb_core_create_pool MAX_BACKENDS e port algo cell :
  env_calloc_core e = true -> 0 <= env_epoll_create1 e ->
  env_sysconf_nproc e < UINT32_MOD ->
  let r := lb_core_create MAX_BACKENDS e port algo (Some cell) in
  let n := if 0 <? env_sysconf_nproc e then env_sysconf_nproc e else 1 in
  create_status r = LB_OK /\
  exists lb, create_out r = Some (Some lb) /\
    1 <= n /\
    (env_calloc_threads e = true ->
       tpool lb = mk_tpool (Some n) n true /\
       forall st, EvLog LB_LOG_WARN "core" (MsgThreadPoolNotStarted st) ∉ create_trace r) /\
    (env_calloc_threads e = false ->
       tpool lb = mk_tpool None 0 false /\
       EvLog LB_LOG_WARN "core" (MsgThreadPoolNotStarted "NOMEM") ∈ create_trace r).
Proof.
  intros Hcalloc Hfd Hcpu r n.
  destruct (lb_core_create_ok_eq MAX_BACKENDS e port algo cell Hcalloc Hfd)
    as (lb & tr & Hr & _ & _ & _ & _ & _ & _ & Htp & Htr).
  fold r in Hr. rewrite Hr. cbn [create_status create_out create_trace].
  split; [done|]. exists lb. split; [done|].
  assert (1 <= n /\ u32 n = n) as [Hn Hu].
  { subst n. destruct (Z.ltb_spec 0 (env_sysconf_nproc e)).
    - split; [lia|]. apply u32_id. unfold is_u32. lia.
    - done. }
  fold n in Htp, Htr. rewrite Hu in Htp, Htr. split; [done|].
  unfold lb_thread_pool_start in Htp, Htr.
  destruct (Z.eqb_spec n 0) as [?|_]; [lia|].
  split; intros Hth; rewrite Hth in Htp, Htr; cbn [negb fst snd default] in Htp, Htr.
  - split; [done|]. intros st Hin. rewrite Htr in Hin.
    rewrite bool_decide_eq_true_2 in Hin by done. cbn [negb app] in Hin.
    apply elem_of_app in Hin as [Hin|Hin].
    + destruct (env_mmap e); [by apply elem_of_nil in Hin|].
      by apply list_elem_of_singleton in Hin.
    + by apply list_elem_of_singleton in Hin.
  - split; [done|]. rewrite Htr.
    apply elem_of_app. right. apply elem_of_app. left.
    rewrite bool_decide_eq_false_2 by done. by apply list_elem_of_singleton.
Qed.

Lemma lb_core_create_pool_witness :
  let r := lb_core_create 256 (mk_env true 3 true (-1) true) 8080 LB_ALGO_ROUNDROBIN (Some None) in
  exists lb, create_out r = Some (Some lb) /\ tpool lb = mk_tpool (Some 1) 1 true.
Proof.
  intros r.
  destruct (lb_core_create_pool 256 (mk_env true 3 true (-1) true) 8080
              LB_ALGO_ROUNDROBIN None) as (_ & lb & Hout & _ & Hok & _).
  - reflexivity.
  - simpl. lia.
  - vm_compute. reflexivity.
  - exists lb. split; [exact Hout|]. apply Hok. reflexivity.
Defined.

(** ** The worker pool: start and stop *)

(** X12. [lb_thread_pool_start] returns INVALID_ARGUMENT exactly for a null
    pool or a count of 0; with a count other than 0 it starts the pool with
    that count when the array is allocated, and otherwise returns
    OUT_OF_MEMORY without marking the pool running.  Whatever the outcome
    of a start, [lb_thread_pool_stop] afterwards leaves the pool stopped
    with no workers; stopping twice is stopping once; and a stopped pool can
    be started again. *)
Theorem lb_thread_pool_start_stop calloc_ok t n :
  n <> 0 ->
  (forall ok tp m, fst (lb_thread_pool_start ok tp m) = LB_ERR_INVAL <-> tp = None \/ m = 0) /\
  lb_thread_pool_start true (Some t) n = (LB_OK, Some (mk_tpool (Some n) n true)) /\
  lb_thread_pool_start false (Some t) n
  = (LB_ERR_NOMEM, Some (mk_tpool None (tp_nthreads t) (tp_running t))) /\
  lb_thread_pool_stop (snd (lb_thread_pool_start calloc_ok (Some t) n))
  = Some (mk_tpool None 0 false) /\
  lb_thread_pool_stop (lb_thread_pool_stop (Some t)) = lb_thread_pool_stop (Some t) /\
  lb_thread_pool_start true (lb_thread_pool_stop (Some t)) n
  = (LB_OK, Some (mk_tpool (Some n) n true)) /\
  lb_thread_pool_stop None = None.
Proof.
  intros Hn. unfold lb_thread_pool_start, lb_thread_pool_stop.
  destruct (Z.eqb_spec n 0) as [?|_]; [done|]. split.
  - intros ok tp m. destruct tp as [t0|]; [|by split; [left|]].
    destruct (Z.eqb_spec m 0) as [->|Hm]; [by split; [right|]|].
    destruct ok; cbn [negb fst]; (split; [done|by intros [?|?]]).
  - repeat split; try done. by destruct calloc_ok.
Qed.

Lemma lb_thread_pool_start_stop_witness :
  lb_thread_pool_stop (snd (lb_thread_pool_start true (Some zero_tpool) 4))
  = Some (mk_tpool None 0 false).
Proof.
  apply (lb_thread_pool_start_stop true zero_tpool 4). discriminate.
Defined.

(** ** Destruction *)

Lemma freed_backends_app t1 t2 :
  freed_backends (t1 ++ t2) = freed_backends t1 ++ freed_backends t2.
Proof. unfold freed_backends. apply omap_app. Qed.

(** The backends the loop of [lb_core_destroy] frees: the non-null slots of
    [backends[0..count]], in order. *)
Lemma destroy_backends_freed lb :
  freed_backends (destroy_backends lb) = omap id (registry_slots lb).
Proof.
  unfold destroy_backends, registry_slots.
  induction (seq 0 (Z.to_nat (backend_count lb))) as [|i l IH]; [done|].
  cbn [fmap list_fmap concat]. rewrite freed_backends_app, IH.
  cbn [omap list_omap]. by destruct (slot lb i).
Qed.

Lemma destroy_backends_pairs lb :
  destroy_backends lb
  = concat ((fun p => [RelBackendLock p; RelBackend p]) <$> omap id (registry_slots lb)).
Proof.
  unfold destroy_backends, registry_slots.
  induction (seq 0 (Z.to_nat (backend_count lb))) as [|i l IH]; [done|].
  cbn [fmap list_fmap concat omap list_omap]. rewrite IH.
  by destruct (slot lb i).
Qed.

(** The trace of a destruction, the teardown of the two strategies being
    empty. *)
Lemma lb_core_destroy_eq c :
  lb_core_destroy (Some c)
  = [RelThreads (tp_threads (tpool c))]
    ++ (match s_teardown (strategy c) with Some f => [RelTeardown f] | None => [] end)
    ++ (if mem c then [RelMunmap (mem_size c)] else [])
    ++ (if 0 <=? epfd c then [RelClose (epfd c)] else [])
    ++ [RelRegistryLock] ++ destroy_backends c ++ [RelCore].
Proof.
  unfold lb_core_destroy. cbn [strategy].
  by destruct (s_teardown (strategy c)) as [[]|].
Qed.

(** X13. [lb_core_destroy] does nothing on a null core.  Otherwise it
    releases the worker array first and the core last, exactly once; it
    unmaps the pool exactly when one is mapped and closes the notification
    descriptor exactly when it is not negative; and between the registry
    lock and the core it releases the non-null entries of
    [backends[0..count]] in order, each lock just before its backend. *)
Theorem lb_core_destroy_order c :
  lb_core_destroy None = [] /\
  exists before,
    lb_core_destroy (Some c)
    = RelThreads (tp_threads (tpool c)) :: before
      ++ [RelRegistryLock]
      ++ concat ((fun p => [RelBackendLock p; RelBackend p]) <$> omap id (registry_slots c))
      ++ [RelCore] /\
    freed_backends (lb_core_destroy (Some c)) = omap id (registry_slots c) /\
    (forall size, RelMunmap size ∈ before <-> mem c = true /\ size = mem_size c) /\
    (forall fd, RelClose fd ∈ before <-> 0 <= epfd c /\ fd = epfd c) /\
    ~ RelCore ∈ before /\ freed_backends before = [].
Proof.
  split; [done|]. rewrite lb_core_destroy_eq.
  exists ((match s_teardown (strategy c) with Some f => [RelTeardown f] | None => [] end)
          ++ (if mem c then [RelMunmap (mem_size c)] else [])
          ++ (if 0 <=? epfd c then [RelClose (epfd c)] else [])).
  rewrite <- destroy_backends_pairs. split; [by rewrite <- !(assoc_L (++))|].
  split.
  { rewrite !freed_backends_app, destroy_backends_freed.
    destruct (s_teardown (strategy c)), (mem c), (0 <=? epfd c); by rewrite ?app_nil_r. }
  destruct (s_teardown (strategy c)) as [f|], (mem c), (Z.leb_spec 0 (epfd c));
    cbn [app]; (split; [|split; [|split]]);
    try (intros x); repeat (rewrite elem_of_cons || rewrite elem_of_nil);
    try done;
    intuition (try discriminate; try congruence; try lia; subst; auto);
    match goal with
    | x : _ ∈ _ |- False =>
        repeat (rewrite elem_of_cons in x || rewrite elem_of_nil in x);
        intuition discriminate
    end.
Qed.

Lemma omap_id_Some {A} (l : list A) : omap id (Some <$> l) = l.
Proof.
  induction l as [|x l IH]; [done|].
  cbn [fmap list_fmap omap list_omap id]. by rewrite IH.
Qed.

(** X14. Destroying a core after any sequence of registrations frees every
    backend those registrations allocated, each exactly once and in the
    order of registration, and frees nothing else; the notification
    descriptor opened at creation is closed. *)
Theorem lb_core_destroy_frees_registered MAX_BACKENDS e port algo out lb0 calls sts h' c' :
  0 <= MAX_BACKENDS <= UINT32_MAX ->
  create_out (lb_core_create MAX_BACKENDS e port algo out) = Some (Some lb0) ->
  add_many MAX_BACKENDS [] (Some lb0) calls = (sts, h', Some c') ->
  freed_backends (lb_core_destroy (Some c')) = seq 0 (length h') /\
  length h' = count_ok sts /\
  NoDup (freed_backends (lb_core_destroy (Some c'))) /\
  RelClose (env_epoll_create1 e) ∈ lb_core_destroy (Some c').
Proof.
  intros HM Hout Hrun.
  destruct (created_registry_layout _ _ _ _ _ _ _ _ _ _ _ HM Hout Hrun)
    as (Hcount & _ & _ & Hlen & Hh & Hslot & _).
  assert (length h' = count_ok sts) as Hlen'.
  { by rewrite Hh, app_nil_l, length_fmap. }
  assert (freed_backends (lb_core_destroy (Some c')) = seq 0 (length h')) as Hfreed.
  { rewrite lb_core_destroy_eq, !freed_backends_app, destroy_backends_freed.
    assert (registry_slots c' = Some <$> seq 0 (length h')) as ->.
    { unfold registry_slots. rewrite Hlen'.
      replace (Z.to_nat (backend_count c')) with (count_ok sts) by lia.
      apply list_fmap_ext. intros i k Hk. apply lookup_seq in Hk as [-> Hk].
      by apply Hslot. }
    rewrite omap_id_Some.
    destruct (s_teardown (strategy c')), (mem c'), (0 <=? epfd c'); by rewrite ?app_nil_r. }
  split; [done|]. split; [done|]. split; [rewrite Hfreed; apply NoDup_seq|].
  pose proof (add_many_frame _ _ _ _ _ _ _ Hrun) as Hframe.
  assert (epfd c' = env_epoll_create1 e /\ 0 <= epfd c') as [Hfd Hfd0].
  { rewrite Hframe. unfold set_registry; core_simpl. clear Hframe Hrun.
    unfold lb_core_create in Hout. destruct out as [cell|]; [|done].
    destruct (env_calloc_core e); [|done]. cbn [negb] in Hout.
    destruct (Z.ltb_spec (env_epoll_create1 e) 0); [done|].
    rewrite strategy_init_ok, bool_decide_eq_true_2 in Hout by done. cbn [negb] in Hout.
    destruct (lb_thread_pool_start _ _ _). cbn [create_out] in Hout.
    injection Hout as <-. by core_simpl. }
  rewrite lb_core_destroy_eq. destruct (Z.leb_spec 0 (epfd c')); [|lia].
  rewrite <- Hfd. apply elem_of_app. right. apply elem_of_app. right.
  apply elem_of_app. right. apply elem_of_app. left. by apply list_elem_of_singleton.
Qed.

Lemma lb_core_destroy_frees_registered_witness :
  freed_backends (lb_core_destroy (Some rr3_core)) = [0; 1; 2]%nat.
Proof.
  destruct (lb_core_destroy_frees_registered 256 env_ok 8080 LB_ALGO_ROUNDROBIN (Some None)
              (default (calloc_core 256) fresh_core) three_calls [LB_OK; LB_OK; LB_OK]
              (fst (scenario LB_ALGO_ROUNDROBIN)) rr3_core) as (Hfreed & _).
  - unfold UINT32_MAX. lia.
  - vm_compute. reflexivity.
  - vm_compute. reflexivity.
  - exact Hfreed.
Defined.

(** ** The listening endpoint *)

Lemma lb_set_nb_tcp_opts_eq e fd reuseport nodelay :
  lb_set_nb_tcp_opts e fd reuseport nodelay
  = (Z.lor (Z.lor (rv_setsockopt e SO_REUSEADDR)
                  (if def_SO_REUSEPORT e && reuseport then rv_setsockopt e SO_REUSEPORT else 0))
           (if def_TCP_NODELAY e && nodelay then rv_setsockopt e TCP_NODELAY else 0),
     [SysSetsockopt fd SO_REUSEADDR]
     ++ (if def_SO_REUSEPORT e && reuseport then [SysSetsockopt fd SO_REUSEPORT] else [])
     ++ (if def_TCP_NODELAY e && nodelay then [SysSetsockopt fd TCP_NODELAY] else [])).
Proof.
  unfold lb_set_nb_tcp_opts. rewrite Z.lor_0_l.
  destruct (def_SO_REUSEPORT e && reuseport), (def_TCP_NODELAY e && nodelay);
    cbn [app]; by rewrite ?Z.lor_0_r.
Qed.

(** X15. [lb_set_nb_tcp_opts] always sets SO_REUSEADDR, sets SO_REUSEPORT
    and TCP_NODELAY exactly when they are asked for and the platform defines
    them, in that order and on the descriptor given; it returns 0 exactly
    when every [setsockopt] call it made returned 0. *)
Theorem lb_set_nb_tcp_opts_spec e fd reuseport nodelay :
  let r := lb_set_nb_tcp_opts e fd reuseport nodelay in
  options_set (snd r)
  = [SO_REUSEADDR]
    ++ (if def_SO_REUSEPORT e && reuseport then [SO_REUSEPORT] else [])
    ++ (if def_TCP_NODELAY e && nodelay then [TCP_NODELAY] else []) /\
  Forall (fun c => exists o, c = SysSetsockopt fd o) (snd r) /\
  (fst r = 0 <-> forall o, o ∈ options_set (snd r) -> rv_setsockopt e o = 0).
Proof.
  intros r. subst r. rewrite lb_set_nb_tcp_opts_eq. cbn [fst snd].
  destruct (def_SO_REUSEPORT e && reuseport), (def_TCP_NODELAY e && nodelay);
    cbn [app options_set omap list_omap];
    (split; [done|]); (split; [repeat constructor; by eexists|]);
    rewrite ?Z.lor_0_r, ?Z.lor_eq_0_iff;
    (split;
     [intros H o Ho; repeat (rewrite elem_of_cons in Ho || rewrite elem_of_nil in Ho);
      intuition (subst; done)
     |intros H; repeat split; apply H;
      repeat (rewrite elem_of_cons || rewrite elem_of_nil); auto]).
Qed.

(** X16. [lb_bind_listen] returns either -1 or the descriptor [socket]
    gave, which is then not negative, bound and listening, with every
    option call having returned 0 and never closed; when it returns -1 after
    [socket] succeeded, it closes that descriptor exactly once, as its last
    call, and when [socket] failed it makes no further call. *)
Theorem lb_bind_listen_no_leak e port reuseport nodelay :
  let r := lb_bind_listen e port reuseport nodelay in
  (fst r = -1 \/ (fst r = rv_socket e /\ 0 <= fst r)) /\
  (0 <= fst r ->
     closed_fds (snd r) = [] /\ rv_bind e = 0 /\ rv_listen e = 0 /\
     fst (lb_set_nb_tcp_opts e (rv_socket e) reuseport nodelay) = 0 /\
     exists opts, snd r = [SysSocket] ++ opts ++ [SysBind (fst r) port; SysListen (fst r)]
                  /\ opts = snd (lb_set_nb_tcp_opts e (fst r) reuseport nodelay)) /\
  (fst r = -1 ->
     (rv_socket e < 0 -> snd r = [SysSocket]) /\
     (0 <= rv_socket e ->
        closed_fds (snd r) = [rv_socket e] /\ last (snd r) = Some (SysClose (rv_socket e)))).
Proof.
  intros r. subst r. unfold lb_bind_listen.
  destruct (Z.ltb_spec (rv_socket e) 0) as [Hfd|Hfd].
  { cbn [fst snd]. split; [by left|]. split; [lia|]. intros _. split; [done|lia]. }
  destruct (lb_set_nb_tcp_opts e (rv_socket e) reuseport nodelay) as [rv t] eqn:Hopts.
  assert (closed_fds t = []) as Ht.
  { rewrite lb_set_nb_tcp_opts_eq in Hopts. injection Hopts as _ <-.
    by destruct (def_SO_REUSEPORT e && reuseport), (def_TCP_NODELAY e && nodelay). }
  assert (forall t', closed_fds ([SysSocket] ++ t ++ t') = closed_fds t') as Hclosed.
  { intros t'. unfold closed_fds in *. by rewrite !omap_app, Ht. }
  assert (forall t' c, last ([SysSocket] ++ t ++ t' ++ [c]) = Some c) as Hlast.
  { intros t' c. by rewrite !(assoc_L (++)), last_snoc. }
  cbn [fst].
  destruct (Z.eqb_spec rv 0) as [->|Hrv]; cbn [negb];
    [destruct (Z.eqb_spec (rv_bind e) 0) as [Hb|Hb]; cbn [negb];
     [destruct (Z.eqb_spec (rv_listen e) 0) as [Hl|Hl]; cbn [negb]|]|];
    cbn [fst snd].
  - split; [by right|]. split; [|intros ?; lia]. intros _. rewrite Hclosed.
    repeat split; try done. exists t. by rewrite Hopts.
  - split; [by left|]. split; [lia|]. intros _. split; [lia|]. intros _.
    rewrite Hclosed. split; [done|].
    apply (Hlast [SysBind (rv_socket e) port; SysListen (rv_socket e)]).
  - split; [by left|]. split; [lia|]. intros _. split; [lia|]. intros _.
    rewrite Hclosed. split; [done|]. apply (Hlast [SysBind (rv_socket e) port]).
  - split; [by left|]. split; [lia|]. intros _. split; [lia|]. intros _.
    rewrite Hclosed. split; [done|]. apply (Hlast []).
Qed.

(** ** Logging and tags *)

(** X17. [lb_logv] prints a line exactly when the level of the call is not
    below the global level converted to unsigned: for a global level that
    is not negative that is the comparison of the two numbers, and a
    negative global level suppresses every line.  At the default level
    (INFO) every level but DEBUG is printed, and an ERROR is printed at
    every level of the enumeration.  A printed line carries the tag of the
    level and the errno suffix exactly when [errno] is not 0 at the time it
    is tested, that is after the library calls of the function: it shows
    the value those calls left, and the value at entry when they set none.
    Its millisecond field is within 0..999 when the clock's nanoseconds are
    within a second. *)
Theorem lb_logv_threshold g now errno0 lib_errno lvl cat file line fn msg :
  let r := lb_logv g now errno0 lib_errno lvl cat file line fn msg in
  (r = None <-> lb_log_level_code lvl < u32 g) /\
  (0 <= g < UINT32_MOD -> (r = None <-> lb_log_level_code lvl < g)) /\
  (- 2 ^ 31 <= g < 0 -> r = None) /\
  (g = lb_log_level_code LB_LOG_DEFAULT_LEVEL -> (r = None <-> lvl = LB_LOG_DEBUG)) /\
  (0 <= g <= lb_log_level_code LB_LOG_ERROR -> lvl = LB_LOG_ERROR -> r <> None) /\
  (forall l, r = Some l ->
     ll_level l = lb_log_level_str lvl /\ ll_msg l = msg /\ ll_cat l = cat /\
     (ll_errno l = None <-> default errno0 lib_errno = 0) /\
     (forall n, ll_errno l = Some n -> n = default errno0 lib_errno) /\
     (lib_errno = None -> (ll_errno l = None <-> errno0 = 0)) /\
     (forall n, lib_errno = Some n -> n <> 0 -> ll_errno l = Some n) /\
     (0 <= tv_nsec now < 1000000000 -> 0 <= ll_msec l <= 999)).
Proof.
  intros r. subst r. unfold lb_logv.
  assert (0 <= g < UINT32_MOD -> u32 g = g) as Hpos
    by (intros ?; by apply u32_id).
  assert (- 2 ^ 31 <= g < 0 -> u32 g = g + UINT32_MOD) as Hneg.
  { intros Hg. unfold u32, UINT32_MOD in *.
    rewrite <- (Z.mod_add g 1 (2 ^ 32)) by lia. apply Z.mod_small. lia. }
  assert (forall v, 0 <= lb_log_level_code v <= 3) as Hcode by (intros []; simpl; lia).
  pose proof (Hcode lvl) as Hlvl.
  destruct (Z.ltb_spec (lb_log_level_code lvl) (u32 g)) as [Hlt|Hge].
  - split; [done|]. split; [intros Hg; rewrite Hpos in Hlt by done; done|].
    split; [done|]. split.
    + intros ->. split; [|done]. intros _.
      change (u32 (lb_log_level_code LB_LOG_DEFAULT_LEVEL)) with 1 in Hlt.
      destruct lvl; simpl in Hlt; (done || lia).
    + split; [|done]. intros Hg ->. simpl in *.
      rewrite Hpos in Hlt by (unfold UINT32_MOD; lia). lia.
  - split; [split; [done|lia]|].
    split; [intros Hg; rewrite Hpos in Hge by done; split; [done|lia]|].
    split; [intros Hg; rewrite Hneg in Hge by done; unfold UINT32_MOD in Hge; lia|].
    split.
    + intros ->. split; [done|]. intros ->.
      change (u32 (lb_log_level_code LB_LOG_DEFAULT_LEVEL)) with 1 in Hge.
      simpl in Hge. lia.
    + split; [done|]. intros l [= <-]. cbn [ll_level ll_msg ll_cat ll_errno ll_msec].
      split; [done|]. split; [done|]. split; [done|].
      assert (0 <= tv_nsec now < 1000000000 -> 0 <= Z.quot (tv_nsec now) 1000000 <= 999)
        as Hms.
      { intros Hns. pose proof (Z.quot_pos (tv_nsec now) 1000000).
        pose proof (Z.quot_lt_upper_bound (tv_nsec now) 1000000 1000). lia. }
      destruct (Z.eqb_spec (default errno0 lib_errno) 0) as [Herr|Herr].
      * split; [done|]. split; [done|]. split; [by intros ->|].
        split; [|done]. intros n -> Hn. done.
      * split; [split; [done|intros ?; done]|]. split; [by intros n [= <-]|].
        split; [intros ->; split; [done|intros ?; done]|].
        split; [|done]. by intros n -> _.
Qed.

Lemma lb_logv_threshold_witness :
  lb_logv 1 (mk_timespec 0 999999999) 0 None LB_LOG_DEBUG "core" "f.c" 1 "f" "m" = None
  /\ lb_logv 1 (mk_timespec 0 999999999) 0 None LB_LOG_ERROR "core" "f.c" 1 "f" "m" <> None
  /\ lb_logv (-1) (mk_timespec 0 999999999) 0 None LB_LOG_ERROR "core" "f.c" 1 "f" "m" = None.
Proof.
  split; [|split].
  - apply (lb_logv_threshold 1 (mk_timespec 0 999999999) 0 None LB_LOG_DEBUG
             "core" "f.c" 1 "f" "m"); reflexivity.
  - apply (lb_logv_threshold 1 (mk_timespec 0 999999999) 0 None LB_LOG_ERROR
             "core" "f.c" 1 "f" "m"); [simpl; lia | reflexivity].
  - destruct (lb_logv_threshold (-1) (mk_timespec 0 999999999) 0 None LB_LOG_ERROR
                "core" "f.c" 1 "f" "m") as (_ & _ & Hneg & _).
    apply Hneg. lia.
Defined.

(** X18. The tag of a status determines the status, and so does its
    numeric value; OK is the only status whose value is not negative; the
    tag of a log level determines the level, and the levels are ordered
    DEBUG < INFO < WARN < ERROR. *)
Theorem status_tags_distinct :
  (forall s1 s2, lb_status_str s1 = lb_status_str s2 -> s1 = s2) /\
  (forall s1 s2, lb_status_code s1 = lb_status_code s2 -> s1 = s2) /\
  (forall s, 0 <= lb_status_code s <-> s = LB_OK) /\
  (forall l1 l2, lb_log_level_str l1 = lb_log_level_str l2 -> l1 = l2) /\
  lb_log_level_code LB_LOG_DEBUG < lb_log_level_code LB_LOG_INFO
  < lb_log_level_code LB_LOG_WARN /\
  lb_log_level_code LB_LOG_WARN < lb_log_level_code LB_LOG_ERROR.
Proof.
  split; [by intros [] [] H|]. split; [by intros [] [] H|].
  split; [intros []; simpl; split; (done || lia)|].
  split; [by intros [] [] H|]. simpl. lia.
Qed.

(** * Properties of the entry point (src/main_advanced.c) *)

(** X19. [handle_signal] clears [g_running] on SIGINT and on SIGTERM and
    leaves it as it is on every other signal; it never sets it again once it
    is 0; and it logs exactly one line, a warning exactly for the signals
    other than SIGINT, SIGTERM, SIGHUP and SIGPIPE. *)
Theorem handle_signal_shutdown signum g :
  let r := handle_signal signum g in
  (signum = SIGINT \/ signum = SIGTERM -> fst r = 0) /\
  (signum <> SIGINT -> signum <> SIGTERM -> fst r = g) /\
  (g = 0 -> fst r = 0) /\
  exists lvl fmt args,
    snd r = [CLog lvl fmt args] /\
    (lvl = MWarn <->
     signum <> SIGINT /\ signum <> SIGTERM /\ signum <> SIGHUP /\ signum <> SIGPIPE).
Proof.
  intros r. subst r. unfold handle_signal.
  destruct (Z.eqb_spec signum SIGINT) as [Hi|Hi];
    [|destruct (Z.eqb_spec signum SIGTERM) as [Ht|Ht];
      [|destruct (Z.eqb_spec signum SIGHUP) as [Hh|Hh];
        [|destruct (Z.eqb_spec signum SIGPIPE) as [Hp|Hp]]]];
    cbn [orb fst snd];
    (split; [intros [?|?]; done|]); (split; [done|]); (split; [done|]);
    eexists _, _, _; (split; [reflexivity|]); split; try done; intros (? & ? & ? & ?); done.
Qed.

Lemma handle_signal_shutdown_witness : fst (handle_signal 15 1) = 0.
Proof.
  destruct (handle_signal_shutdown 15 1) as [Hstop _].
  apply Hstop. right. reflexivity.
Defined.

(** X20. [log_performance_metrics] logs at most once in 60 seconds: over
    any sequence of calls, with whatever the clock reads, each logged
    reading is at least 60 after the previous logged one (and after the
    initial [last_metric_time]), and only readings of the clock are logged. *)
Theorem metrics_rate_limited times : forall last,
  spaced 60 last (metrics_logged times last) /\
  (forall now, now ∈ metrics_logged times last -> now ∈ times).
Proof.
  induction times as [|now times IH]; intros last; [split; [done|by intros]|].
  cbn [metrics_logged]. unfold log_performance_metrics.
  destruct (Z.leb_spec 60 (now - last)) as [Hlog|Hskip]; cbn [app].
  - destruct (IH now) as [Hsp Hin]. split; [done|].
    intros x [->|Hx]%elem_of_cons; [by left|]. right. by apply Hin.
  - destruct (IH last) as [Hsp Hin]. split; [done|].
    intros x Hx. right. by apply Hin.
Qed.

(** ** Loading the plugins *)

Lemma plugins_loaded_app t1 t2 :
  plugins_loaded (t1 ++ t2) = plugins_loaded t1 ++ plugins_loaded t2.
Proof. apply omap_app. Qed.

Lemma manager_destroys_app t1 t2 :
  manager_destroys (t1 ++ t2) = (manager_destroys t1 + manager_destroys t2)%nat.
Proof. unfold manager_destroys. by rewrite omap_app, length_app. Qed.

(** The loop stops at the first plugin that fails to load. *)
Lemma load_plugins_loop_spec e cfg n : forall i,
  let r := load_plugins_loop e cfg i n in
  (fst r = None ->
     (forall j : nat, (j < n)%nat -> rv_plugin_load e (i + j) = 0) /\
     manager_destroys (snd r) = 0%nat /\
     plugins_loaded (snd r) = (fun j => default "" (plugins cfg !! j)) <$> seq i n) /\
  (forall v, fst r = Some v ->
     v = -1 /\ manager_destroys (snd r) = 1%nat /\
     exists k : nat, (k < n)%nat /\ rv_plugin_load e (i + k) <> 0 /\
       (forall j : nat, (j < k)%nat -> rv_plugin_load e (i + j) = 0) /\
       plugins_loaded (snd r) = (fun j => default "" (plugins cfg !! j)) <$> seq i (S k)).
Proof.
  induction n as [|n IH]; intros i r; subst r.
  - cbn [load_plugins_loop fst snd]. split; [|done]. intros _. split; [intros; lia|done].
  - cbn [load_plugins_loop].
    destruct (Z.eqb_spec (rv_plugin_load e i) 0) as [Hok|Hfail]; cbn [negb].
    + specialize (IH (S i)). cbv zeta in IH.
      destruct (load_plugins_loop e cfg (S i) n) as [r t]. cbn [fst snd] in *.
      destruct IH as [IHnone IHsome]. split.
      * intros Hr. destruct (IHnone Hr) as (Hall & Hd & Hl). split; [|split].
        -- intros j Hj. destruct j as [|j]; [by rewrite Nat.add_0_r|].
           replace (i + S j)%nat with (S i + j)%nat by lia. apply Hall. lia.
        -- done.
        -- cbn [app plugins_loaded omap list_omap seq fmap list_fmap]. by f_equal.
      * intros v Hr. destruct (IHsome v Hr) as (Hv & Hd & k & Hk & Hfail & Hbefore & Hl).
        split; [done|]. split; [done|]. exists (S k). split; [lia|].
        replace (i + S k)%nat with (S i + k)%nat by lia. split; [done|]. split.
        -- intros j Hj. destruct j as [|j]; [by rewrite Nat.add_0_r|].
           replace (i + S j)%nat with (S i + j)%nat by lia. apply Hbefore. lia.
        -- cbn [app plugins_loaded omap list_omap]. cbn [seq fmap list_fmap] in *.
           by f_equal.
    + cbn [fst snd]. split; [done|]. intros v [= <-]. split; [done|]. split; [done|].
      exists 0%nat. split; [lia|]. rewrite Nat.add_0_r. split; [done|].
      split; [intros; lia|done].
Qed.

(** X21. [load_backend_plugins] returns 0 or -1.  It returns 0 exactly when
    the plugin manager is created, every one of the [plugin_count] plugins
    loads and the default algorithm is set; the plugins are loaded in the
    order of the configuration and none after the first that fails; and the
    plugin manager is destroyed once on every failure after its creation
    and not at all on success. *)
Theorem load_backend_plugins_spec e cfg :
  let r := load_backend_plugins e cfg in
  let n := Z.to_nat (plugin_count cfg) in
  let path := fun j => default "" (plugins cfg !! j) in
  (fst r = 0 \/ fst r = -1) /\
  (fst r = 0 <->
   rv_plugin_manager_create e = true /\
   (forall j : nat, (j < n)%nat -> rv_plugin_load e j = 0) /\
   rv_set_default_algorithm e = 0) /\
  (fst r = 0 -> manager_destroys (snd r) = 0%nat /\ plugins_loaded (snd r) = path <$> seq 0 n) /\
  (fst r = -1 ->
   manager_destroys (snd r) = (if rv_plugin_manager_create e then 1 else 0)%nat /\
   exists k : nat, (k <= n)%nat /\ plugins_loaded (snd r) = path <$> seq 0 k /\
     (forall j : nat, (S j < k)%nat -> rv_plugin_load e j = 0)).
Proof.
  intros r n path. subst r. unfold load_backend_plugins.
  destruct (rv_plugin_manager_create e); cbn [negb].
  2:{ cbn [fst snd]. split; [by right|]. split; [split; [done|by intros [? _]]|].
      split; [done|]. intros _. split; [done|]. exists 0%nat.
      split; [lia|]. split; [done|]. intros; lia. }
  pose proof (load_plugins_loop_spec e cfg n 0) as Hloop. cbv zeta in Hloop. fold n.
  destruct (load_plugins_loop e cfg 0 n) as [[v|] t]; cbn [fst snd] in Hloop.
  - destruct Hloop as [_ Hsome].
    destruct (Hsome v eq_refl) as (-> & Hd & k & Hk & Hfail & Hbefore & Hl).
    cbn [fst snd]. split; [by right|]. split.
    { split; [done|]. intros (_ & Hall & _). destruct Hfail. by apply (Hall k). }
    split; [done|]. intros _.
    rewrite manager_destroys_app, plugins_loaded_app, Hd, Hl. split; [done|].
    exists (S k). split; [lia|]. split; [done|]. intros j Hj. apply (Hbefore j). lia.
  - destruct Hloop as [Hnone _]. destruct (Hnone eq_refl) as (Hall & Hd & Hl).
    destruct (Z.eqb_spec (rv_set_default_algorithm e) 0) as [Hset|Hset];
      cbn [negb fst snd]; rewrite !manager_destroys_app, !plugins_loaded_app, Hd, Hl.
    + split; [by left|]. split; [done|]. split; [by rewrite app_nil_r|]. done.
    + split; [by right|]. split; [split; [done|by intros (_ & _ & ?)]|].
      split; [done|]. intros _. split; [done|]. exists n.
      split; [lia|]. split; [by rewrite app_nil_r|]. intros j Hj. apply (Hall j). lia.
Qed.

(** ** The event loop *)

Lemma handle_signal_keeps signum g :
  signum <> SIGINT -> signum <> SIGTERM -> fst (handle_signal signum g) = g.
Proof.
  intros Hi Ht. unfold handle_signal.
  destruct (Z.eqb_spec signum SIGINT); [done|].
  destruct (Z.eqb_spec signum SIGTERM); [done|]. cbn [orb].
  by destruct (signum =? SIGHUP), (signum =? SIGPIPE).
Qed.

Lemma handle_signal_calls signum g :
  forallb is_loop_call (snd (handle_signal signum g)) = true.
Proof.
  unfold handle_signal.
  by destruct ((signum =? SIGINT) || (signum =? SIGTERM)), (signum =? SIGHUP),
              (signum =? SIGPIPE).
Qed.

Lemma selects_app t1 t2 : selects (t1 ++ t2) = (selects t1 + selects t2)%nat.
Proof. unfold selects. by rewrite omap_app, length_app. Qed.

Lemma selects_loop_free t :
  forallb is_loop_call t = true -> Forall (fun c => forall fd, c <> CSelect fd) t ->
  selects t = 0%nat.
Proof.
  intros _ Hno. unfold selects. induction Hno as [|c t Hc _ IH]; [done|].
  cbn [omap list_omap]. destruct c; try done. by destruct (Hc max_fd).
Qed.

(** The loop makes only calls of the loop, and leaves with [g_running = 0]
    or after a failure of [select]. *)
Lemma main_loop_calls fd inputs : forall g last g' l' t,
  main_loop fd inputs g last = Some (g', l', t) ->
  forallb is_loop_call t = true.
Proof.
  induction inputs as [|i rest IH]; intros g last g' l' t Hrun; cbn [main_loop] in Hrun.
  - destruct (g =? 0); [|done]. by injection Hrun as <- <- <-.
  - destruct (g =? 0); [by injection Hrun as <- <- <-|].
    destruct (it_select i <? 0).
    + destruct (it_errno i =? EINTR); [|by injection Hrun as <- <- <-].
      destruct (main_loop fd rest g last) as [[[g1 l1] t1]|] eqn:Hrest; [|done].
      cbn in Hrun. injection Hrun as <- <- <-. cbn [forallb is_loop_call andb].
      by eapply IH.
    + assert (exists g1 t_sig,
                (if it_isset i
                 then if it_read i =? SIGINFO_SIZE
                      then let '(g0, t0) := handle_signal (it_signo i) g in (g0, CRead fd :: t0)
                      else (g, [CRead fd])
                 else (g, [])) = (g1, t_sig)
                /\ forallb is_loop_call t_sig = true) as (g1 & t_sig & Hsig & Hsigc).
      { destruct (it_isset i); [|by eexists _, _].
        destruct (it_read i =? SIGINFO_SIZE); [|by eexists _, _].
        pose proof (handle_signal_calls (it_signo i) g) as Hc.
        destruct (handle_signal (it_signo i) g) as [g0 t0]. by eexists _, _. }
      rewrite Hsig in Hrun.
      assert (forallb is_loop_call (snd (log_performance_metrics (it_time i) last)) = true)
        as Hmet.
      { unfold log_performance_metrics. by destruct (60 <=? it_time i - last). }
      destruct (log_performance_metrics (it_time i) last) as [l1 t_met].
      destruct (main_loop fd rest g1 l1) as [[[g2 l2] t2]|] eqn:Hrest; [|done].
      cbn in Hrun. injection Hrun as <- <- <-.
      cbn [app forallb is_loop_call andb].
      rewrite !forallb_app. cbn [snd] in Hmet. rewrite Hsigc, Hmet.
      cbn [andb]. by eapply IH.
Qed.


Lemma main_loop_stopped fd inputs last :
  main_loop fd inputs 0 last = Some (0, last, []).
Proof. by destruct inputs. Qed.

Lemma selects_handle_signal signum g : selects (snd (handle_signal signum g)) = 0%nat.
Proof.
  unfold handle_signal.
  by destruct ((signum =? SIGINT) || (signum =? SIGTERM)), (signum =? SIGHUP),
              (signum =? SIGPIPE).
Qed.

Lemma selects_metrics now last : selects (snd (log_performance_metrics now last)) = 0%nat.
Proof. unfold log_performance_metrics. by destruct (60 <=? now - last). Qed.

(** An iteration that keeps the loop running makes one call of [select]
    and leaves [g_running] as it is. *)
Lemma main_loop_step_keep fd i rest g last :
  g <> 0 -> keeps_running i ->
  exists l1 t1, selects t1 = 1%nat /\
    main_loop fd (i :: rest) g last
    = ('(g', l', t) ← main_loop fd rest g l1; Some (g', l', t1 ++ t)).
Proof.
  intros Hg Hkeep. cbn [main_loop]. destruct (Z.eqb_spec g 0); [done|].
  destruct Hkeep as [[Hsel Herr]|[Hsel Hsig]].
  - destruct (Z.ltb_spec (it_select i) 0); [|lia]. rewrite Herr, Z.eqb_refl.
    exists last, [CSelect fd]. split; [done|]. by destruct (main_loop fd rest g last) as [[[? ?] ?]|].
  - destruct (Z.ltb_spec (it_select i) 0); [lia|].
    assert (exists t_sig,
              (if it_isset i
               then if it_read i =? SIGINFO_SIZE
                    then let '(g0, t0) := handle_signal (it_signo i) g in (g0, CRead fd :: t0)
                    else (g, [CRead fd])
               else (g, [])) = (g, t_sig)
              /\ selects t_sig = 0%nat) as (t_sig & -> & Hsigc).
    { destruct (it_isset i); [|by eexists].
      destruct (Z.eqb_spec (it_read i) SIGINFO_SIZE) as [Hrd|Hrd]; [|by eexists].
      destruct (Hsig eq_refl Hrd) as [Hi Ht].
      pose proof (handle_signal_keeps (it_signo i) g Hi Ht) as Hk.
      pose proof (selects_handle_signal (it_signo i) g) as Hs.
      destruct (handle_signal (it_signo i) g) as [g0 t0]. cbn [fst snd] in *. subst g0.
      by eexists. }
    pose proof (selects_metrics (it_time i) last) as Hmet.
    destruct (log_performance_metrics (it_time i) last) as [l1 t_met]. cbn [snd] in Hmet.
    exists l1, ([CSelect fd] ++ t_sig ++ t_met). split.
    + rewrite !selects_app, Hsigc, Hmet. done.
    + destruct (main_loop fd rest g l1) as [[[? ?] ?]|]; [|done].
      cbn [mbind option_bind]. by rewrite <- !(assoc_L (++)).
Qed.

(** An iteration that delivers SIGINT or SIGTERM in full ends the loop. *)
Lemma main_loop_step_stop fd i rest g last signo :
  g <> 0 -> delivers signo i -> signo = SIGINT \/ signo = SIGTERM ->
  exists l1 t1, selects t1 = 1%nat /\ main_loop fd (i :: rest) g last = Some (0, l1, t1).
Proof.
  intros Hg (Hsel & Hisset & Hread & Hsigno) Hshut. cbn [main_loop].
  destruct (Z.eqb_spec g 0); [done|].
  destruct (Z.ltb_spec (it_select i) 0); [lia|].
  rewrite Hisset, Hread, Z.eqb_refl.
  assert (fst (handle_signal (it_signo i) g) = 0) as Hstop.
  { unfold handle_signal. rewrite Hsigno.
    destruct Hshut as [->| ->]; [done|]. by rewrite Z.eqb_refl, orb_true_r. }
  pose proof (selects_handle_signal (it_signo i) g) as Hs.
  destruct (handle_signal (it_signo i) g) as [g0 t0]. cbn [fst snd] in *. subst g0.
  pose proof (selects_metrics (it_time i) last) as Hmet.
  destruct (log_performance_metrics (it_time i) last) as [l1 t_met]. cbn [snd] in Hmet.
  rewrite main_loop_stopped. cbn [mbind option_bind].
  eexists _, _. split; [|reflexivity].
  rewrite !selects_app, Hmet. change (selects (CRead fd :: t0)) with (selects t0).
  by rewrite Hs.
Qed.

(** X22. [run_main_loop] runs as long as [g_running] is not 0 and [select]
    does not fail for a reason other than EINTR: when the answers of the
    system first keep it running and then deliver SIGINT or SIGTERM in full,
    it returns 0 with [g_running = 0] after exactly that many calls of
    [select], whatever the system would answer afterwards.  With
    [g_running = 0] at entry it returns without calling [select]. *)
Theorem run_main_loop_stops_on_signal fd pre i post g last signo :
  g <> 0 -> Forall keeps_running pre -> delivers signo i ->
  signo = SIGINT \/ signo = SIGTERM ->
  (exists l t,
     run_main_loop fd (pre ++ i :: post) g last = Some (0, 0, l, t) /\
     selects t = S (length pre)) /\
  (exists t0, run_main_loop fd (pre ++ i :: post) 0 last = Some (0, 0, last, t0)
              /\ selects t0 = 0%nat).
Proof.
  intros Hg Hpre Hdel Hshut. split.
  2:{ unfold run_main_loop. rewrite main_loop_stopped. by eexists. }
  assert (exists l t, main_loop fd (pre ++ i :: post) g last = Some (0, l, t)
                      /\ selects t = S (length pre)) as (l & t & Hrun & Hn).
  { revert last. induction Hpre as [|i' pre Hi' _ IH]; intros last.
    - destruct (main_loop_step_stop fd i post g last signo Hg Hdel Hshut)
        as (l1 & t1 & Hs & Hrun). by exists l1, t1.
    - destruct (main_loop_step_keep fd i' (pre ++ i :: post) g last Hg Hi')
        as (l1 & t1 & Hs & Hrun).
      destruct (IH l1) as (l & t & Hrest & Hn).
      cbn [app]. rewrite Hrun, Hrest. cbn [mbind option_bind].
      exists l, (t1 ++ t). split; [done|]. rewrite selects_app, Hs, Hn. done. }
  unfold run_main_loop. rewrite Hrun. cbn [mbind option_bind].
  eexists _, _. split; [reflexivity|]. rewrite !selects_app, Hn. done.
Qed.

Lemma run_main_loop_stops_on_signal_witness :
  exists l t, run_main_loop 5 (loop_inputs main_env_ok) 1 0 = Some (0, 0, l, t)
              /\ selects t = 2%nat.
Proof.
  destruct (run_main_loop_stops_on_signal 5 [mk_iter 0 0 false 0 0 100]
              (mk_iter 1 0 true 128 15 101) [] 1 0 15) as [H _].
  - discriminate.
  - constructor; [|constructor]. right. simpl. split; [lia|]. discriminate.
  - unfold delivers. simpl. repeat split. lia.
  - right. reflexivity.
  - exact H.
Defined.

(** ** The steps of the initialisation *)

Lemma initialize_logging_spec e cfg :
  let r := initialize_logging e cfg in
  (fst r = 0 /\ rv_logging_init e = 0 \/ fst r = -1 /\ rv_logging_init e <> 0) /\
  forallb is_init_call (snd r) = true /\
  exists t, snd r = CLoggingInit (log_level cfg) (log_destination cfg) (log_file_path cfg)
                                 (log_max_file_size cfg) (log_rotation_count cfg) :: t.
Proof.
  intros r. subst r. unfold initialize_logging.
  destruct (Z.eqb_spec (rv_logging_init e) 0); cbn [negb fst snd];
    (split; [by (left + right)|]); (split; [done|]); by eexists.
Qed.

Lemma load_configuration_spec e file :
  let r := load_configuration e file in
  (fst (fst r) = 0 /\ rv_config_load e = 0 /\ rv_config_validate e = 0
   \/ fst (fst r) = -1 /\ ~ (rv_config_load e = 0 /\ rv_config_validate e = 0)) /\
  snd (fst r) = cfg_loaded e /\
  forallb is_init_call (snd r) = true.
Proof.
  intros r. subst r. unfold load_configuration.
  destruct (Z.eqb_spec (rv_config_load e) 0); cbn [negb];
    [destruct (Z.eqb_spec (rv_config_validate e) 0); cbn [negb]|]; cbn [fst snd];
    (split; [|done]); (by left) || (right; split; [done|]; by intros [? ?]).
Qed.

Lemma setup_signal_handling_spec e :
  let r := setup_signal_handling e in
  (0 <= fst r /\ fst r = rv_signalfd e /\ rv_pthread_sigmask e <> -1 /\ 0 <= rv_signalfd e
   \/ fst r < 0 /\ ~ (rv_pthread_sigmask e <> -1 /\ 0 <= rv_signalfd e)) /\
  forallb is_init_call (snd r) = true.
Proof.
  intros r. subst r. unfold setup_signal_handling.
  destruct (Z.eqb_spec (rv_pthread_sigmask e) (-1)) as [Hm|Hm].
  { cbn [fst snd]. split; [|done]. right. split; [lia|]. by intros [? _]. }
  destruct (Z.eqb_spec (rv_signalfd e) (-1)) as [Hs|Hs]; cbn [fst snd].
  { split; [|done]. right. split; [lia|]. intros [_ ?]. lia. }
  split; [|done]. destruct (Z_lt_le_dec (rv_signalfd e) 0).
  - right. split; [done|]. intros [_ ?]. lia.
  - by left.
Qed.

Lemma initialize_thread_pool_spec e cfg :
  let r := initialize_thread_pool e cfg in
  (fst (fst r) = 0 /\ rv_thread_pool_create e = true
   \/ fst (fst r) = -1 /\ rv_thread_pool_create e = false) /\
  snd (fst r) = rv_thread_pool_create e /\
  forallb is_init_call (snd r) = true.
Proof.
  intros r. subst r. unfold initialize_thread_pool.
  destruct (rv_thread_pool_create e); cbn [negb fst snd]; (split; [|done]); by (left + right).
Qed.

Lemma load_plugins_loop_calls e cfg n : forall i,
  forallb is_init_call (snd (load_plugins_loop e cfg i n)) = true.
Proof.
  induction n as [|n IH]; intros i; [done|]. cbn [load_plugins_loop].
  destruct (rv_plugin_load e i =? 0); cbn [negb]; [|done].
  specialize (IH (S i)). by destruct (load_plugins_loop e cfg (S i) n).
Qed.

Lemma load_backend_plugins_calls e cfg :
  forallb is_init_call (snd (load_backend_plugins e cfg)) = true.
Proof.
  unfold load_backend_plugins. destruct (rv_plugin_manager_create e); [|done]. cbn [negb].
  pose proof (load_plugins_loop_calls e cfg (Z.to_nat (plugin_count cfg)) 0) as Hloop.
  destruct (load_plugins_loop e cfg 0 _) as [[v|] t]; cbn [fst snd] in *; [done|].
  destruct (rv_set_default_algorithm e =? 0); cbn [negb snd app forallb is_init_call andb];
    by rewrite forallb_app, Hloop.
Qed.

(** What the calls of the initialisation and of the loop leave to the
    cleanup. *)
Lemma init_calls_counters t :
  forallb is_init_call t = true ->
  closed_by t = [] /\ pool_destroys t = 0%nat /\ config_cleanups t = 0%nat /\
  logging_cleanups t = 0%nat /\ selects t = 0%nat.
Proof.
  unfold closed_by, pool_destroys, config_cleanups, logging_cleanups, selects.
  induction t as [|c t IH]; [done|]. cbn [forallb]. intros [Hc Ht]%andb_true_iff.
  destruct (IH Ht) as (? & ? & ? & ? & ?). by destruct c.
Qed.

Lemma loop_calls_counters t :
  forallb is_loop_call t = true ->
  closed_by t = [] /\ pool_destroys t = 0%nat /\ config_cleanups t = 0%nat /\
  logging_cleanups t = 0%nat.
Proof.
  unfold closed_by, pool_destroys, config_cleanups, logging_cleanups.
  induction t as [|c t IH]; [done|]. cbn [forallb]. intros [Hc Ht]%andb_true_iff.
  destruct (IH Ht) as (? & ? & ? & ?). by destruct c.
Qed.

Lemma main_cleanup_counters fd pool :
  closed_by (main_cleanup fd pool) = (if 0 <=? fd then [fd] else []) /\
  pool_destroys (main_cleanup fd pool) = (if pool then 1 else 0)%nat /\
  config_cleanups (main_cleanup fd pool) = 1%nat /\
  logging_cleanups (main_cleanup fd pool) = 1%nat /\
  selects (main_cleanup fd pool) = 0%nat /\
  last (main_cleanup fd pool) = Some CLoggingCleanup.
Proof.
  unfold main_cleanup, cleanup_thread_pool, cleanup_configuration.
  by destruct (0 <=? fd), pool.
Qed.

(** The shape of a run of [main] in which a step of the initialisation
    fails. *)
Lemma main_fail_shape e t_init fd pool :
  forallb is_init_call t_init = true ->
  (exists t', t_init = CLoggingInit 0 0 "" 0 0 :: t') ->
  (signal_ok e -> fd = rv_signalfd e /\ 0 <= fd) ->
  (~ signal_ok e -> fd < 0) ->
  (pool = true <-> signal_ok e /\ rv_thread_pool_create e = true) ->
  ~ init_ok e ->
  exists t_init' t_loop fd' pool',
    t_init ++ main_cleanup fd pool = t_init' ++ t_loop ++ main_cleanup fd' pool' /\
    forallb is_init_call t_init' = true /\ forallb is_loop_call t_loop = true /\
    (exists t', t_init' = CLoggingInit 0 0 "" 0 0 :: t') /\
    (signal_ok e -> fd' = rv_signalfd e /\ 0 <= fd') /\
    (~ signal_ok e -> fd' < 0) /\
    (pool' = true <-> signal_ok e /\ rv_thread_pool_create e = true) /\
    (EXIT_FAILURE = EXIT_SUCCESS /\ init_ok e
     \/ EXIT_FAILURE = EXIT_FAILURE /\ ~ init_ok e /\ t_loop = []).
Proof.
  intros Hc Hh Hs Hns Hp Hbad. exists t_init, [], fd, pool.
  split; [done|]. split; [done|]. split; [done|]. split; [done|].
  split; [done|]. split; [done|]. split; [done|]. by right.
Qed.

(** The shape of every run of [main] that returns. *)
Lemma main_structure e argv st t :
  main e argv = Some (st, t) ->
  exists t_init t_loop fd pool,
    t = t_init ++ t_loop ++ main_cleanup fd pool /\
    forallb is_init_call t_init = true /\ forallb is_loop_call t_loop = true /\
    (exists t', t_init = CLoggingInit 0 0 "" 0 0 :: t') /\
    (signal_ok e -> fd = rv_signalfd e /\ 0 <= fd) /\
    (~ signal_ok e -> fd < 0) /\
    (pool = true <-> signal_ok e /\ rv_thread_pool_create e = true) /\
    (st = EXIT_SUCCESS /\ init_ok e \/ st = EXIT_FAILURE /\ ~ init_ok e /\ t_loop = []).
Proof.
  unfold main.
  set (file := if 1 <? Z.of_nat (length argv) then default "" (argv !! 1%nat)
               else "ultrabalancer.conf").
  destruct (initialize_logging_spec e config_zero) as (Hlog & Hlogc & (t' & Hhead)).
  change (CLoggingInit _ _ _ _ _) with (CLoggingInit 0 0 "" 0 0) in Hhead.
  destruct (initialize_logging e config_zero) as [r_log t_log]. cbn [fst snd] in *.
  destruct Hlog as [[-> Hlog]|[-> Hlog]]; cbn [Z.eqb negb].
  2:{ intros [= <- <-]. apply main_fail_shape; [done|by eexists| | | |].
      - intros (? & _). done.
      - intros _. lia.
      - split; [done|]. intros [(? & _) _]. done.
      - intros (? & _). done. }
  destruct (load_configuration_spec e file) as (Hcfg & Hcfgv & Hcfgc).
  destruct (load_configuration e file) as [[r_cfg cfg] t_cfg]. cbn [fst snd] in *.
  subst cfg. destruct Hcfg as [(-> & Hl & Hv)|[-> Hcfg]]; cbn [Z.eqb negb].
  2:{ intros [= <- <-]. rewrite (assoc_L (++)). apply main_fail_shape.
      - by rewrite forallb_app, Hlogc, Hcfgc.
      - rewrite Hhead. by eexists.
      - intros (_ & ? & ? & _). by destruct Hcfg.
      - intros _. lia.
      - split; [done|]. intros [(_ & ? & ? & _) _]. by destruct Hcfg.
      - intros (_ & ? & ? & _). by destruct Hcfg. }
  destruct (setup_signal_handling_spec e) as (Hsig & Hsigc).
  destruct (setup_signal_handling e) as [signal_fd t_sig]. cbn [fst snd] in *.
  destruct Hsig as [(Hfd & -> & Hm & Hs)|[Hfd Hsig]].
  2:{ destruct (Z.ltb_spec signal_fd 0); [|lia].
      intros [= <- <-]. rewrite !(assoc_L (++)). apply main_fail_shape.
      - by rewrite !forallb_app, Hlogc, Hcfgc, Hsigc.
      - rewrite Hhead. by eexists.
      - intros (_ & _ & _ & ? & ?). by destruct Hsig.
      - intros _. lia.
      - split; [done|]. intros [(_ & _ & _ & ? & ?) _]. by destruct Hsig.
      - intros (_ & _ & _ & ? & ? & _). by destruct Hsig. }
  destruct (Z.ltb_spec (rv_signalfd e) 0); [lia|].
  assert (signal_ok e) as Hok by done.
  destruct (initialize_thread_pool_spec e (cfg_loaded e)) as (Htp & Htpv & Htpc).
  destruct (initialize_thread_pool e (cfg_loaded e)) as [[r_tp pool] t_tp].
  cbn [fst snd] in *. subst pool. destruct Htp as [[-> Htp]|[-> Htp]]; cbn [Z.eqb negb].
  2:{ intros [= <- <-]. rewrite !(assoc_L (++)). apply main_fail_shape.
      - by rewrite !forallb_app, Hlogc, Hcfgc, Hsigc, Htpc.
      - rewrite Hhead. by eexists.
      - done.
      - done.
      - rewrite Htp. split; [done|]. by intros [_ ?].
      - intros (_ & _ & _ & _ & _ & ? & _). congruence. }
  pose proof (load_backend_plugins_calls e (cfg_loaded e)) as Hplc.
  destruct (load_backend_plugins e (cfg_loaded e)) as [r_pl t_pl] eqn:Hpl'. cbn [fst snd] in *.
  destruct (Z.eqb_spec r_pl 0) as [->|Hpl]; cbn [negb].
  2:{ intros [= <- <-]. rewrite !(assoc_L (++)). apply main_fail_shape.
      - by rewrite !forallb_app, Hlogc, Hcfgc, Hsigc, Htpc, Hplc.
      - rewrite Hhead. by eexists.
      - done.
      - done.
      - by rewrite Htp.
      - intros (_ & _ & _ & _ & _ & _ & ?). by rewrite Hpl' in *. }
  unfold run_main_loop.
  destruct (main_loop (rv_signalfd e) (loop_inputs e) 1 0) as [[[g l] t_loop]|] eqn:Hloop;
    [|done].
  cbn [mbind option_bind Z.eqb negb]. intros [= <- <-].
  exists (t_log ++ t_cfg ++ t_sig ++ t_tp ++ t_pl
          ++ [CLog MInfo "UltraBalancer Advanced initialization complete" []]),
         ([CLog MInfo "Entering main event loop" []] ++ t_loop
          ++ [CLog MInfo "Main event loop exiting" []]),
         (rv_signalfd e), (rv_thread_pool_create e).
  split; [by rewrite <- !(assoc_L (++))|].
  split; [by rewrite !forallb_app, Hlogc, Hcfgc, Hsigc, Htpc, Hplc|].
  split; [cbn [app forallb is_loop_call andb];
          by rewrite forallb_app, (main_loop_calls _ _ _ _ _ _ _ Hloop)|].
  split; [rewrite Hhead; by eexists|].
  split; [done|]. split; [done|]. split; [by rewrite Htp|].
  left. split; [done|]. unfold init_ok. by rewrite Hpl'.
Qed.

(** [main] returns unless the initialisation succeeds and the event loop
    is still running. *)
Lemma main_returns e argv :
  main e argv = None ->
  init_ok e /\ main_loop (rv_signalfd e) (loop_inputs e) 1 0 = None.
Proof.
  unfold main.
  destruct (initialize_logging_spec e config_zero) as (Hlog & _).
  destruct (initialize_logging e config_zero) as [r_log t_log]. cbn [fst snd] in *.
  destruct Hlog as [[-> Hlog]|[-> Hlog]]; cbn [Z.eqb negb]; [|done].
  match goal with |- context [load_configuration e ?f] =>
    destruct (load_configuration_spec e f) as (Hcfg & Hcfgv & _);
    destruct (load_configuration e f) as [[r_cfg cfg] t_cfg] end.
  cbn [fst snd] in *. subst cfg.
  destruct Hcfg as [(-> & Hl & Hv)|[-> Hcfg]]; cbn [Z.eqb negb]; [|done].
  destruct (setup_signal_handling_spec e) as (Hsig & _).
  destruct (setup_signal_handling e) as [signal_fd t_sig]. cbn [fst snd] in *.
  destruct Hsig as [(Hfd & -> & Hm & Hs)|[Hfd Hsig]];
    [|by destruct (Z.ltb_spec signal_fd 0); [|lia]].
  destruct (Z.ltb_spec (rv_signalfd e) 0); [lia|].
  destruct (initialize_thread_pool_spec e (cfg_loaded e)) as (Htp & Htpv & _).
  destruct (initialize_thread_pool e (cfg_loaded e)) as [[r_tp pool] t_tp].
  cbn [fst snd] in *. subst pool.
  destruct Htp as [[-> Htp]|[-> Htp]]; cbn [Z.eqb negb]; [|done].
  destruct (load_backend_plugins e (cfg_loaded e)) as [r_pl t_pl] eqn:Hpl.
  destruct (Z.eqb_spec r_pl 0) as [->|?]; cbn [negb]; [|done].
  unfold run_main_loop.
  destruct (main_loop (rv_signalfd e) (loop_inputs e) 1 0) as [[[g l] t_loop]|]; [done|].
  intros _. split; [|done]. unfold init_ok. by rewrite Hpl.
Qed.

(** X23. [main] exits with EXIT_SUCCESS or EXIT_FAILURE, and with
    EXIT_SUCCESS exactly when logging, configuration (load and validation),
    signal handling, thread pool and plugins all initialise; the value of
    [run_main_loop] never changes the exit status.  When a step of the
    initialisation fails, [main] returns whatever the system would answer
    to the event loop. *)
Theorem main_exit_status e argv :
  (forall st t, main e argv = Some (st, t) ->
     (st = EXIT_SUCCESS \/ st = EXIT_FAILURE) /\ (st = EXIT_SUCCESS <-> init_ok e)) /\
  (~ init_ok e -> exists t, main e argv = Some (EXIT_FAILURE, t)) /\
  (main e argv = None -> init_ok e).
Proof.
  assert (forall st t, main e argv = Some (st, t) ->
            (st = EXIT_SUCCESS \/ st = EXIT_FAILURE) /\ (st = EXIT_SUCCESS <-> init_ok e))
    as Hst.
  { intros st t Hrun.
    destruct (main_structure e argv st t Hrun)
      as (_ & _ & _ & _ & _ & _ & _ & _ & _ & _ & _ & [[-> Hok]|(-> & Hbad & _)]).
    - split; [by left|done].
    - split; [by right|]. split; [done|]. intros Hok. by destruct Hbad. }
  split; [done|]. split.
  - intros Hbad. destruct (main e argv) as [[st t]|] eqn:Hrun.
    + destruct (Hst st t eq_refl) as [[->| ->] Hiff]; [|by exists t].
      destruct Hbad. by apply Hiff.
    + destruct Hbad. by apply (main_returns e argv).
  - intros Hrun. by apply (main_returns e argv).
Qed.

Lemma main_exit_status_witness :
  exists t, main (mk_main_env 0 0 1 config_zero 0 5 true true (fun _ => 0) 0 []) ["prog"]
            = Some (EXIT_FAILURE, t).
Proof.
  destruct (main_exit_status (mk_main_env 0 0 1 config_zero 0 5 true true (fun _ => 0) 0 [])
              ["prog"]) as (_ & Hfail & _).
  apply Hfail. intros (_ & _ & Hv & _). discriminate Hv.
Defined.

Lemma closed_by_app t1 t2 : closed_by (t1 ++ t2) = closed_by t1 ++ closed_by t2.
Proof. apply omap_app. Qed.

Lemma pool_destroys_app t1 t2 :
  pool_destroys (t1 ++ t2) = (pool_destroys t1 + pool_destroys t2)%nat.
Proof. unfold pool_destroys. by rewrite omap_app, length_app. Qed.

Lemma config_cleanups_app t1 t2 :
  config_cleanups (t1 ++ t2) = (config_cleanups t1 + config_cleanups t2)%nat.
Proof. unfold config_cleanups. by rewrite omap_app, length_app. Qed.

Lemma logging_cleanups_app t1 t2 :
  logging_cleanups (t1 ++ t2) = (logging_cleanups t1 + logging_cleanups t2)%nat.
Proof. unfold logging_cleanups. by rewrite omap_app, length_app. Qed.

(** X24. Every run of [main] that returns ends with the cleanup: the
    configuration is cleaned up once and logging is shut down once, as the
    last call; the signal descriptor is closed once when signal handling
    was set up and no descriptor is closed otherwise; the thread pool is
    destroyed once when it was created and never otherwise. *)
Theorem main_cleans_up e argv st t :
  main e argv = Some (st, t) ->
  last t = Some CLoggingCleanup /\
  logging_cleanups t = 1%nat /\ config_cleanups t = 1%nat /\
  (signal_ok e -> closed_by t = [rv_signalfd e]) /\
  (~ signal_ok e -> closed_by t = []) /\
  (signal_ok e /\ rv_thread_pool_create e = true -> pool_destroys t = 1%nat) /\
  (~ (signal_ok e /\ rv_thread_pool_create e = true) -> pool_destroys t = 0%nat).
Proof.
  intros Hrun.
  destruct (main_structure e argv st t Hrun)
    as (t_init & t_loop & fd & pool & -> & Hinit & Hloop & _ & Hfd & Hnfd & Hpool & _).
  destruct (init_calls_counters _ Hinit) as (Hc1 & Hp1 & Hg1 & Hl1 & _).
  destruct (loop_calls_counters _ Hloop) as (Hc2 & Hp2 & Hg2 & Hl2).
  destruct (main_cleanup_counters fd pool) as (Hc3 & Hp3 & Hg3 & Hl3 & _ & Hlast).
  rewrite !closed_by_app, !pool_destroys_app, !config_cleanups_app, !logging_cleanups_app.
  rewrite Hc1, Hc2, Hc3, Hp1, Hp2, Hp3, Hg1, Hg2, Hg3, Hl1, Hl2, Hl3.
  split.
  { rewrite !(assoc_L (++)).
    unfold main_cleanup in *. rewrite !(assoc_L (++)) in *.
    change [CLog MInfo "UltraBalancer Advanced shutdown complete" []; CLoggingCleanup]
      with ([CLog MInfo "UltraBalancer Advanced shutdown complete" []] ++ [CLoggingCleanup]).
    by rewrite (assoc_L (++)), last_snoc. }
  split; [done|]. split; [done|]. split; [|split; [|split]].
  - intros Hok. destruct (Hfd Hok) as [-> Hpos].
    by destruct (Z.leb_spec 0 (rv_signalfd e)); [|lia].
  - intros Hbad. specialize (Hnfd Hbad). by destruct (Z.leb_spec 0 fd); [lia|].
  - intros Hok. apply Hpool in Hok. by rewrite Hok.
  - intros Hbad. destruct pool; [|done]. destruct Hbad. by apply Hpool.
Qed.

Lemma main_cleans_up_witness :
  exists st t, main main_env_ok ["prog"; "x.conf"] = Some (st, t) /\
               closed_by t = [5] /\ pool_destroys t = 1%nat.
Proof.
  destruct (main main_env_ok ["prog"; "x.conf"]) as [[st t]|] eqn:Hrun;
    [|vm_compute in Hrun; discriminate].
  destruct (main_cleans_up main_env_ok ["prog"; "x.conf"] st t Hrun)
    as (_ & _ & _ & Hclose & _ & Hpool & _).
  exists st, t. split; [reflexivity|]. split.
  - apply Hclose. unfold signal_ok. simpl. repeat split; (discriminate || lia).
  - apply Hpool. unfold signal_ok. simpl. repeat split; (discriminate || lia).
Defined.

(** X25. [main] initialises logging first, from the zero-initialised
    configuration: the first call of every run is [logging_init] with all
    settings 0, whatever the configuration file holds.  And it enters the
    event loop only after a complete initialisation: when a step fails, no
    [select] is called. *)
Theorem main_init_order e argv st t :
  main e argv = Some (st, t) ->
  head t = Some (CLoggingInit 0 0 "" 0 0) /\
  (~ init_ok e -> selects t = 0%nat).
Proof.
  intros Hrun.
  destruct (main_structure e argv st t Hrun)
    as (t_init & t_loop & fd & pool & -> & Hinit & _ & (t' & ->) & _ & _ & _ & Hst).
  split; [done|]. intros Hbad.
  destruct Hst as [[_ Hok]|(_ & _ & ->)]; [by destruct Hbad|].
  destruct (init_calls_counters _ Hinit) as (_ & _ & _ & _ & Hs).
  destruct (main_cleanup_counters fd pool) as (_ & _ & _ & _ & Hs' & _).
  by rewrite !selects_app, Hs, Hs'.
Qed.

Lemma main_init_order_witness :
  exists st t, main main_env_ok ["prog"; "x.conf"] = Some (st, t) /\
               head t = Some (CLoggingInit 0 0 "" 0 0).
Proof.
  destruct (main main_env_ok ["prog"; "x.conf"]) as [[st t]|] eqn:Hrun;
    [|vm_compute in Hrun; discriminate].
  destruct (main_init_order main_env_ok ["prog"; "x.conf"] st t Hrun) as (Hhead & _).
  exists st, t. split; [reflexivity | exact Hhead].
Defined.
